(** * htmlbars-runtime/lib/template.ts: statement and expression syntax,
      template decoding and evaluation.

    The development follows the TypeScript file top to bottom: JavaScript
    values and exceptions, the reference classes of the file, the expression
    and statement classes with their [fromSpec] / [build] / [evaluate] /
    [prettyPrint] members, [Template] with its shared [root] array, the
    [TemplateBuilder], and then the properties. *)

From Stdlib Require Import List String Ascii ZArith Bool Lia PeanoNat.
From Stdlib Require Import DecimalString.
Import ListNotations.
Open Scope string_scope.
Open Scope list_scope.

Set Warnings "-register-all".

(* ------------------------------------------------------------------ *)
(** ** Exceptions *)

(** A [throw new Error(msg)] of the file is [Error msg]; a failing member
    access or call on [null] / [undefined] is a [TypeError]. *)
Inductive JsError : Type :=
| Error (msg : string)
| TypeError (msg : string).

Inductive result (A : Type) : Type :=
| Ok (a : A)
| Throw (e : JsError).

Arguments Ok {A} a.
Arguments Throw {A} e.

Definition bind {A B : Type} (c : result A) (k : A -> result B) : result B :=
  match c with
  | Ok a => k a
  | Throw e => Throw e
  end.

Notation "x <- c ;; k" := (bind c (fun x => k))
  (at level 61, c at next level, right associativity).

(** [Array.prototype.map] with a callback that may throw. *)
Definition mapM {A B : Type} (f : A -> result B) : list A -> result (list B) :=
  fix go (l : list A) : result (list B) :=
    match l with
    | [] => Ok []
    | x :: rest =>
        y <- f x ;;
        ys <- go rest ;;
        Ok (y :: ys)
    end.

Definition is_ok {A : Type} (r : result A) : bool :=
  match r with Ok _ => true | Throw _ => false end.

(* ------------------------------------------------------------------ *)
(** ** JavaScript values *)

(** [JNum n] is the JavaScript number whose value is the integer [n];
    [JFun] is a function value known by an identifier (helpers are functions
    supplied by the environment). *)
Inductive JsVal : Type :=
| JUndefined
| JNull
| JBool (b : bool)
| JNum (n : Z)
| JStr (s : string)
| JArr (items : list JsVal)
| JObj (fields : list (string * JsVal))
| JFun (id : nat).

(** [dict()] objects: [hash[k] = v] overwrites an existing key in place and
    appends a new one. *)
Definition Dict (A : Type) : Type := list (string * A).

Fixpoint dict_set {A : Type} (k : string) (v : A) (d : Dict A) : Dict A :=
  match d with
  | [] => [(k, v)]
  | (k', v') :: rest =>
      if String.eqb k' k then (k, v) :: rest else (k', v') :: dict_set k v rest
  end.

Fixpoint dict_get {A : Type} (k : string) (d : Dict A) : option A :=
  match d with
  | [] => None
  | (k', v) :: rest => if String.eqb k' k then Some v else dict_get k rest
  end.

(** The array index a property key denotes: a key is an array index when
    it is the canonical decimal string of an integer from 0 to 2^32 - 2. *)
Fixpoint digits_value (s : string) (acc : N) : option N :=
  match s with
  | EmptyString => Some acc
  | String c rest =>
      let n := N_of_ascii c in
      if (N.leb 48 n && N.leb n 57)%bool
      then digits_value rest (10 * acc + (n - 48))%N
      else None
  end.

Definition array_index (k : string) : option N :=
  match k with
  | EmptyString => None
  | String c rest =>
      if (Ascii.eqb c "0"%char && negb (String.eqb rest ""))%bool then None
      else match digits_value k 0%N with
           | Some n => if N.leb n 4294967294%N then Some n else None
           | None => None
           end
  end.

Definition is_array_index (k : string) : bool :=
  match array_index k with Some _ => true | None => false end.

Definition key_index (k : string) : N :=
  match array_index k with Some n => n | None => 0%N end.

(** The own properties of the object a list of entries stands for: an
    object holds a key once, and a read finds the first entry under the
    key. *)
Fixpoint dict_own {A : Type} (d : Dict A) : Dict A :=
  match d with
  | [] => []
  | (k, v) :: rest =>
      (k, v) :: filter (fun kv => negb (String.eqb (fst kv) k)) (dict_own rest)
  end.

Fixpoint insert_by_index {A : Type} (x : string * A) (l : Dict A) : Dict A :=
  match l with
  | [] => [x]
  | y :: rest =>
      if N.leb (key_index (fst x)) (key_index (fst y))
      then x :: l
      else y :: insert_by_index x rest
  end.

Definition sort_by_index {A : Type} (l : Dict A) : Dict A :=
  fold_right insert_by_index [] l.

(** [Object.keys(obj)], each key with [obj[key]]: the keys that are array
    indices in ascending numeric order, then the other keys in the order
    they were created. *)
Definition Object_entries {A : Type} (d : Dict A) : Dict A :=
  let own := dict_own d in
  sort_by_index (filter (fun kv => is_array_index (fst kv)) own)
  ++ filter (fun kv => negb (is_array_index (fst kv))) own.

(** Property read on a value: [undefined] when the value is not an object
    or the object has no such field. *)
Definition js_field (v : JsVal) (k : string) : JsVal :=
  match v with
  | JObj fields =>
      match dict_get k fields with Some x => x | None => JUndefined end
  | _ => JUndefined
  end.

(** [xs[i]]: [None] is the [undefined] read past the end of an array. *)
Definition js_index {A : Type} (xs : list A) (i : nat) : option A := nth_error xs i.

(** [String.prototype.split] on a one-character separator. *)
Fixpoint split (sep : ascii) (s : string) : list string :=
  match s with
  | EmptyString => [EmptyString]
  | String c rest =>
      if Ascii.eqb c sep then EmptyString :: split sep rest
      else match split sep rest with
           | [] => [String c EmptyString]
           | seg :: segs => String c seg :: segs
           end
  end.

(** [Array.prototype.join] on an array of strings. *)
Definition join (sep : string) (parts : list string) : string :=
  String.concat sep parts.

(** Modelled from the spec: [intern] and [InternedString] of htmlbars-util,
    which is not part of this file.  The spec treats tags, keys and path
    segments as plain strings: an interned string is the string it was made
    from, under another type name. *)
Definition InternedString : Type := string.
Definition intern (s : string) : InternedString := s.

(** Interning of a value that need not be a string ([StaticAttr.build]
    receives the pulled value of a [Value] expression). *)
Definition intern_val (v : JsVal) : JsVal := v.

(* intern paths because they will be used as keys *)
Definition internPath (path : string) : list InternedString :=
  map intern (split "."%char path).

(* ------------------------------------------------------------------ *)
(** ** References *)

(** Modelled from the spec: the reference primitives of htmlbars-reference
    and of the environment, which are not part of this file.
    [ConstReference] is a fixed value with no source; [RootReference] is
    what [scope().getBase(name)] hands out and [PropertyReference] the
    result of [.get(segment)] on a reference.  The remaining constructors
    are the classes of this file that extend [PushPullReference]; their
    [sources] field is the list that [_addSource] fills. *)
Inductive Reference : Type :=
| ConstReference (inner : JsVal)
| RootReference (name : option InternedString)
| PropertyReference (parent : Reference) (segment : InternedString)
| HelperInvocationReference (helper args : Reference) (sources : list Reference)
| ConcatReference (parts : list Reference)
| EvaluatedParams (references : list Reference) (sources : list Reference)
| EvaluatedHash (values : list Reference) (keys : list InternedString)
                (sources : list Reference)
| EvaluatedParamsAndHash (paramsRef hashRef : Reference) (sources : list Reference).

(** Modelled from the spec: [PushPullReference._addSource] of
    htmlbars-reference, which is not part of this file.  The spec gives the
    combinator the interface [value()], [chain(dependent)],
    [addSource(ref)]: adding a source registers the combinator as a
    dependent of [source] and returns [source].  The state is the list of
    registered sources, in registration order. *)
Definition _addSource (sources : list Reference) (source : Reference)
  : Reference * list Reference :=
  (source, sources ++ [source]).

(** [xs.map(x => { this._addSource(x); return x })] starting from the
    sources registered so far. *)
Fixpoint addSources (sources : list Reference) (results : list Reference)
  : list Reference * list Reference :=
  match results with
  | [] => ([], sources)
  | r :: rest =>
      let '(r', sources1) := _addSource sources r in
      let '(rs, sources2) := addSources sources1 rest in
      (r' :: rs, sources2)
  end.

(** The sources a push-pull reference of this file has registered. *)
Definition Reference_sources (r : Reference) : list Reference :=
  match r with
  | HelperInvocationReference _ _ s => s
  | EvaluatedParams _ s => s
  | EvaluatedHash _ _ s => s
  | EvaluatedParamsAndHash _ _ s => s
  | ConstReference _ | RootReference _ | PropertyReference _ _
  | ConcatReference _ => []
  end.

(* ------------------------------------------------------------------ *)
(** ** Pulling a reference *)

(** What the environment decides when a reference is pulled: the current
    value of a scope variable, a property read, a helper call, the text a
    function value prints as and the text a number of 2^53 or more in
    magnitude prints as. *)
Record World : Type := {
  scope_value : option InternedString -> JsVal;
  get_prop : JsVal -> InternedString -> JsVal;
  call_helper : nat -> JsVal -> JsVal -> JsVal;
  fun_source : nat -> string;
  number_source : Z -> string
}.

Definition string_of_Z (n : Z) : string :=
  NilZero.string_of_int (Z.to_int n).

Section Pull.
Variable w : World.

(** [ToString], as [Array.prototype.join] applies it to the elements of an
    array: [null] and [undefined] elements print as the empty string.  An
    integer below 2^53 in magnitude prints with all its digits; from there
    on JavaScript prints the shortest digits that identify the number,
    followed by zeros or by an exponent, which is left to the
    environment. *)
Fixpoint js_toString (v : JsVal) : string :=
  match v with
  | JUndefined => "undefined"
  | JNull => "null"
  | JBool true => "true"
  | JBool false => "false"
  | JNum n =>
      if Z.ltb (Z.abs n) 9007199254740992 then string_of_Z n else number_source w n
  | JStr s => s
  | JArr items =>
      join "," (map (fun x => match x with
                              | JUndefined | JNull => ""
                              | _ => js_toString x
                              end) items)
  | JObj _ => "[object Object]"
  | JFun id => fun_source w id
  end.

Definition js_join (sep : string) (items : list JsVal) : string :=
  join sep (map (fun x => match x with
                          | JUndefined | JNull => ""
                          | _ => js_toString x
                          end) items).

(** [keys.forEach((k, i) => { hash[k] = refs[i].value() })] over the
    already pulled [vals]; reading past the end of [refs] and calling
    [value] on the [undefined] found there is a [TypeError]. *)
Fixpoint hash_value (keys : list InternedString) (vals : list (result JsVal))
         (i : nat) (hash : Dict JsVal) : result (Dict JsVal) :=
  match keys with
  | [] => Ok hash
  | k :: rest =>
      match js_index vals i with
      | None => Throw (TypeError "undefined has no value()")
      | Some pulled =>
          v <- pulled ;;
          hash_value rest vals (S i) (dict_set k v hash)
      end
  end.

(** [value()] of each reference class. *)
Fixpoint Reference_value (r : Reference) : result JsVal :=
  match r with
  | ConstReference inner => Ok inner
  | RootReference name => Ok (scope_value w name)
  | PropertyReference parent segment =>
      p <- Reference_value parent ;;
      Ok (get_prop w p segment)
  | HelperInvocationReference helper args _ =>
      a <- Reference_value args ;;
      h <- Reference_value helper ;;
      match h with
      | JFun id => Ok (call_helper w id (js_field a "params") (js_field a "hash"))
      | _ => Throw (TypeError "helper is not a function")
      end
  | ConcatReference parts =>
      vs <- mapM Reference_value parts ;;
      Ok (JStr (js_join "" vs))
  | EvaluatedParams references _ =>
      vs <- mapM Reference_value references ;;
      Ok (JArr vs)
  | EvaluatedHash values keys _ =>
      h <- hash_value keys (map Reference_value values) 0 [] ;;
      Ok (JObj h)
  | EvaluatedParamsAndHash paramsRef hashRef _ =>
      p <- Reference_value paramsRef ;;
      h <- Reference_value hashRef ;;
      Ok (JObj [("params", p); ("hash", h)])
  end.
End Pull.

(* ------------------------------------------------------------------ *)
(** ** Expression syntax *)

(** [class Ref]: a dotted path kept as its segments. *)
Record Ref : Type := mkRef { parts : list InternedString }.

(** The expression classes that [buildExpression] and the [build] members
    produce, with the argument containers [ParamsAndHash], [Params], [Hash]. *)
Inductive Expression : Type :=
| Value (value : JsVal)
| Get (ref : Ref)
| Helper (ref : Ref) (args : ParamsAndHash)
| Concat (parts : Params)
with ParamsAndHash : Type :=
| mkParamsAndHash (params : Params) (hash : Hash)
with Params : Type :=
| mkParams (params : list Expression)
with Hash : Type :=
| mkHash (keys : list InternedString) (values : list Expression).

Definition Hash_keys (h : Hash) : list InternedString :=
  match h with mkHash keys _ => keys end.
Definition Hash_values (h : Hash) : list Expression :=
  match h with mkHash _ values => values end.
Definition Params_params (p : Params) : list Expression :=
  match p with mkParams params => params end.
Definition ParamsAndHash_params (a : ParamsAndHash) : Params :=
  match a with mkParamsAndHash params _ => params end.
Definition ParamsAndHash_hash (a : ParamsAndHash) : Hash :=
  match a with mkParamsAndHash _ hash => hash end.

(** [isStatic]: [Value] extends [StaticExpression]; [Get] extends
    [DynamicExpression]; [Helper] and [Concat] set [isStatic = false]. *)
Definition Expression_isStatic (e : Expression) : bool :=
  match e with
  | Value _ => true
  | Get _ | Helper _ _ | Concat _ => false
  end.

(* ------------------------------------------------------------------ *)
(** ** Wire format *)

(** A payload with [typeof spec !== 'object' || spec === null]. *)
Inductive Literal : Type :=
| LUndefined
| LNull
| LBool (b : bool)
| LNum (n : Z)
| LStr (s : string).

Definition Literal_value (l : Literal) : JsVal :=
  match l with
  | LUndefined => JUndefined
  | LNull => JNull
  | LBool b => JBool b
  | LNum n => JNum n
  | LStr s => JStr s
  end.

(** Expression tuples [[tag, ...fields]], by the tag in first position.
    [XOther] is a tuple whose tag is not a key of [ExpressionNodes].  A
    [ParamsSexp] or [HashSexp] that is [null] / [undefined] is [None]; the
    flat [[key, expr, key, expr, ...]] array of a [HashSexp] is kept as its
    pairs. *)
Inductive ExpressionSexp : Type :=
| XLiteral (v : Literal)
| XGet (parts : list InternedString)
| XHelper (path : list InternedString)
          (params : option (list ExpressionSexp))
          (hash : option (list (InternedString * ExpressionSexp)))
| XConcat (params : option (list ExpressionSexp))
| XOther (tag : string).

Definition ParamsSexp : Type := option (list ExpressionSexp).
Definition HashSexp : Type := option (list (InternedString * ExpressionSexp)).

(** Statement tuples.  [templateId] / [inverseId] are an index into the
    sibling array or [null].  [SOther] is a tuple whose tag is not a key of
    [StatementNodes]. *)
Inductive StatementSexp : Type :=
| SBlock (path : list InternedString) (params : ParamsSexp) (hash : HashSexp)
         (templateId inverseId : option nat)
| SInline (path : list InternedString) (params : ParamsSexp) (hash : HashSexp)
          (trust : bool)
| SUnknown (path : list InternedString) (unsafe : bool)
| SDynamicAttr (name : InternedString) (value : ExpressionSexp)
               (namespace : option InternedString)
| SDynamicProp (name : string) (value : ExpressionSexp) (namespace : option string)
| SComponent (path : InternedString) (attrs : HashSexp)
             (templateId inverseId : option nat)
| SText (content : string)
| SComment (value : string)
| SOpenElement (tag : string)
| SCloseElement
| SStaticAttr (name value : InternedString) (namespace : option InternedString)
| SOther (tag : string).

(** [statement[0]]. *)
Definition sexp_tag (s : StatementSexp) : string :=
  match s with
  | SBlock _ _ _ _ _ => "block"
  | SInline _ _ _ _ => "inline"
  | SUnknown _ _ => "unknown"
  | SDynamicAttr _ _ _ => "dynamicAttr"
  | SDynamicProp _ _ _ => "dynamicProp"
  | SComponent _ _ _ _ => "component"
  | SText _ => "text"
  | SComment _ => "comment"
  | SOpenElement _ => "openElement"
  | SCloseElement => "closeElement"
  | SStaticAttr _ _ _ => "staticAttr"
  | SOther tag => tag
  end.

(** One descriptor of the spec array handed to [Template.fromSpec]. *)
Record TemplateSpec : Type := mkSpec {
  spec_statements : list StatementSexp;
  spec_locals : option (list InternedString);
  spec_meta : option (Dict JsVal)
}.

(* ------------------------------------------------------------------ *)
(** ** Statement syntax and templates *)

(** The [root] of a decoded template is the array [templates] that
    [Template.fromSpec] allocates and that every template decoded by the same
    call shares.  An array is known by its index in the [Store]. *)
Definition RootId : Type := nat.

(** [Template], the statement classes and [Templates] refer to each other:
    a block-shaped statement holds a [Templates] pair of templates decoded
    earlier.  A [Statement] is the object of one of the classes
    ([StatementNode]) together with the two marker properties that
    [buildStatements] may set on it.  [Foreign] is an object that implements
    the [StatementSyntax] interface and nothing else ([type], [isStatic],
    [evaluate]); the interface does not ask for [prettyPrint].  [className]
    is its [constructor.name]. *)
Inductive Template : Type :=
| mkTemplate (meta : Dict JsVal) (root : option RootId) (position : option nat)
             (arity : nat) (statements : list Statement)
             (locals : list InternedString) (spec : option TemplateSpec)
             (isEmpty : bool)
with Statement : Type :=
| mkStatement (node : StatementNode) (frontBoundary backBoundary : bool)
with StatementNode : Type :=
| Block (path : list InternedString) (args : ParamsAndHash) (templates : Templates)
| Inline (path : list InternedString) (trustingMorph : bool) (args : ParamsAndHash)
| Unknown (ref : Ref) (trustingMorph : bool)
| DynamicAttr (name : InternedString) (value : Expression)
              (namespace : option InternedString)
| DynamicProp (name : string) (value : Expression)
| Component (path : Ref) (hash : option Hash) (templates : Templates)
| Text (content : string)
| Comment (value : string)
| OpenElement (tag : string)
| CloseElement
| StaticAttr (name : InternedString) (value : JsVal)
             (namespace : option InternedString)
| Foreign (className type : string) (isStatic : bool)
with Templates : Type :=
| mkTemplates (_default _inverse : option Template).

Definition Template_meta (t : Template) :=
  match t with mkTemplate meta _ _ _ _ _ _ _ => meta end.
Definition Template_root (t : Template) :=
  match t with mkTemplate _ root _ _ _ _ _ _ => root end.
Definition Template_position (t : Template) :=
  match t with mkTemplate _ _ position _ _ _ _ _ => position end.
Definition Template_arity (t : Template) :=
  match t with mkTemplate _ _ _ arity _ _ _ _ => arity end.
Definition Template_statements (t : Template) :=
  match t with mkTemplate _ _ _ _ statements _ _ _ => statements end.
Definition Template_locals (t : Template) :=
  match t with mkTemplate _ _ _ _ _ locals _ _ => locals end.
Definition Template_spec (t : Template) :=
  match t with mkTemplate _ _ _ _ _ _ spec _ => spec end.
Definition Template_isEmpty (t : Template) :=
  match t with mkTemplate _ _ _ _ _ _ _ isEmpty => isEmpty end.

Definition Statement_node (s : Statement) :=
  match s with mkStatement node _ _ => node end.
Definition frontBoundary (s : Statement) :=
  match s with mkStatement _ front _ => front end.
Definition backBoundary (s : Statement) :=
  match s with mkStatement _ _ back => back end.

Definition Templates_default (t : Templates) :=
  match t with mkTemplates d _ => d end.
Definition Templates_inverse (t : Templates) :=
  match t with mkTemplates _ i => i end.

(** A freshly constructed statement object carries no marker. *)
Definition new_Statement (node : StatementNode) : Statement :=
  mkStatement node false false.

(** The [type] field of each class. *)
Definition StatementNode_type (n : StatementNode) : string :=
  match n with
  | Block _ _ _ => "block"
  | Inline _ _ _ => "inline"
  | Unknown _ _ => "unknown"
  | DynamicAttr _ _ _ => "dynamic-attr"
  | DynamicProp _ _ => "dynamic-prop"
  | Component _ _ _ => "component"
  | Text _ => "text"
  | Comment _ => "comment"
  | OpenElement _ => "open-element"
  | CloseElement => "close-element"
  | StaticAttr _ _ _ => "static-attr"
  | Foreign _ type _ => type
  end.

Definition Statement_type (s : Statement) : string :=
  StatementNode_type (Statement_node s).

(** [isStatic]: the classes extending [StaticExpression] against those
    extending [DynamicExpression]. *)
Definition StatementNode_isStatic (n : StatementNode) : bool :=
  match n with
  | Text _ | Comment _ | OpenElement _ | CloseElement | StaticAttr _ _ _ => true
  | Block _ _ _ | Inline _ _ _ | Unknown _ _ | DynamicAttr _ _ _
  | DynamicProp _ _ | Component _ _ _ => false
  | Foreign _ _ isStatic => isStatic
  end.

(** The store of [root] arrays. *)
Definition Store : Type := list (list Template).

(* ------------------------------------------------------------------ *)
(** ** Debug dumps *)

(** [Templates.prettyPrint] returns [{ default, inverse }], each the
    [position] of the template or [null]. *)
Record TemplatesDump : Type := mkTemplatesDump {
  dump_default : option nat;
  dump_inverse : option nat
}.

(** [type PrettyPrintValue = PrettyPrint | string]; [Value.prettyPrint]
    returns its raw value, hence [PPValue] holds any value.  The three last
    arguments of [new PrettyPrint] default to [null]. *)
Inductive PrettyPrint : Type :=
| PP (type operation : string) (params : option (list PrettyPrint))
     (hash : option (Dict PrettyPrint)) (templates : option TemplatesDump)
| PPValue (v : JsVal).

(* ------------------------------------------------------------------ *)
(** ** Frame, render nodes and the element stack *)

Inductive ComponentDefinition : Type :=
| mkDefinition (id : nat).

(** The members of [Frame] that this file calls.  [getBase] stands for
    [frame.scope().getBase(name)]; [name] is [None] when the path has no
    segment and [parts[0]] is [undefined].  [lookupHelper] returns the
    [ConstReference] of a helper.  A definition that is [null] or
    [undefined] is [None]. *)
Record Frame : Type := mkFrame {
  getBase : option InternedString -> Reference;
  hasHelper : list InternedString -> bool;
  lookupHelper : list InternedString -> Reference;
  getComponentDefinition : list InternedString -> StatementNode
                           -> option ComponentDefinition
}.

(** The render-node classes handed to [createMorph] / [createContentMorph]. *)
Inductive MorphClass : Type :=
| BlockHelperMorph
| InsertionMorph
| HelperMorph
| SetPropertyMorph
| AttrMorph
| ComponentMorph
| FallbackMorph
| SimpleTemplateMorph.

(** The options object literal each call site passes. *)
Inductive MorphOptions : Type :=
| BlockHelperOptions (helper args : Reference) (templates : Templates)
| ContentOptions (content : Reference) (trustingMorph : bool)
| SetPropertyOptions (name : string) (value : Expression)
| AttrOptions (name : InternedString) (value : Reference)
              (namespace : option InternedString)
| ComponentOptions (definition : ComponentDefinition) (attrs : option Hash)
                   (template : option Template)
| FallbackOptions (path : list InternedString) (hash : option Hash)
                  (template : option Template)
| SimpleTemplateOptions (template : option Template).

(** One call on the [ElementStack].  [evaluateForeign] stands for the
    [evaluate] of a [Foreign] statement, of which nothing is known. *)
Inductive BuilderCall : Type :=
| openElement (tag : option string)
| closeElement
| appendText (content : string)
| appendComment (value : string)
| setAttribute (name : InternedString) (value : JsVal)
| setAttributeNS (name : InternedString) (value : JsVal) (namespace : InternedString)
| createMorph (Kind : MorphClass) (options : MorphOptions)
| createContentMorph (Kind : MorphClass) (options : MorphOptions)
| evaluateForeign (type : string).

Definition Morph : Type := (MorphClass * MorphOptions)%type.

(** Modelled from the spec: the [ElementStack] of ./builder, which is not
    part of this file.  The spec gives it the operations [openElement],
    [closeElement], [appendText], [appendComment], [setAttribute],
    [setAttributeNS], [createMorph] and [createContentMorph] (instantiate a
    render node of the given kind), [appendStatement] (the single dispatch
    entry for a statement) and an accessor for the accumulated render-node
    list.  The state is the log of calls received and the render nodes
    asked for, both in order.  What the builder and the render-node classes
    of ./morphs do inside a call (initialising the node, appending its
    output, which may throw) is not part of this file and not in the log. *)
Record ElementStack : Type := mkStack {
  calls : list BuilderCall;
  morphs : list Morph
}.

Definition new_ElementStack : ElementStack := mkStack [] [].

Definition ElementStack_call (stack : ElementStack) (c : BuilderCall) : ElementStack :=
  match c with
  | createMorph Kind options | createContentMorph Kind options =>
      mkStack (calls stack ++ [c]) (morphs stack ++ [(Kind, options)])
  | _ => mkStack (calls stack ++ [c]) (morphs stack)
  end.

Definition morphList (stack : ElementStack) : list Morph := morphs stack.

(** Modelled from the spec: [RenderResult] of ./render, the bundle of the
    produced render-node list and the template; the scope and the bounds are
    the frame's and the stack's own and are left out. *)
Record RenderResult : Type := mkRenderResult {
  result_morphs : list Morph;
  result_template : Template
}.

(* ------------------------------------------------------------------ *)
(** ** [Ref] *)

Definition new_Ref (parts : list InternedString) : Ref := mkRef parts.

Definition Ref_build (path : string) : Ref := new_Ref (internPath path).

Definition Ref_prettyPrint (r : Ref) : string := join "." (parts r).

Definition Ref_path (r : Ref) : list InternedString := parts r.

(** [getBase(parts[0])], then one [.get(parts[i])] per further segment. *)
Definition Ref_evaluate (r : Ref) (frame : Frame) : Reference :=
  fold_left PropertyReference (tl (parts r)) (getBase frame (js_index (parts r) 0)).

Definition Ref_isHelper (r : Ref) (frame : Frame) : bool :=
  hasHelper frame (parts r).

(* ------------------------------------------------------------------ *)
(** ** [Params], [Hash], [ParamsAndHash]: construction *)

Definition EMPTY_ARRAY {A : Type} : list A := [].

Definition Params_empty : Params := mkParams [].
Definition Hash_empty : Hash := mkHash EMPTY_ARRAY EMPTY_ARRAY.
Definition ParamsAndHash_empty : ParamsAndHash :=
  mkParamsAndHash Params_empty Hash_empty.

Definition Params_build (exprs : list Expression) : Params := mkParams exprs.

Definition ParamsAndHash_build (params : Params) (hash : Hash) : ParamsAndHash :=
  mkParamsAndHash params hash.

(** [Hash.build(hash)]: the keys of [Object.keys(hash)], each with
    [hash[key]]; [undefined] is [None]. *)
Definition Hash_build (hash : option (Dict Expression)) : Hash :=
  match hash with
  | None => Hash_empty
  | Some d =>
      let entries := Object_entries d in
      mkHash (map fst entries) (map snd entries)
  end.

Section Decode.
(** The decoders of the containers call [buildExpression] on their
    elements and [buildExpression] calls them back; they are written over
    the element decoder first. *)
Variable build : ExpressionSexp -> result Expression.

Definition Params_fromSpec_with (sexp : ParamsSexp) : result Params :=
  match sexp with
  | None => Ok Params_empty
  | Some [] => Ok Params_empty
  | Some l => exprs <- mapM build l ;; Ok (mkParams exprs)
  end.

(** The loop [for (i = 0; i < l; i += 2)] pushing one key and one built
    value per pair. *)
Definition Hash_fromSpec_loop : list (InternedString * ExpressionSexp)
    -> list InternedString -> list Expression -> result Hash :=
  fix loop rawPairs keys values :=
    match rawPairs with
    | [] => Ok (mkHash keys values)
    | (key, expr) :: rest =>
        e <- build expr ;;
        loop rest (keys ++ [key]) (values ++ [e])
    end.

Definition Hash_fromSpec_with (rawPairs : HashSexp) : result Hash :=
  match rawPairs with
  | None => Ok Hash_empty
  | Some pairs => Hash_fromSpec_loop pairs [] []
  end.

Definition ParamsAndHash_fromSpec_with (params : ParamsSexp) (hash : HashSexp)
  : result ParamsAndHash :=
  p <- Params_fromSpec_with params ;;
  h <- Hash_fromSpec_with hash ;;
  Ok (mkParamsAndHash p h).
End Decode.

(** [buildExpression] with the [fromSpec] of [Value], [Get], [Helper] and
    [Concat]; a tag outside [ExpressionNodes] makes
    [ExpressionNodes[spec[0]].fromSpec] a member read on [undefined]. *)
Fixpoint buildExpression (spec : ExpressionSexp) : result Expression :=
  match spec with
  | XLiteral v => Ok (Value (Literal_value v))
  | XGet parts => Ok (Get (new_Ref parts))
  | XHelper path params hash =>
      args <- ParamsAndHash_fromSpec_with buildExpression params hash ;;
      Ok (Helper (new_Ref path) args)
  | XConcat params =>
      parts <- Params_fromSpec_with buildExpression params ;;
      Ok (Concat parts)
  | XOther tag => Throw (TypeError "ExpressionNodes[tag] is undefined")
  end.

Definition Params_fromSpec : ParamsSexp -> result Params :=
  Params_fromSpec_with buildExpression.
Definition Hash_fromSpec : HashSexp -> result Hash :=
  Hash_fromSpec_with buildExpression.
Definition ParamsAndHash_fromSpec : ParamsSexp -> HashSexp -> result ParamsAndHash :=
  ParamsAndHash_fromSpec_with buildExpression.

Definition Value_build (value : JsVal) : Expression := Value value.
Definition Get_build (path : string) : Expression := Get (Ref_build path).
Definition Helper_build (path : string) (params : Params) (hash : Hash) : Expression :=
  Helper (Ref_build path) (mkParamsAndHash params hash).
Definition Concat_build (parts : Params) : Expression := Concat parts.

(* ------------------------------------------------------------------ *)
(** ** Evaluated forms *)

(** [new HelperInvocationReference(helper, args)]: both are added as
    sources. *)
Definition new_HelperInvocationReference (helper args : Reference) : Reference :=
  let '(helper', s1) := _addSource [] helper in
  let '(args', s2) := _addSource s1 args in
  HelperInvocationReference helper' args' s2.

(** [new EvaluatedParams(params, frame)], given the references its
    parameters evaluated to: each is added as a source and kept. *)
Definition new_EvaluatedParams (results : list Reference) : Reference :=
  let '(references, s) := addSources [] results in
  EvaluatedParams references s.

(** [new EvaluatedHash(hash, frame)], given the references its values
    evaluated to. *)
Definition new_EvaluatedHash (keys : list InternedString) (results : list Reference)
  : Reference :=
  let '(values, s) := addSources [] results in
  EvaluatedHash values keys s.

(** [new EvaluatedParamsAndHash({ params, hash }, frame)], given the two
    evaluated containers:
    [this.paramsRef = this._addSource(params.evaluate(frame));
     this.hashRef = hash.evaluate(frame);] *)
Definition new_EvaluatedParamsAndHash (evaluatedParams evaluatedHash : Reference)
  : Reference :=
  let '(paramsRef, s1) := _addSource [] evaluatedParams in
  let hashRef := evaluatedHash in
  EvaluatedParamsAndHash paramsRef hashRef s1.

(** [new ConcatReference(parts)]: every part chains the new reference. *)
Definition new_ConcatReference (parts : list Reference) : Reference :=
  ConcatReference parts.

Section Evaluate.
Variable frame : Frame.

(** [evaluate(frame)] of the expression classes and of the containers.
    [Hash.evaluate] first fills a local array [out] with the evaluated
    values and drops it; the references it returns are those the
    [EvaluatedHash] constructor evaluates. *)
Fixpoint Expression_evaluate (e : Expression) : Reference :=
  match e with
  | Value value => ConstReference value
  | Get ref => Ref_evaluate ref frame
  | Helper ref args =>
      let helper := lookupHelper frame (Ref_path ref) in
      new_HelperInvocationReference helper (ParamsAndHash_evaluate args)
  | Concat parts =>
      new_ConcatReference
        (match parts with mkParams ps => map Expression_evaluate ps end)
  end
with ParamsAndHash_evaluate (a : ParamsAndHash) : Reference :=
  match a with
  | mkParamsAndHash params hash =>
      new_EvaluatedParamsAndHash (Params_evaluate params) (Hash_evaluate hash)
  end
with Params_evaluate (p : Params) : Reference :=
  match p with
  | mkParams params => new_EvaluatedParams (map Expression_evaluate params)
  end
with Hash_evaluate (h : Hash) : Reference :=
  match h with
  | mkHash keys values => new_EvaluatedHash keys (map Expression_evaluate values)
  end.
End Evaluate.

(** [EvaluatedParams.nth], [first], [last]. *)
Definition EvaluatedParams_nth (references : list Reference) (n : nat)
  : option Reference := js_index references n.

Definition EvaluatedParams_first (references : list Reference) : option Reference :=
  EvaluatedParams_nth references 0.

(** [this.nth(this.references.length - 1)]; with no reference the index is
    [-1] and the read gives [undefined]. *)
Definition EvaluatedParams_last (references : list Reference) : option Reference :=
  match references with
  | [] => None
  | _ => EvaluatedParams_nth references (List.length references - 1)
  end.

(** [EvaluatedHash.at(key)]:
    [this.keys.some((k, i) => { if (k === key) { ret = this.values[i]; return true; } })]
    with [ret] starting as [null].  [None] is "no reference". *)
Fixpoint EvaluatedHash_some (keys : list InternedString) (values : list Reference)
         (key : InternedString) (i : nat) : option Reference :=
  match keys with
  | [] => None
  | k :: rest =>
      if String.eqb k key then js_index values i
      else EvaluatedHash_some rest values key (S i)
  end.

Definition EvaluatedHash_at (h : Reference) (key : InternedString) : option Reference :=
  match h with
  | EvaluatedHash values keys _ => EvaluatedHash_some keys values key 0
  | _ => None
  end.

(** [ParamsAndHash.empty().evaluate(null)].  The frame is [null]: the empty
    containers have no expression to evaluate, so no member of the frame is
    read (see [ParamsAndHash_evaluate_empty]); [null_Frame] stands for it. *)
Definition null_Frame : Frame :=
  mkFrame (fun _ => ConstReference JUndefined) (fun _ => false)
          (fun _ => ConstReference JUndefined) (fun _ _ => None).

Definition EvaluatedParamsAndHash_empty : Reference :=
  ParamsAndHash_evaluate null_Frame ParamsAndHash_empty.

(* ------------------------------------------------------------------ *)
(** ** [prettyPrint] of expressions *)

(** [this.keys.forEach((key, i) => { out[key] = this.values[i].prettyPrint() })]
    over the dumps of the values; a key without a value reads [undefined]
    and the call on it is a [TypeError]. *)
Fixpoint Hash_prettyPrint_loop (keys : list InternedString)
         (dumps : list (result PrettyPrint)) (i : nat) (out : Dict PrettyPrint)
  : result (Dict PrettyPrint) :=
  match keys with
  | [] => Ok out
  | key :: rest =>
      match js_index dumps i with
      | None => Throw (TypeError "undefined has no prettyPrint()")
      | Some dump =>
          d <- dump ;;
          Hash_prettyPrint_loop rest dumps (S i) (dict_set key d out)
      end
  end.

Fixpoint Expression_prettyPrint (e : Expression) : result PrettyPrint :=
  match e with
  | Value value => Ok (PPValue value)
  | Get ref =>
      Ok (PP "expr" "get" (Some [PPValue (JStr (Ref_prettyPrint ref))]) None None)
  | Helper ref args =>
      ph <- ParamsAndHash_prettyPrint args ;;
      Ok (PP "expr" (Ref_prettyPrint ref) (Some (fst ph)) (Some (snd ph)) None)
  | Concat parts =>
      ps <- match parts with mkParams l => mapM Expression_prettyPrint l end ;;
      Ok (PP "expr" "concat" (Some ps) None None)
  end
with ParamsAndHash_prettyPrint (a : ParamsAndHash)
  : result (list PrettyPrint * Dict PrettyPrint) :=
  match a with
  | mkParamsAndHash params hash =>
      p <- Params_prettyPrint params ;;
      h <- Hash_prettyPrint hash ;;
      Ok (p, h)
  end
with Params_prettyPrint (p : Params) : result (list PrettyPrint) :=
  match p with
  | mkParams params => mapM Expression_prettyPrint params
  end
with Hash_prettyPrint (h : Hash) : result (Dict PrettyPrint) :=
  match h with
  | mkHash keys values =>
      Hash_prettyPrint_loop keys (map Expression_prettyPrint values) 0 []
  end.

(* ------------------------------------------------------------------ *)
(** ** [Templates] *)

Definition Templates_fromSpec (templateId inverseId : option nat)
           (children : list Template) : Templates :=
  mkTemplates
    (match templateId with None => None | Some id => js_index children id end)
    (match inverseId with None => None | Some id => js_index children id end).

Definition Templates_build (template inverse : option Template) : Templates :=
  mkTemplates template inverse.

(** [_default && _default.position]. *)
Definition Templates_prettyPrint (t : Templates) : TemplatesDump :=
  mkTemplatesDump
    (match Templates_default t with None => None | Some d => Template_position d end)
    (match Templates_inverse t with None => None | Some i => Template_position i end).

(** [evaluate(frame) { throw new Error("unimplemented evaluate for ExpressionSyntax") }] *)
Definition Templates_evaluate (t : Templates) (frame : Frame) : result Reference :=
  Throw (Error "unimplemented evaluate for ExpressionSyntax").

(* ------------------------------------------------------------------ *)
(** ** Statement classes: [fromSpec] and [build] *)

(** Truthiness of a string that may be [null]: [null] and the empty string
    are falsy. *)
Definition truthy (s : option string) : bool :=
  match s with
  | None => false
  | Some str => negb (String.eqb str "")
  end.

Definition Block_fromSpec (path : list InternedString) (params : ParamsSexp)
           (hash : HashSexp) (templateId inverseId : option nat)
           (children : list Template) : result Statement :=
  args <- ParamsAndHash_fromSpec params hash ;;
  Ok (new_Statement (Block path args (Templates_fromSpec templateId inverseId children))).

Definition Block_build (path : list InternedString) (args : ParamsAndHash)
           (templates : Templates) : Statement :=
  new_Statement (Block path args templates).

Definition Unknown_fromSpec (path : list InternedString) (unsafe : bool) : Statement :=
  new_Statement (Unknown (new_Ref path) unsafe).

Definition Unknown_build (path : string) (unsafe : bool) : Statement :=
  new_Statement (Unknown (Ref_build path) unsafe).

Definition Inline_fromSpec (path : list InternedString) (params : ParamsSexp)
           (hash : HashSexp) (trust : bool) : result Statement :=
  args <- ParamsAndHash_fromSpec params hash ;;
  Ok (new_Statement (Inline path trust args)).

Definition Inline_build (_path : string) (args : ParamsAndHash) (trust : bool)
  : Statement :=
  let path := internPath _path in
  new_Statement (Inline path trust args).

(** [DynamicProp.fromSpec] reads the namespace of the tuple and drops it:
    the class has no such field. *)
Definition DynamicProp_fromSpec (name : string) (value : ExpressionSexp)
           (namespace : option string) : result Statement :=
  v <- buildExpression value ;;
  Ok (new_Statement (DynamicProp name v)).

Definition DynamicProp_build (name : string) (value : Expression) : Statement :=
  new_Statement (DynamicProp name value).

Definition DynamicAttr_fromSpec (name : InternedString) (value : ExpressionSexp)
           (namespace : option InternedString) : result Statement :=
  v <- buildExpression value ;;
  Ok (new_Statement (DynamicAttr name v namespace)).

(** [build(_name, value, _namespace = null)] *)
Definition DynamicAttr_build (_name : string) (value : Expression)
           (_namespace : option string) : Statement :=
  let name := intern _name in
  let namespace :=
    if truthy _namespace
    then match _namespace with Some ns => Some (intern ns) | None => None end
    else None in
  new_Statement (DynamicAttr name value namespace).

Definition Component_fromSpec (path : InternedString) (attrs : HashSexp)
           (templateId inverseId : option nat) (children : list Template)
  : result Statement :=
  hash <- Hash_fromSpec attrs ;;
  Ok (new_Statement
        (Component (new_Ref [path]) (Some hash)
                   (Templates_fromSpec templateId inverseId children))).

(** [build(path, options)] with [options = { default, inverse, hash }];
    [options.hash || null] keeps a hash and turns a missing one into
    [null]. *)
Definition Component_build (path : string) (default inverse : option Template)
           (hash : option Hash) : Statement :=
  new_Statement (Component (Ref_build path) hash (Templates_build default inverse)).

Definition Text_fromSpec (content : string) : Statement := new_Statement (Text content).
Definition Text_build (content : string) : Statement := new_Statement (Text content).

Definition Comment_fromSpec (value : string) : Statement := new_Statement (Comment value).
Definition Comment_build (value : string) : Statement := new_Statement (Comment value).

Definition OpenElement_fromSpec (tag : string) : Statement :=
  new_Statement (OpenElement tag).
Definition OpenElement_build (tag : string) : Statement :=
  new_Statement (OpenElement tag).

Definition CloseElement_fromSpec : Statement := new_Statement CloseElement.
Definition CloseElement_build : Statement := new_Statement CloseElement.

Definition StaticAttr_fromSpec (name value : InternedString)
           (namespace : option InternedString) : Statement :=
  new_Statement (StaticAttr name (JStr value) namespace).

(** [build(name, value, namespace = null)] with
    [namespace && intern(namespace)]: a falsy namespace stays as it is. *)
Definition StaticAttr_build (name : string) (value : JsVal)
           (namespace : option string) : Statement :=
  new_Statement
    (StaticAttr (intern name) (intern_val value)
                (if truthy namespace
                 then match namespace with Some ns => Some (intern ns) | None => None end
                 else namespace)).

(** [StatementNodes[statement[0]].fromSpec(statement, list)]: the tuple is
    handed to the class its tag selects ([siblings] is the parameter the
    source calls [list]). *)
Definition Statement_fromSpec (statement : StatementSexp) (siblings : list Template)
  : result Statement :=
  match statement with
  | SBlock path params hash templateId inverseId =>
      Block_fromSpec path params hash templateId inverseId siblings
  | SInline path params hash trust => Inline_fromSpec path params hash trust
  | SUnknown path unsafe => Ok (Unknown_fromSpec path unsafe)
  | SDynamicAttr name value namespace => DynamicAttr_fromSpec name value namespace
  | SDynamicProp name value namespace => DynamicProp_fromSpec name value namespace
  | SComponent path attrs templateId inverseId =>
      Component_fromSpec path attrs templateId inverseId siblings
  | SText content => Ok (Text_fromSpec content)
  | SComment value => Ok (Comment_fromSpec value)
  | SOpenElement tag => Ok (OpenElement_fromSpec tag)
  | SCloseElement => Ok CloseElement_fromSpec
  | SStaticAttr name value namespace => Ok (StaticAttr_fromSpec name value namespace)
  | SOther tag => Throw (TypeError "StatementNodes[tag] is undefined")
  end.

(** [tag in BOUNDARY_CANDIDATES] for the tags of [StatementNodes].  (The
    [in] operator also answers true for the names [Object.prototype]
    defines; a tuple with such a tag has already failed in
    [Statement_fromSpec].) *)
Definition BOUNDARY_CANDIDATES (tag : string) : bool :=
  existsb (String.eqb tag) ["block"; "inline"; "unknown"; "component"].

(** [built[i].prop = true]: a [TypeError] when [built[i]] is [undefined]. *)
Fixpoint set_at (built : list Statement) (i : nat) (f : Statement -> Statement)
  : result (list Statement) :=
  match built, i with
  | [], _ => Throw (TypeError "cannot set a property of undefined")
  | s :: rest, O => Ok (f s :: rest)
  | s :: rest, S j => rest' <- set_at rest j f ;; Ok (s :: rest')
  end.

Definition set_frontBoundary (s : Statement) : Statement :=
  mkStatement (Statement_node s) true (backBoundary s).
Definition set_backBoundary (s : Statement) : Statement :=
  mkStatement (Statement_node s) (frontBoundary s) true.

Definition buildStatements (statements : list StatementSexp) (siblings : list Template)
  : result (list Statement) :=
  match statements with
  | [] => Ok EMPTY_ARRAY
  | first :: _ =>
      built <- mapM (fun statement => Statement_fromSpec statement siblings) statements ;;
      built1 <- (if BOUNDARY_CANDIDATES (sexp_tag first)
                 then set_at built 0 set_frontBoundary
                 else Ok built) ;;
      match js_index statements (List.length statements - 1) with
      | None => Throw (TypeError "cannot read property 0 of undefined")
      | Some final =>
          if BOUNDARY_CANDIDATES (sexp_tag final)
          then set_at built1 (List.length built1 - 1) set_backBoundary
          else Ok built1
      end
  end.

(* ------------------------------------------------------------------ *)
(** ** Statement classes: [evaluate] *)

(** Each [evaluate(stack, frame)] issues one call on the stack; the
    function returns that call.  [Component.evaluate] builds
    [new ParamsAndHash({ params: Params.empty(), hash: this.hash })] on its
    helper branch and evaluates it: with a [null] hash the constructor of
    [EvaluatedParamsAndHash] calls [evaluate] on [null]. *)
Definition Block_evaluate (path : list InternedString) (args : ParamsAndHash)
           (templates : Templates) (frame : Frame) : BuilderCall :=
  let helper := lookupHelper frame path in
  let args' := ParamsAndHash_evaluate frame args in
  createContentMorph BlockHelperMorph (BlockHelperOptions helper args' templates).

Definition Unknown_evaluate (ref : Ref) (trustingMorph : bool) (frame : Frame)
  : BuilderCall :=
  let content :=
    if Ref_isHelper ref frame
    then let path := lookupHelper frame (Ref_path ref) in
         new_HelperInvocationReference path EvaluatedParamsAndHash_empty
    else Ref_evaluate ref frame in
  createContentMorph InsertionMorph (ContentOptions content trustingMorph).

Definition Inline_evaluate (path : list InternedString) (trustingMorph : bool)
           (args : ParamsAndHash) (frame : Frame) : BuilderCall :=
  let helper := lookupHelper frame path in
  let content := new_HelperInvocationReference helper (ParamsAndHash_evaluate frame args) in
  createContentMorph HelperMorph (ContentOptions content trustingMorph).

Definition DynamicProp_evaluate (name : string) (value : Expression) (frame : Frame)
  : BuilderCall :=
  createMorph SetPropertyMorph (SetPropertyOptions name value).

Definition DynamicAttr_evaluate (name : InternedString) (_value : Expression)
           (namespace : option InternedString) (frame : Frame) : BuilderCall :=
  let value := Expression_evaluate frame _value in
  createMorph AttrMorph (AttrOptions name value namespace).

Definition Component_evaluate (ref : Ref) (hash : option Hash) (templates : Templates)
           (frame : Frame) : result BuilderCall :=
  let path := Ref_path ref in
  match getComponentDefinition frame path (Component ref hash templates) with
  | Some definition =>
      Ok (createContentMorph ComponentMorph
            (ComponentOptions definition hash (Templates_default templates)))
  | None =>
      if hasHelper frame path then
        let helper := lookupHelper frame path in
        match hash with
        | None => Throw (TypeError "null has no evaluate()")
        | Some h =>
            let args := ParamsAndHash_evaluate frame (mkParamsAndHash Params_empty h) in
            Ok (createContentMorph BlockHelperMorph
                  (BlockHelperOptions helper args templates))
        end
      else
        Ok (createContentMorph FallbackMorph
              (FallbackOptions path hash (Templates_default templates)))
  end.

Definition StaticAttr_evaluate (name : InternedString) (value : JsVal)
           (namespace : option InternedString) : BuilderCall :=
  if truthy namespace
  then match namespace with
       | Some ns => setAttributeNS name value ns
       | None => setAttribute name value
       end
  else setAttribute name value.

Definition Statement_evaluate (statement : Statement) (frame : Frame)
  : result BuilderCall :=
  match Statement_node statement with
  | Block path args templates => Ok (Block_evaluate path args templates frame)
  | Inline path trustingMorph args => Ok (Inline_evaluate path trustingMorph args frame)
  | Unknown ref trustingMorph => Ok (Unknown_evaluate ref trustingMorph frame)
  | DynamicAttr name value namespace => Ok (DynamicAttr_evaluate name value namespace frame)
  | DynamicProp name value => Ok (DynamicProp_evaluate name value frame)
  | Component path hash templates => Component_evaluate path hash templates frame
  | Text content => Ok (appendText content)
  | Comment value => Ok (appendComment value)
  | OpenElement tag => Ok (openElement (Some tag))
  | CloseElement => Ok closeElement
  | StaticAttr name value namespace => Ok (StaticAttr_evaluate name value namespace)
  | Foreign _ type _ => Ok (evaluateForeign type)
  end.

(** Modelled from the spec: [ElementStack.appendStatement], the single
    dispatch entry of the builder: the statement is evaluated against the
    stack and the frame.  Only the call the statement issues is accounted
    for; what the builder then does with the node it created is outside
    this file. *)
Definition appendStatement (stack : ElementStack) (statement : Statement)
           (frame : Frame) : result ElementStack :=
  c <- Statement_evaluate statement frame ;;
  Ok (ElementStack_call stack c).

(** [statements.forEach(statement => stack.appendStatement(statement, frame))] *)
Fixpoint appendStatements (stack : ElementStack) (statements : list Statement)
         (frame : Frame) : result ElementStack :=
  match statements with
  | [] => Ok stack
  | statement :: rest =>
      stack' <- appendStatement stack statement frame ;;
      appendStatements stack' rest frame
  end.

(* ------------------------------------------------------------------ *)
(** ** [FallbackMorph] *)

(** The fields [init] sets; [frame] is the one the node was created with.
    The [element] handle that [append] stores is a DOM node and is left
    out. *)
Record FallbackMorphState : Type := mkFallback {
  fallback_tag : option InternedString;
  fallback_template : option Template;
  fallback_attrs : list Statement;
  fallback_frame : Frame
}.

Section FallbackInit.
Variable w : World.
Variable frame : Frame.

(** [values.forEach((val, i) => { let key = keys[i]; ... attrs.push(...) })].
    A value past the end of [keys] reads [undefined] for its key, which
    the DOM prints as the attribute name [undefined]. *)
Fixpoint FallbackMorph_init_loop (keys : list InternedString)
         (values : list Expression) (i : nat) (attrs : list Statement)
  : result (list Statement) :=
  match values with
  | [] => Ok attrs
  | val :: rest =>
      let key := match js_index keys i with Some k => k | None => "undefined" end in
      if Expression_isStatic val then
        v <- Reference_value w (Expression_evaluate frame val) ;;
        FallbackMorph_init_loop keys rest (S i) (attrs ++ [StaticAttr_build key v None])
      else
        FallbackMorph_init_loop keys rest (S i) (attrs ++ [DynamicAttr_build key val None])
  end.

(** [init({ path, hash, template })]; destructuring a [null] hash is a
    [TypeError]. *)
Definition FallbackMorph_init (path : list InternedString) (hash : option Hash)
           (template : option Template) : result FallbackMorphState :=
  let tag := js_index path 0 in
  match hash with
  | None => Throw (TypeError "cannot destructure null")
  | Some (mkHash keys values) =>
      attrs <- FallbackMorph_init_loop keys values 0 [] ;;
      Ok (mkFallback tag template attrs frame)
  end.
End FallbackInit.

Section FallbackAppend.
(** [append(stack)] of the [SimpleTemplateMorph] that [createContentMorph]
    returns.  The class is in ./morph, not in this file: the method is given
    the template and the frame the node was created with and the stack, and
    returns the stack with the output of the template, or throws. *)
Variable SimpleTemplateMorph_append :
  option Template -> Frame -> ElementStack -> result ElementStack.

(** [append(stack)]: open the element, apply the attributes, unless the
    template is empty create a [SimpleTemplateMorph] for it and call its
    [append] on the stack, close the element.  [template.isEmpty] on a
    [null] template is a [TypeError]. *)
Definition FallbackMorph_append (m : FallbackMorphState) (stack : ElementStack)
  : result ElementStack :=
  let stack1 := ElementStack_call stack (openElement (fallback_tag m)) in
  stack2 <- appendStatements stack1 (fallback_attrs m) (fallback_frame m) ;;
  match fallback_template m with
  | None => Throw (TypeError "null has no isEmpty")
  | Some template =>
      stack3 <- (if negb (Template_isEmpty template)
                 then SimpleTemplateMorph_append
                        (Some template) (fallback_frame m)
                        (ElementStack_call stack2
                           (createContentMorph SimpleTemplateMorph
                              (SimpleTemplateOptions (Some template))))
                 else Ok stack2) ;;
      Ok (ElementStack_call stack3 closeElement)
  end.
End FallbackAppend.

(** [update() {}] *)
Definition FallbackMorph_update (m : FallbackMorphState) : FallbackMorphState := m.

(* ------------------------------------------------------------------ *)
(** ** Statement classes: [prettyPrint] *)

Definition PPString (s : string) : PrettyPrint := PPValue (JStr s).

Definition trust_operation (trustingMorph : bool) : string :=
  if trustingMorph then "append-html" else "append-text".

(** [{ namespace }] when the namespace is truthy, no hash otherwise. *)
Definition namespace_hash (namespace : option InternedString)
  : option (Dict PrettyPrint) :=
  if truthy namespace
  then match namespace with
       | Some ns => Some [("namespace", PPString ns)]
       | None => None
       end
  else None.

(** The [prettyPrint] method of the class of [n]; [None] when the object
    has no such method. *)
Definition StatementNode_prettyPrint (n : StatementNode)
  : option (result PrettyPrint) :=
  match n with
  | Block path args templates =>
      Some (ph <- ParamsAndHash_prettyPrint args ;;
            let block := PP "expr" (join "." path) (Some (fst ph)) (Some (snd ph)) None in
            Ok (PP "block" "block" (Some [block]) None
                   (Some (Templates_prettyPrint templates))))
  | Unknown ref trustingMorph =>
      let get := PP "expr" "unknown" (Some [PPString (Ref_prettyPrint ref)]) None None in
      Some (Ok (PP "append" (trust_operation trustingMorph) (Some [get]) None None))
  | Inline path trustingMorph args =>
      Some (ph <- ParamsAndHash_prettyPrint args ;;
            let helper := PP "expr" (join "." path) (Some (fst ph)) (Some (snd ph)) None in
            Ok (PP "append" (trust_operation trustingMorph) (Some [helper]) None None))
  | DynamicProp name value =>
      Some (v <- Expression_prettyPrint value ;;
            Ok (PP "attr" "prop" (Some [PPString name; v]) None None))
  | DynamicAttr name value namespace =>
      Some (v <- Expression_prettyPrint value ;;
            Ok (PP "attr" "attr" (Some [PPString name; v]) (namespace_hash namespace) None))
  | Component path hash templates =>
      Some (match hash with
            | None => Throw (TypeError "null has no prettyPrint()")
            | Some h =>
                d <- Hash_prettyPrint h ;;
                Ok (PP "block" "component" (Some [PPString (Ref_prettyPrint path)])
                       (Some d) (Some (Templates_prettyPrint templates)))
            end)
  | Text content =>
      Some (Ok (PP "append" "append-text" (Some [PPString content]) None None))
  | Comment value =>
      Some (Ok (PP "append" "append-comment" (Some [PPString value]) None None))
  | OpenElement tag =>
      Some (Ok (PP "element" "open-element" (Some [PPString tag]) None None))
  | CloseElement =>
      Some (Ok (PP "element" "close-element" None None None))
  | StaticAttr name value namespace =>
      Some (Ok (PP "attr" "attr" (Some [PPString name; PPValue value])
                   (namespace_hash namespace) None))
  | Foreign _ _ _ => None
  end.

Definition StatementNode_className (n : StatementNode) : string :=
  match n with
  | Block _ _ _ => "Block"
  | Inline _ _ _ => "Inline"
  | Unknown _ _ => "Unknown"
  | DynamicAttr _ _ _ => "DynamicAttr"
  | DynamicProp _ _ => "DynamicProp"
  | Component _ _ _ => "Component"
  | Text _ => "Text"
  | Comment _ => "Comment"
  | OpenElement _ => "OpenElement"
  | CloseElement => "CloseElement"
  | StaticAttr _ _ _ => "StaticAttr"
  | Foreign className _ _ => className
  end.

(* ------------------------------------------------------------------ *)
(** ** [Template] *)

(** The argument of the constructor; a field that is missing, [null] or
    [undefined] is [None]. *)
Record TemplateOptions : Type := mkOptions {
  o_meta : option (Dict JsVal);
  o_root : option RootId;
  o_position : option nat;
  o_locals : option (list InternedString);
  o_statements : option (list Statement);
  o_spec : option TemplateSpec;
  o_isEmpty : option bool
}.

Definition or_default {A : Type} (x : option A) (d : A) : A :=
  match x with Some a => a | None => d end.

Definition new_Template (o : TemplateOptions) : Template :=
  mkTemplate (or_default (o_meta o) [])
             (o_root o)
             (o_position o)
             (match o_locals o with Some locals => List.length locals | None => 0 end)
             (or_default (o_statements o) EMPTY_ARRAY)
             (or_default (o_locals o) EMPTY_ARRAY)
             (o_spec o)
             (or_default (o_isEmpty o) false).

(** The loop of [Template.fromSpec]; [templates] holds the entries of the
    shared array filled so far, which is what a statement decoded at step
    [i] can find in it. *)
Fixpoint Template_fromSpec_loop (root : RootId) (specs : list TemplateSpec) (i : nat)
         (templates : list Template) : result (list Template) :=
  match specs with
  | [] => Ok templates
  | spec :: rest =>
      statements <- buildStatements (spec_statements spec) templates ;;
      let template :=
        new_Template
          (mkOptions (spec_meta spec) (Some root) (Some i) (spec_locals spec)
                     (Some statements) (Some spec)
                     (Some (Nat.eqb (List.length (spec_statements spec)) 0))) in
      Template_fromSpec_loop root rest (S i) (templates ++ [template])
  end.

(** [Template.fromSpec(specs)]: the new array is stored and the template at
    [templates.length - 1] returned ([undefined] for an empty [specs]). *)
Definition Template_fromSpec (store : Store) (specs : list TemplateSpec)
  : result (Store * option Template) :=
  templates <- Template_fromSpec_loop (List.length store) specs 0 [] ;;
  Ok (store ++ [templates],
      match templates with
      | [] => None
      | _ => js_index templates (List.length templates - 1)
      end).

Definition Template_fromStatements (statements : list Statement) : Template :=
  new_Template
    (mkOptions None None None None (Some statements) None
               (Some (Nat.eqb (List.length statements) 0))).

(** [clone()]: [statements.slice()] copies the array of statements. *)
Definition Template_clone (t : Template) : Template :=
  new_Template
    (mkOptions (Some (Template_meta t)) (Template_root t) (Template_position t)
               (Some (Template_locals t)) (Some (Template_statements t))
               (Template_spec t) (Some (Template_isEmpty t))).

(** The local function [pretty] of [Template.prettyPrint]. *)
Definition pretty (obj : Statement) : result PrettyPrint :=
  match StatementNode_prettyPrint (Statement_node obj) with
  | Some dump => dump
  | None =>
      Throw (Error ("Cannot pretty print "
                      ++ StatementNode_className (Statement_node obj))%string)
  end.


(** [evaluateWithStack(stack, frame)]; the stack is returned with the
    result so that the calls it received can be read. *)
Definition Template_evaluateWithStack (t : Template) (stack : ElementStack)
           (frame : Frame) : result (RenderResult * ElementStack) :=
  stack' <- appendStatements stack (Template_statements t) frame ;;
  let morphs := morphList stack' in
  Ok (mkRenderResult morphs t, stack').

(** [evaluate(morph, options)]: a new stack at the insertion point of
    [morph], evaluated with the frame of [morph].  The parent node, the next
    sibling and the handler only place the output. *)
Definition Template_evaluate (t : Template) (frame : Frame)
  : result (RenderResult * ElementStack) :=
  let stack := new_ElementStack in
  Template_evaluateWithStack t stack frame.

(* ------------------------------------------------------------------ *)
(** ** [TemplateBuilder] *)

Record TemplateBuilder : Type := mkBuilder {
  builder_statements : list Statement
}.

Definition new_TemplateBuilder : TemplateBuilder := mkBuilder [].

Definition TemplateBuilder_template (b : TemplateBuilder) : Template :=
  Template_fromStatements (builder_statements b).

(** The two methods of the class body that stay as declared. *)
Definition TemplateBuilder_specExpr (spec : ExpressionSexp) : result Expression :=
  buildExpression spec.

Definition TemplateBuilder_params (params : Params) (hash : Hash) : ParamsAndHash :=
  mkParamsAndHash params hash.

(** The last statement of the file,
    [TemplateBuilder.prototype[key] = function(...args) { this.statements.push(builders[key](...args)); }]
    for every key of [builders], puts under each statement name a method
    that pushes what the [build] of the class returns on the same
    arguments.  The names [openElement], [closeElement], [staticAttr],
    [dynamicAttr] and [inline] are among the keys: the bodies the class
    declares under these names are replaced when the file is loaded and
    never run, and the methods below are the ones a call reaches. *)
Definition TemplateBuilder_push (b : TemplateBuilder) (statement : Statement)
  : TemplateBuilder :=
  mkBuilder (builder_statements b ++ [statement]).

Definition TemplateBuilder_prototype_openElement (b : TemplateBuilder) (tag : string)
  : TemplateBuilder :=
  TemplateBuilder_push b (OpenElement_build tag).

Definition TemplateBuilder_prototype_closeElement (b : TemplateBuilder)
  : TemplateBuilder :=
  TemplateBuilder_push b CloseElement_build.

Definition TemplateBuilder_prototype_staticAttr (b : TemplateBuilder) (name : string)
           (value : JsVal) (namespace : option string) : TemplateBuilder :=
  TemplateBuilder_push b (StaticAttr_build name value namespace).

Definition TemplateBuilder_prototype_dynamicAttr (b : TemplateBuilder) (key : string)
           (value : Expression) (namespace : option string) : TemplateBuilder :=
  TemplateBuilder_push b (DynamicAttr_build key value namespace).

Definition TemplateBuilder_prototype_inline (b : TemplateBuilder) (path : string)
           (args : ParamsAndHash) (trust : bool) : TemplateBuilder :=
  TemplateBuilder_push b (Inline_build path args trust).

Definition TemplateBuilder_prototype_text (b : TemplateBuilder) (content : string)
  : TemplateBuilder :=
  TemplateBuilder_push b (Text_build content).

(* ------------------------------------------------------------------ *)
(** ** Vocabulary of the properties and example inputs *)

(** A frame whose only helper is [name] and whose only component is
    [x-card]; scope variables are their own root references. *)
Definition example_frame : Frame :=
  mkFrame (fun name => RootReference name)
          (fun path => match path with
                       | [p] => String.eqb p "name"
                       | _ => false
                       end)
          (fun path => ConstReference (JFun 0))
          (fun path _ => match path with
                         | [p] => if String.eqb p "x-card"
                                  then Some (mkDefinition 0) else None
                         | _ => None
                         end).

Definition example_world : World :=
  Build_World (fun _ => JStr "value") (fun _ _ => JUndefined)
              (fun _ _ _ => JStr "helped") (fun _ => "function () {}")
              (fun _ => "1e+21").

(** A template with one text statement, built without the wire. *)
Definition example_body : Template :=
  Template_fromStatements [Text_build "body"].

Definition example_specs : list TemplateSpec :=
  [ mkSpec [] None None;
    mkSpec [SInline ["name"] None None false;
            SText "hello";
            SBlock ["if"] (Some [XGet ["ok"]]) None (Some 0) None]
           (Some ["item"]) None ].

(** What [init] pushes for the value at index [i]. *)
Definition fallback_attr (w : World) (frame : Frame) (keys : list InternedString)
           (i : nat) (val : Expression) (attr : Statement) : Prop :=
  let key := match js_index keys i with Some k => k | None => "undefined" end in
  (Expression_isStatic val = true ->
   exists v, Reference_value w (Expression_evaluate frame val) = Ok v
             /\ attr = mkStatement (StaticAttr key v None) false false)
  /\ (Expression_isStatic val = false ->
      attr = mkStatement (DynamicAttr key val None) false false).

(** Boundary marking: the front marker is on the first
    statement when its type is a candidate and on no other statement, the
    back marker likewise on the last. *)
Definition boundaries_marked (statements : list Statement) : Prop :=
  forall i s,
    nth_error statements i = Some s ->
    frontBoundary s = Nat.eqb i 0 && BOUNDARY_CANDIDATES (Statement_type s)
    /\ backBoundary s
       = Nat.eqb i (List.length statements - 1) && BOUNDARY_CANDIDATES (Statement_type s).

(** The template decoded from [spec] at index [j] of the array
    [templates]: its statements are built against the entries before it. *)
Definition decoded_at (root : RootId) (templates : list Template) (j : nat)
           (spec : TemplateSpec) (t : Template) : Prop :=
  exists statements,
    buildStatements (spec_statements spec) (firstn j templates) = Ok statements
    /\ t = new_Template
             (mkOptions (spec_meta spec) (Some root) (Some j) (spec_locals spec)
                        (Some statements) (Some spec)
                        (Some (Nat.eqb (List.length (spec_statements spec)) 0))).

(** A property of every element of a parameter array, of every value of a
    hash array. *)
Definition all_params (P : ExpressionSexp -> Prop) (params : ParamsSexp) : Prop :=
  match params with
  | None => True
  | Some l => Forall P l
  end.

Definition all_pairs (P : ExpressionSexp -> Prop) (hash : HashSexp) : Prop :=
  match hash with
  | None => True
  | Some l => Forall (fun kv => P (snd kv)) l
  end.

(** The expression has a dump. *)
Definition has_dump (e : Expression) : Prop :=
  exists d, Expression_prettyPrint e = Ok d.

(** The character occurs in the string. *)
Fixpoint has_char (c : ascii) (s : string) : bool :=
  match s with
  | EmptyString => false
  | String a rest => Ascii.eqb a c || has_char c rest
  end.

(** The tags of an expression tuple, and of the tuples inside it, are keys
    of [ExpressionNodes]. *)
Fixpoint ExpressionSexp_known (s : ExpressionSexp) : bool :=
  match s with
  | XLiteral _ => true
  | XGet _ => true
  | XHelper _ params hash =>
      match params with
      | None => true
      | Some l => forallb ExpressionSexp_known l
      end
      && match hash with
         | None => true
         | Some l => forallb (fun kv => match kv with
                                        | (_, v) => ExpressionSexp_known v
                                        end) l
         end
  | XConcat params =>
      match params with
      | None => true
      | Some l => forallb ExpressionSexp_known l
      end
  | XOther _ => false
  end.

Definition ParamsSexp_known (params : ParamsSexp) : bool :=
  match params with
  | None => true
  | Some l => forallb ExpressionSexp_known l
  end.

Definition HashSexp_known (hash : HashSexp) : bool :=
  match hash with
  | None => true
  | Some l => forallb (fun kv => match kv with
                                 | (_, v) => ExpressionSexp_known v
                                 end) l
  end.

(** The tag of a statement tuple is a key of [StatementNodes] and the
    expression tuples in it have known tags. *)
Definition StatementSexp_known (s : StatementSexp) : bool :=
  match s with
  | SBlock _ params hash _ _ => ParamsSexp_known params && HashSexp_known hash
  | SInline _ params hash _ => ParamsSexp_known params && HashSexp_known hash
  | SUnknown _ _ => true
  | SDynamicAttr _ value _ => ExpressionSexp_known value
  | SDynamicProp _ value _ => ExpressionSexp_known value
  | SComponent _ attrs _ _ => HashSexp_known attrs
  | SText _ | SComment _ | SOpenElement _ | SCloseElement | SStaticAttr _ _ _ => true
  | SOther _ => false
  end.


(** The statement is an object of one of the classes of the file. *)
Definition is_Foreign (s : Statement) : bool :=
  match Statement_node s with
  | Foreign _ _ _ => true
  | _ => false
  end.

Definition Statement_isStatic (s : Statement) : bool :=
  StatementNode_isStatic (Statement_node s).

(** The sub-template indices of a block-shaped tuple. *)
Definition sexp_templateIds (s : StatementSexp) : option (option nat * option nat) :=
  match s with
  | SBlock _ _ _ templateId inverseId => Some (templateId, inverseId)
  | SComponent _ _ templateId inverseId => Some (templateId, inverseId)
  | _ => None
  end.

(** The [Templates] pair of a block-shaped statement. *)
Definition Statement_templates (s : Statement) : option Templates :=
  match Statement_node s with
  | Block _ _ templates => Some templates
  | Component _ _ templates => Some templates
  | _ => None
  end.

(** What an index of the wire finds in the sibling array when the template
    at index [j] is being decoded. *)
Definition resolve_at (j : nat) (root : list Template) (id : option nat)
  : option Template :=
  match id with
  | None => None
  | Some k => if Nat.ltb k j then nth_error root k else None
  end.

(** The [type] field of the class that [StatementNodes] has under a tag. *)
Definition tag_type (tag : string) : string :=
  if String.eqb tag "dynamicAttr" then "dynamic-attr"
  else if String.eqb tag "dynamicProp" then "dynamic-prop"
  else if String.eqb tag "openElement" then "open-element"
  else if String.eqb tag "closeElement" then "close-element"
  else if String.eqb tag "staticAttr" then "static-attr"
  else tag.

(** The tags whose class extends [StaticExpression]. *)
Definition tag_static (tag : string) : bool :=
  existsb (String.eqb tag)
          ["text"; "comment"; "openElement"; "closeElement"; "staticAttr"].

(** The index the dump shows for a sub-template index of the wire, in the
    template at index [j]. *)
Definition printed_index (j : nat) (id : option nat) : option nat :=
  match id with
  | None => None
  | Some k => if Nat.ltb k j then Some k else None
  end.

(* ================================================================== *)
(** * Properties *)

(* ------------------------------------------------------------------ *)
(** ** The result monad and [mapM] *)

Lemma bind_Ok_inv {A B : Type} (c : result A) (k : A -> result B) (b : B) :
  bind c k = Ok b -> exists a, c = Ok a /\ k a = Ok b.
Proof.
  destruct c as [a | e]; simpl; intro H.
  - exists a. split; [reflexivity | exact H].
  - discriminate H.
Qed.

Ltac bind_inv H :=
  let a := fresh "a" in
  let Ha := fresh "Ha" in
  apply bind_Ok_inv in H; destruct H as [a [Ha H]].

Lemma mapM_cons {A B : Type} (f : A -> result B) (x : A) (l : list A) :
  mapM f (x :: l) = (y <- f x ;; ys <- mapM f l ;; Ok (y :: ys)).
Proof. reflexivity. Qed.

Lemma mapM_Forall2 {A B : Type} (f : A -> result B) (l : list A) (out : list B) :
  mapM f l = Ok out <-> Forall2 (fun x y => f x = Ok y) l out.
Proof.
  revert out. induction l as [| x l IH]; intro out.
  - simpl. split; intro H.
    + inversion H. constructor.
    + inversion H. reflexivity.
  - rewrite mapM_cons. split; intro H.
    + bind_inv H. bind_inv H. inversion H; subst.
      constructor; [assumption | apply IH; assumption].
    + inversion H as [| ? y ? ys Hx Hl]; subst.
      rewrite Hx. simpl. apply IH in Hl. rewrite Hl. reflexivity.
Qed.

Lemma mapM_length {A B : Type} (f : A -> result B) (l : list A) (out : list B) :
  mapM f l = Ok out -> List.length out = List.length l.
Proof.
  intro H. apply mapM_Forall2 in H.
  symmetry. eapply Forall2_length; eassumption.
Qed.

Lemma mapM_nth_error {A B : Type} (f : A -> result B) (l : list A) (out : list B) :
  mapM f l = Ok out ->
  forall i y, nth_error out i = Some y ->
  exists x, nth_error l i = Some x /\ f x = Ok y.
Proof.
  intro H. apply mapM_Forall2 in H.
  induction H as [| x y l out Hxy Hl IH]; intros i z Hz.
  - destruct i; discriminate Hz.
  - destruct i as [| i]; simpl in *.
    + inversion Hz; subst. exists x. split; [reflexivity | assumption].
    + apply IH. assumption.
Qed.

(** [mapM] stops at the first element whose callback throws. *)
Lemma mapM_Throw_In {A B : Type} (f : A -> result B) (l : list A) (x : A) (e : JsError) :
  In x l -> f x = Throw e -> exists e', mapM f l = Throw e'.
Proof.
  induction l as [| y l IH]; intros Hin Hx.
  - destruct Hin.
  - rewrite mapM_cons. destruct Hin as [-> | Hin].
    + rewrite Hx. simpl. eexists. reflexivity.
    + destruct (f y) as [b | e0]; simpl.
      * destruct (IH Hin Hx) as [e' He']. rewrite He'. simpl. eexists. reflexivity.
      * eexists. reflexivity.
Qed.

Lemma mapM_all_Ok {A B : Type} (f : A -> result B) (l : list A) :
  (forall x, In x l -> exists y, f x = Ok y) -> exists out, mapM f l = Ok out.
Proof.
  induction l as [| x l IH]; intro H.
  - exists []. reflexivity.
  - rewrite mapM_cons.
    destruct (H x (or_introl eq_refl)) as [y Hy]. rewrite Hy. simpl.
    destruct IH as [ys Hys].
    + intros z Hz. apply H. right. assumption.
    + rewrite Hys. simpl. eexists. reflexivity.
Qed.

(* ------------------------------------------------------------------ *)
(** ** [Templates.evaluate] *)

(** C8.  Calling [evaluate] on a [Templates] pairing throws an [Error],
    whatever the pair holds and whatever frame is supplied; no reference is
    ever returned. *)
Theorem Templates_evaluate_always_throws :
  forall (t : Templates) (frame : Frame),
    Templates_evaluate t frame
      = Throw (Error "unimplemented evaluate for ExpressionSyntax")
    /\ is_ok (Templates_evaluate t frame) = false.
Proof.
  intros t frame. split; reflexivity.
Qed.

(* ------------------------------------------------------------------ *)
(** ** [Unknown.evaluate] *)

Lemma ParamsAndHash_evaluate_empty (frame : Frame) :
  ParamsAndHash_evaluate frame ParamsAndHash_empty = EvaluatedParamsAndHash_empty.
Proof. reflexivity. Qed.

Lemma EvaluatedParamsAndHash_empty_eq :
  EvaluatedParamsAndHash_empty
  = EvaluatedParamsAndHash (EvaluatedParams [] []) (EvaluatedHash [] [] [])
                           [EvaluatedParams [] []].
Proof. reflexivity. Qed.

(** C6.  [Unknown.evaluate] asks the frame first whether the path names a
    helper.  If it does, the content is the invocation of that helper on the
    empty arguments (no parameter, no hash entry); if not, the content is
    the lookup of the path in the scope: the base of the first segment, then
    one [get] per further segment.  Either way the statement issues one
    [createContentMorph(InsertionMorph, { content, trustingMorph })] with
    its own trust flag, and so adds exactly one render node to the stack. *)
Theorem Unknown_evaluate_helper_first :
  forall (statement : Statement) (ref : Ref) (trustingMorph : bool) (frame : Frame),
    Statement_node statement = Unknown ref trustingMorph ->
    exists content : Reference,
      Statement_evaluate statement frame
        = Ok (createContentMorph InsertionMorph (ContentOptions content trustingMorph))
      /\ (hasHelper frame (Ref_path ref) = true ->
          content = HelperInvocationReference
                      (lookupHelper frame (Ref_path ref))
                      EvaluatedParamsAndHash_empty
                      [lookupHelper frame (Ref_path ref); EvaluatedParamsAndHash_empty]
          /\ EvaluatedParamsAndHash_empty
             = EvaluatedParamsAndHash (EvaluatedParams [] []) (EvaluatedHash [] [] [])
                                      [EvaluatedParams [] []])
      /\ (hasHelper frame (Ref_path ref) = false ->
          content = fold_left PropertyReference (tl (Ref_path ref))
                              (getBase frame (hd_error (Ref_path ref))))
      /\ (forall stack : ElementStack,
             exists stack',
               appendStatement stack statement frame = Ok stack'
               /\ morphs stack'
                  = morphs stack ++ [(InsertionMorph, ContentOptions content trustingMorph)]).
Proof.
  intros statement ref trustingMorph frame Hnode.
  unfold Statement_evaluate, appendStatement, Statement_evaluate. rewrite Hnode.
  unfold Unknown_evaluate, Ref_isHelper, Ref_path.
  destruct (hasHelper frame (parts ref)) eqn:Hhelper.
  - eexists. split; [reflexivity |]. split; [| split].
    + intros _. split; reflexivity.
    + intro H. discriminate H.
    + intro stack. eexists. split; reflexivity.
  - eexists. split; [reflexivity |]. split; [| split].
    + intro H. discriminate H.
    + intros _. unfold Ref_evaluate, js_index.
      destruct (parts ref); reflexivity.
    + intro stack. eexists. split; reflexivity.
Qed.

Lemma Unknown_evaluate_helper_first_witness :
  Statement_node (Unknown_build "user.name" true)
    = Unknown (Ref_build "user.name") true
  /\ Statement_evaluate (Unknown_build "user.name" true) example_frame
     = Ok (createContentMorph InsertionMorph
             (ContentOptions
                (PropertyReference (RootReference (Some "user")) "name") true)).
Proof.
  split; [reflexivity |].
  destruct (Unknown_evaluate_helper_first (Unknown_build "user.name" true)
              (Ref_build "user.name") true example_frame eq_refl) as [content [Hcall [_ [Hvalue _]]]].
  rewrite Hcall, (Hvalue eq_refl). reflexivity.
Defined.

(* ------------------------------------------------------------------ *)
(** ** [Component.evaluate] and [FallbackMorph.init] *)

Section FallbackInitFacts.
Variable w : World.
Variable frame : Frame.

Lemma static_value_pulls (val : Expression) :
  Expression_isStatic val = true ->
  exists v, val = Value v
            /\ Reference_value w (Expression_evaluate frame val) = Ok v.
Proof.
  destruct val; simpl; intro H; try discriminate H.
  eexists. split; reflexivity.
Qed.

Lemma FallbackMorph_init_loop_spec (keys : list InternedString) :
  forall (values : list Expression) (i : nat) (attrs : list Statement),
  exists added,
    FallbackMorph_init_loop w frame keys values i attrs = Ok (attrs ++ added)
    /\ List.length added = List.length values
    /\ forall j val, nth_error values j = Some val ->
         exists attr, nth_error added j = Some attr
                      /\ fallback_attr w frame keys (i + j) val attr.
Proof.
  induction values as [| val rest IH]; intros i attrs.
  - exists []. simpl. rewrite app_nil_r. split; [reflexivity |].
    split; [reflexivity |]. intros j v Hj. destruct j; discriminate Hj.
  - simpl. destruct (Expression_isStatic val) eqn:Hstatic.
    + destruct (static_value_pulls val Hstatic) as [v [Hval Hpull]].
      rewrite Hpull. simpl.
      edestruct (IH (S i)) as [added [Hloop [Hlen Hnth]]].
      eexists (_ :: added). split; [| split].
      { etransitivity; [exact Hloop |]. rewrite <- app_assoc. reflexivity. }
      { simpl. rewrite Hlen. reflexivity. }
      intros [| j] x Hx; simpl in Hx.
      * inversion Hx; subst x. eexists. split; [reflexivity |].
        rewrite Nat.add_0_r. split.
        -- intros _. exists v. split; [assumption | reflexivity].
        -- intro H. rewrite Hstatic in H. discriminate H.
      * destruct (Hnth j x Hx) as [attr [Hattr Hspec]].
        exists attr. split; [exact Hattr |].
        replace (i + S j) with (S i + j) by lia. exact Hspec.
    + edestruct (IH (S i)) as [added [Hloop [Hlen Hnth]]].
      eexists (_ :: added). split; [| split].
      { etransitivity; [exact Hloop |]. rewrite <- app_assoc. reflexivity. }
      { simpl. rewrite Hlen. reflexivity. }
      intros [| j] x Hx; simpl in Hx.
      * inversion Hx; subst x. eexists. split; [reflexivity |].
        rewrite Nat.add_0_r. split.
        -- intro H. rewrite Hstatic in H. discriminate H.
        -- intros _. reflexivity.
      * destruct (Hnth j x Hx) as [attr [Hattr Hspec]].
        exists attr. split; [exact Hattr |].
        replace (i + S j) with (S i + j) by lia. exact Hspec.
Qed.

(** [init] returns for every hash that is not [null]. *)
Lemma FallbackMorph_init_Ok (path : list InternedString) (hash : Hash)
      (template : option Template) :
  exists attrs,
    FallbackMorph_init w frame path (Some hash) template
      = Ok (mkFallback (js_index path 0) template attrs frame)
    /\ List.length attrs = List.length (Hash_values hash)
    /\ forall j val, nth_error (Hash_values hash) j = Some val ->
         exists attr, nth_error attrs j = Some attr
                      /\ fallback_attr w frame (Hash_keys hash) j val attr.
Proof.
  destruct hash as [keys values]. unfold FallbackMorph_init.
  destruct (FallbackMorph_init_loop_spec keys values 0 [])
    as [added [Hloop [Hlen Hnth]]].
  rewrite Hloop. simpl. exists added. split; [reflexivity |].
  split; [exact Hlen |]. intros j val Hj. exact (Hnth j val Hj).
Qed.
End FallbackInitFacts.

(** The attributes [init] builds do not depend on the state of the world:
    only static expressions are pulled, and they are constants. *)
Lemma FallbackMorph_init_loop_world (w w' : World) (frame : Frame)
      (keys : list InternedString) :
  forall (values : list Expression) (i : nat) (attrs : list Statement),
    FallbackMorph_init_loop w frame keys values i attrs
    = FallbackMorph_init_loop w' frame keys values i attrs.
Proof.
  induction values as [| val rest IH]; intros i attrs; simpl.
  - reflexivity.
  - destruct val; simpl; apply IH.
Qed.




(** C7.  [FallbackMorph.init] turns the hash into the attribute list in one
    pass: the value at each index becomes a [StaticAttr] statement holding
    the key and the value pulled from it at that moment when its [isStatic]
    flag is set, and a [DynamicAttr] statement on the key and the expression
    itself otherwise, both without a namespace.  The list is the same
    whatever the state of the world, and [update] leaves the node as [init]
    made it, however often it runs. *)
Theorem FallbackMorph_init_bakes_static_attrs_once :
  forall (w : World) (frame : Frame) (path : list InternedString) (hash : Hash)
         (template : option Template),
    exists attrs : list Statement,
      FallbackMorph_init w frame path (Some hash) template
      = Ok (mkFallback (nth_error path 0) template attrs frame)
      /\ List.length attrs = List.length (Hash_values hash)
      /\ (forall i key val,
             nth_error (Hash_keys hash) i = Some key ->
             nth_error (Hash_values hash) i = Some val ->
             exists attr,
               nth_error attrs i = Some attr
               /\ (Expression_isStatic val = true ->
                   exists v,
                     Reference_value w (Expression_evaluate frame val) = Ok v
                     /\ attr = mkStatement (StaticAttr key v None) false false)
               /\ (Expression_isStatic val = false ->
                   attr = mkStatement (DynamicAttr key val None) false false))
      /\ (forall n : nat,
             Nat.iter n FallbackMorph_update
                      (mkFallback (nth_error path 0) template attrs frame)
             = mkFallback (nth_error path 0) template attrs frame)
      /\ (forall w' : World,
             FallbackMorph_init w' frame path (Some hash) template
             = Ok (mkFallback (nth_error path 0) template attrs frame)).
Proof.
  intros w frame path hash template.
  destruct (FallbackMorph_init_Ok w frame path hash template)
    as [attrs [Hinit [Hlen Hnth]]].
  exists attrs. split; [exact Hinit |].
  split; [exact Hlen |]. split; [| split].
  - intros i key val Hkey Hval.
    destruct (Hnth i val Hval) as [attr [Hattr Hspec]].
    exists attr. split; [exact Hattr |].
    unfold fallback_attr, js_index in Hspec. rewrite Hkey in Hspec. exact Hspec.
  - intro n. induction n as [| n IH].
    + reflexivity.
    + rewrite Nat.iter_succ, IH. reflexivity.
  - intro w'. etransitivity; [| exact Hinit]. destruct hash as [keys values].
    unfold FallbackMorph_init.
    rewrite (FallbackMorph_init_loop_world w' w frame keys values 0 []).
    reflexivity.
Qed.

Lemma FallbackMorph_init_bakes_static_attrs_once_witness :
  nth_error ["class"; "title"] 0 = Some "class"
  /\ nth_error [Value (JStr "card"); Get (mkRef ["heading"])] 0
     = Some (Value (JStr "card"))
  /\ nth_error ["class"; "title"] 1 = Some "title"
  /\ nth_error [Value (JStr "card"); Get (mkRef ["heading"])] 1
     = Some (Get (mkRef ["heading"]))
  /\ FallbackMorph_init example_world example_frame ["x-missing"]
       (Some (mkHash ["class"; "title"]
                     [Value (JStr "card"); Get (mkRef ["heading"])])) None
     = Ok (mkFallback (Some "x-missing") None
             [mkStatement (StaticAttr "class" (JStr "card") None) false false;
              mkStatement (DynamicAttr "title" (Get (mkRef ["heading"])) None)
                          false false]
             example_frame).
Proof.
  split; [reflexivity |]. split; [reflexivity |].
  split; [reflexivity |]. split; [reflexivity |].
  destruct (FallbackMorph_init_bakes_static_attrs_once
              example_world example_frame ["x-missing"]
              (mkHash ["class"; "title"]
                      [Value (JStr "card"); Get (mkRef ["heading"])]) None)
    as [attrs [Hinit [Hlen [Hattrs _]]]].
  destruct (Hattrs 0 "class" (Value (JStr "card")) eq_refl eq_refl)
    as [attr0 [Hattr0 [Hstatic _]]].
  destruct (Hstatic eq_refl) as [v [Hv Hbuilt0]].
  destruct (Hattrs 1 "title" (Get (mkRef ["heading"])) eq_refl eq_refl)
    as [attr1 [Hattr1 [_ Hdynamic]]].
  pose proof (Hdynamic eq_refl) as Hbuilt1.
  simpl in Hv. inversion Hv; subst v.
  destruct attrs as [| a0 [| a1 [| a2 rest]]]; try discriminate Hlen.
  simpl in Hattr0, Hattr1. inversion Hattr0; inversion Hattr1; subst.
  exact Hinit.
Defined.

(* ------------------------------------------------------------------ *)
(** ** [EvaluatedHash.at] *)

Lemma EvaluatedHash_some_first (values : list Reference) (key : InternedString) :
  forall (keys : list InternedString) (base i : nat),
    nth_error keys i = Some key ->
    (forall j, j < i -> nth_error keys j <> Some key) ->
    EvaluatedHash_some keys values key base = nth_error values (base + i).
Proof.
  induction keys as [| k rest IH]; intros base i Hi Hfirst.
  - destruct i; discriminate Hi.
  - simpl. destruct i as [| i].
    + simpl in Hi. inversion Hi; subst k.
      rewrite String.eqb_refl, Nat.add_0_r. reflexivity.
    + destruct (String.eqb k key) eqn:Hk.
      * apply String.eqb_eq in Hk. subst k.
        exfalso. apply (Hfirst 0); [lia | reflexivity].
      * simpl in Hi. rewrite (IH (S base) i Hi).
        -- f_equal. lia.
        -- intros j Hj. apply (Hfirst (S j)). lia.
Qed.

Lemma EvaluatedHash_some_missing (values : list Reference) (key : InternedString) :
  forall (keys : list InternedString) (base : nat),
    ~ In key keys -> EvaluatedHash_some keys values key base = None.
Proof.
  induction keys as [| k rest IH]; intros base Hnot; simpl.
  - reflexivity.
  - destruct (String.eqb k key) eqn:Hk.
    + apply String.eqb_eq in Hk. exfalso. apply Hnot. left. exact Hk.
    + apply IH. intro Hin. apply Hnot. right. exact Hin.
Qed.

(** C4.  [at(key)] goes through the keys in insertion order and returns the
    value reference stored at the first index whose key is the argument, so
    the first of two equal keys wins; a key that is not among the keys gives
    no reference.  For the hash built from [{ a: 1, b: 2 }] the reference at
    [a] pulls [1], the one at [b] pulls [2], and [c] has none. *)
Theorem EvaluatedHash_at_first_match :
  forall (values : list Reference) (keys : list InternedString)
         (sources : list Reference) (key : InternedString),
    (forall i,
        nth_error keys i = Some key ->
        (forall j, j < i -> nth_error keys j <> Some key) ->
        EvaluatedHash_at (EvaluatedHash values keys sources) key = nth_error values i)
    /\ (~ In key keys ->
        EvaluatedHash_at (EvaluatedHash values keys sources) key = None)
    /\ (forall (frame : Frame) (w : World),
           let h := Hash_evaluate frame
                      (Hash_build (Some [("a", Value (JNum 1)); ("b", Value (JNum 2))])) in
           (exists r, EvaluatedHash_at h "a" = Some r
                      /\ Reference_value w r = Ok (JNum 1))
           /\ (exists r, EvaluatedHash_at h "b" = Some r
                         /\ Reference_value w r = Ok (JNum 2))
           /\ EvaluatedHash_at h "c" = None).
Proof.
  intros values keys sources key. split; [| split].
  - intros i Hi Hfirst. simpl.
    rewrite (EvaluatedHash_some_first values key keys 0 i Hi Hfirst). reflexivity.
  - intro Hnot. simpl. apply EvaluatedHash_some_missing. exact Hnot.
  - intros frame w h. split; [| split].
    + eexists. split; reflexivity.
    + eexists. split; reflexivity.
    + reflexivity.
Qed.

(** With the key [k] twice, [at] answers with the first of its values. *)
Lemma EvaluatedHash_at_first_match_witness :
  nth_error ["k"; "other"; "k"] 0 = Some "k"
  /\ EvaluatedHash_at
       (Hash_evaluate example_frame
          (mkHash ["k"; "other"; "k"]
                  [Value (JNum 1); Value (JNum 2); Value (JNum 3)])) "k"
     = Some (ConstReference (JNum 1)).
Proof.
  split; [reflexivity |].
  destruct (EvaluatedHash_at_first_match
              [ConstReference (JNum 1); ConstReference (JNum 2); ConstReference (JNum 3)]
              ["k"; "other"; "k"]
              [ConstReference (JNum 1); ConstReference (JNum 2); ConstReference (JNum 3)]
              "k") as [Hfirst _].
  refine (Hfirst 0 eq_refl _).
  intros j Hj. exfalso. inversion Hj.
Defined.

(* ------------------------------------------------------------------ *)
(** ** Sources of the evaluated containers *)

Lemma addSources_spec (results : list Reference) :
  forall sources, addSources sources results = (results, sources ++ results).
Proof.
  induction results as [| r rest IH]; intro sources; simpl.
  - rewrite app_nil_r. reflexivity.
  - rewrite IH, <- app_assoc. reflexivity.
Qed.

(** [EvaluatedParams] and [EvaluatedHash] register every child. *)
Lemma EvaluatedParams_sources (frame : Frame) (params : list Expression) :
  Params_evaluate frame (mkParams params)
  = EvaluatedParams (map (Expression_evaluate frame) params)
                    (map (Expression_evaluate frame) params).
Proof.
  simpl. unfold new_EvaluatedParams. rewrite addSources_spec. reflexivity.
Qed.

Lemma EvaluatedHash_sources (frame : Frame) (keys : list InternedString)
      (values : list Expression) :
  Hash_evaluate frame (mkHash keys values)
  = EvaluatedHash (map (Expression_evaluate frame) values) keys
                  (map (Expression_evaluate frame) values).
Proof.
  simpl. unfold new_EvaluatedHash. rewrite addSources_spec. reflexivity.
Qed.

(** Pulling an [EvaluatedParamsAndHash] pulls both children again, whatever
    its sources are. *)
Lemma EvaluatedParamsAndHash_value (w : World) (paramsRef hashRef : Reference)
      (sources : list Reference) :
  Reference_value w (EvaluatedParamsAndHash paramsRef hashRef sources)
  = (p <- Reference_value w paramsRef ;;
     h <- Reference_value w hashRef ;;
     Ok (JObj [("params", p); ("hash", h)])).
Proof. reflexivity. Qed.

(** C5.  The constructor of [EvaluatedParamsAndHash] registers the
    evaluated parameters as a source and stores the evaluated hash without
    registering it: for every frame, parameter list and hash, the sources of
    the combinator are the parameters reference alone and the hash reference
    is not among them.  (A [HelperInvocationReference] registers both of its
    children.) *)
Theorem EvaluatedParamsAndHash_hash_not_registered :
  forall (frame : Frame) (params : Params) (hash : Hash),
    let combinator := ParamsAndHash_evaluate frame (mkParamsAndHash params hash) in
    combinator = EvaluatedParamsAndHash (Params_evaluate frame params)
                                        (Hash_evaluate frame hash)
                                        [Params_evaluate frame params]
    /\ Reference_sources combinator = [Params_evaluate frame params]
    /\ ~ In (Hash_evaluate frame hash) (Reference_sources combinator)
    /\ (forall helper,
           Reference_sources (new_HelperInvocationReference helper combinator)
           = [helper; combinator]).
Proof.
  intros frame params hash combinator.
  assert (Heq : combinator
                = EvaluatedParamsAndHash (Params_evaluate frame params)
                                         (Hash_evaluate frame hash)
                                         [Params_evaluate frame params])
    by reflexivity.
  split; [exact Heq |]. rewrite Heq. simpl.
  split; [reflexivity |]. split.
  - destruct params as [ps], hash as [keys values].
    rewrite EvaluatedParams_sources, EvaluatedHash_sources.
    intros [H | []]. discriminate H.
  - intro helper. reflexivity.
Qed.

(* ------------------------------------------------------------------ *)
(** ** Decoded expressions have a dump *)

Section ExpressionSexp_induction.
Variable P : ExpressionSexp -> Prop.
Hypothesis P_literal : forall v, P (XLiteral v).
Hypothesis P_get : forall parts, P (XGet parts).
Hypothesis P_helper : forall path params hash,
    all_params P params -> all_pairs P hash -> P (XHelper path params hash).
Hypothesis P_concat : forall params, all_params P params -> P (XConcat params).
Hypothesis P_other : forall tag, P (XOther tag).

Fixpoint ExpressionSexp_nested_ind (s : ExpressionSexp) : P s :=
  let params_ind (params : ParamsSexp) : all_params P params :=
    match params return all_params P params with
    | None => I
    | Some l =>
        (fix go (l : list ExpressionSexp) : Forall P l :=
           match l with
           | [] => Forall_nil P
           | x :: rest => Forall_cons x (ExpressionSexp_nested_ind x) (go rest)
           end) l
    end in
  match s with
  | XLiteral v => P_literal v
  | XGet parts => P_get parts
  | XHelper path params hash =>
      P_helper path params hash (params_ind params)
        (match hash return all_pairs P hash with
         | None => I
         | Some l =>
             (fix go (l : list (InternedString * ExpressionSexp))
                : Forall (fun kv => P (snd kv)) l :=
                match l with
                | [] => Forall_nil _
                | kv :: rest =>
                    Forall_cons kv
                      (match kv return P (snd kv) with
                       | (_, v) => ExpressionSexp_nested_ind v
                       end)
                      (go rest)
                end) l
         end)
  | XConcat params => P_concat params (params_ind params)
  | XOther tag => P_other tag
  end.
End ExpressionSexp_induction.

Lemma mapM_has_dump (l : list Expression) :
  Forall has_dump l -> exists ds, mapM Expression_prettyPrint l = Ok ds.
Proof.
  intro H. apply mapM_all_Ok. intros x Hx.
  rewrite Forall_forall in H. exact (H x Hx).
Qed.

(** The loop of [Hash.prettyPrint] returns when every key finds a dump at
    its index. *)
Lemma Hash_prettyPrint_loop_Ok (dumps : list (result PrettyPrint)) :
  forall (keys : list InternedString) (i : nat) (out : Dict PrettyPrint),
    (forall j, j < List.length keys ->
               exists d, nth_error dumps (i + j) = Some (Ok d)) ->
    exists out', Hash_prettyPrint_loop keys dumps i out = Ok out'.
Proof.
  induction keys as [| key rest IH]; intros i out H; simpl.
  - eexists. reflexivity.
  - destruct (H 0) as [d Hd]; [simpl; lia |].
    rewrite Nat.add_0_r in Hd. unfold js_index. rewrite Hd. simpl.
    apply IH. intros j Hj. replace (S i + j) with (i + S j) by lia.
    apply H. simpl. lia.
Qed.

(** [Hash.fromSpec] pushes one key and one value per pair. *)
Lemma Hash_fromSpec_loop_spec (build : ExpressionSexp -> result Expression) :
  forall (pairs : list (InternedString * ExpressionSexp))
         (keys : list InternedString) (values : list Expression) (h : Hash),
    Hash_fromSpec_loop build pairs keys values = Ok h ->
    exists built,
      h = mkHash (keys ++ map fst pairs) (values ++ built)
      /\ Forall2 (fun kv e => build (snd kv) = Ok e) pairs built.
Proof.
  induction pairs as [| [key expr] rest IH]; intros keys values h H; simpl in H.
  - inversion H; subst h. exists []. rewrite !app_nil_r.
    split; [reflexivity | constructor].
  - apply bind_Ok_inv in H. destruct H as [e [He H]].
    destruct (IH _ _ _ H) as [built [Hh Hall]].
    exists (e :: built). rewrite <- !app_assoc in Hh. simpl in Hh.
    split; [exact Hh |]. constructor; [exact He | exact Hall].
Qed.

(** Every hash the file builds pairs each key with a value. *)
Lemma Hash_fromSpec_lengths (rawPairs : HashSexp) (h : Hash) :
  Hash_fromSpec rawPairs = Ok h ->
  List.length (Hash_keys h) = List.length (Hash_values h).
Proof.
  unfold Hash_fromSpec, Hash_fromSpec_with. destruct rawPairs as [pairs |]; intro H.
  - destruct (Hash_fromSpec_loop_spec buildExpression pairs [] [] h H)
      as [built [Hh Hall]].
    subst h. simpl. rewrite length_map. eapply Forall2_length. exact Hall.
  - inversion H. reflexivity.
Qed.

Lemma Hash_build_lengths (hash : option (Dict Expression)) :
  List.length (Hash_keys (Hash_build hash)) = List.length (Hash_values (Hash_build hash)).
Proof.
  destruct hash as [d |]; [| reflexivity].
  unfold Hash_build. cbv zeta. simpl. rewrite !length_map. reflexivity.
Qed.

Section DecodedDumps.
Let decodes_with_dump (s : ExpressionSexp) : Prop :=
  forall e, buildExpression s = Ok e -> has_dump e.

Lemma decoded_list_has_dump (sexps : list ExpressionSexp) (exprs : list Expression) :
  Forall2 (fun s e => buildExpression s = Ok e) sexps exprs ->
  Forall decodes_with_dump sexps ->
  Forall has_dump exprs.
Proof.
  intro H. induction H as [| s e ss es Hse Hrest IH]; intro Hall.
  - constructor.
  - constructor.
    + exact (Forall_inv Hall e Hse).
    + apply IH. exact (Forall_inv_tail Hall).
Qed.

Lemma Params_fromSpec_has_dump (params : ParamsSexp) (p : Params) :
  all_params decodes_with_dump params ->
  Params_fromSpec_with buildExpression params = Ok p ->
  exists ds, Params_prettyPrint p = Ok ds.
Proof.
  intros Hall H. destruct params as [[| x l] |];
    unfold Params_fromSpec_with in H; cbv beta iota in H.
  - inversion H. eexists. reflexivity.
  - apply bind_Ok_inv in H. destruct H as [exprs [Hexprs H]].
    inversion H; subst p. simpl. apply mapM_has_dump.
    apply mapM_Forall2 in Hexprs. simpl in Hall.
    exact (decoded_list_has_dump _ _ Hexprs Hall).
  - inversion H. eexists. reflexivity.
Qed.

Lemma Hash_fromSpec_has_dump (hash : HashSexp) (h : Hash) :
  all_pairs decodes_with_dump hash ->
  Hash_fromSpec_with buildExpression hash = Ok h ->
  exists d, Hash_prettyPrint h = Ok d.
Proof.
  intros Hall H. destruct hash as [pairs |]; simpl in H.
  - destruct (Hash_fromSpec_loop_spec buildExpression pairs [] [] h H)
      as [built [Hh Hbuilt]].
    subst h. simpl. apply Hash_prettyPrint_loop_Ok.
    intros j Hj. simpl. rewrite length_map in Hj.
    simpl in Hall. clear H. revert j Hj Hall.
    induction Hbuilt as [| kv e rest es Hkv Hrest IH]; intros j Hj Hall.
    + simpl in Hj. lia.
    + destruct j as [| j]; simpl.
      * destruct (Forall_inv Hall e Hkv) as [d Hd]. exists d. rewrite Hd. reflexivity.
      * apply IH; [simpl in Hj; lia | exact (Forall_inv_tail Hall)].
  - inversion H. eexists. reflexivity.
Qed.

Lemma ParamsAndHash_fromSpec_has_dump (params : ParamsSexp) (hash : HashSexp)
      (a : ParamsAndHash) :
  all_params decodes_with_dump params ->
  all_pairs decodes_with_dump hash ->
  ParamsAndHash_fromSpec_with buildExpression params hash = Ok a ->
  exists d, ParamsAndHash_prettyPrint a = Ok d.
Proof.
  intros Hp Hh H. unfold ParamsAndHash_fromSpec_with in H.
  apply bind_Ok_inv in H. destruct H as [p [Hparams H]].
  apply bind_Ok_inv in H. destruct H as [h [Hhash H]].
  inversion H; subst a. simpl.
  destruct (Params_fromSpec_has_dump params p Hp Hparams) as [ds Hds].
  destruct (Hash_fromSpec_has_dump hash h Hh Hhash) as [d Hd].
  rewrite Hds, Hd. simpl. eexists. reflexivity.
Qed.

Lemma buildExpression_has_dump (s : ExpressionSexp) : decodes_with_dump s.
Proof.
  induction s using ExpressionSexp_nested_ind; intros e He; simpl in He.
  - inversion He. eexists. reflexivity.
  - inversion He. eexists. reflexivity.
  - apply bind_Ok_inv in He. destruct He as [a [Ha He]]. inversion He; subst e.
    destruct (ParamsAndHash_fromSpec_has_dump params hash a H H0 Ha) as [d Hd].
    unfold has_dump. simpl. rewrite Hd. simpl. eexists. reflexivity.
  - apply bind_Ok_inv in He. destruct He as [p [Hp He]]. inversion He; subst e.
    destruct (Params_fromSpec_has_dump params p H Hp) as [ds Hds].
    unfold has_dump. destruct p as [l]. simpl in *. rewrite Hds. simpl.
    eexists. reflexivity.
  - discriminate He.
Qed.
End DecodedDumps.

Lemma all_params_decoded (params : ParamsSexp) :
  all_params (fun s => forall e, buildExpression s = Ok e -> has_dump e) params.
Proof.
  destruct params as [l |]; simpl; [| exact I].
  apply Forall_forall. intros s _. apply buildExpression_has_dump.
Qed.

Lemma all_pairs_decoded (hash : HashSexp) :
  all_pairs (fun s => forall e, buildExpression s = Ok e -> has_dump e) hash.
Proof.
  destruct hash as [l |]; simpl; [| exact I].
  apply Forall_forall. intros kv _. apply buildExpression_has_dump.
Qed.

Lemma ParamsAndHash_fromSpec_dump (params : ParamsSexp) (hash : HashSexp)
      (a : ParamsAndHash) :
  ParamsAndHash_fromSpec params hash = Ok a ->
  exists d, ParamsAndHash_prettyPrint a = Ok d.
Proof.
  apply ParamsAndHash_fromSpec_has_dump;
    [apply all_params_decoded | apply all_pairs_decoded].
Qed.

Lemma Hash_fromSpec_dump (hash : HashSexp) (h : Hash) :
  Hash_fromSpec hash = Ok h -> exists d, Hash_prettyPrint h = Ok d.
Proof.
  apply Hash_fromSpec_has_dump. apply all_pairs_decoded.
Qed.

(* ------------------------------------------------------------------ *)
(** ** Decoding statements *)

Ltac decode_inv H :=
  repeat match type of H with
         | bind _ _ = Ok _ =>
             let a := fresh "a" in
             let Ha := fresh "Ha" in
             apply bind_Ok_inv in H; destruct H as [a [Ha H]]
         end;
  try (inversion H; subst; clear H).

(** A statement that [fromSpec] returns is a new object of a class of the
    file: it carries no marker, its class has a [prettyPrint], and its
    [type] is a boundary candidate exactly when the tag of the tuple is. *)
Lemma Statement_fromSpec_fresh (statement : StatementSexp) (siblings : list Template)
      (built : Statement) :
  Statement_fromSpec statement siblings = Ok built ->
  frontBoundary built = false
  /\ backBoundary built = false
  /\ BOUNDARY_CANDIDATES (Statement_type built) = BOUNDARY_CANDIDATES (sexp_tag statement)
  /\ StatementNode_prettyPrint (Statement_node built) <> None.
Proof.
  intro H.
  destruct statement; simpl in H;
    unfold Block_fromSpec, Inline_fromSpec, DynamicAttr_fromSpec,
           DynamicProp_fromSpec, Component_fromSpec in H;
    decode_inv H; try discriminate;
    (split; [reflexivity |]; split; [reflexivity |];
     split; [reflexivity | simpl; discriminate]).
Qed.

(** A decoded statement has a dump. *)
Lemma Statement_fromSpec_dump (statement : StatementSexp) (siblings : list Template)
      (built : Statement) :
  Statement_fromSpec statement siblings = Ok built ->
  exists d, pretty built = Ok d.
Proof.
  intro H.
  destruct statement; simpl in H;
    unfold Block_fromSpec, Inline_fromSpec, DynamicAttr_fromSpec,
           DynamicProp_fromSpec, Component_fromSpec in H;
    decode_inv H; try discriminate; unfold pretty; simpl;
    try (eexists; reflexivity).
  - destruct (ParamsAndHash_fromSpec_dump _ _ _ Ha) as [d Hd].
    rewrite Hd. simpl. eexists. reflexivity.
  - destruct (ParamsAndHash_fromSpec_dump _ _ _ Ha) as [d Hd].
    rewrite Hd. simpl. eexists. reflexivity.
  - destruct (buildExpression_has_dump _ _ Ha) as [d Hd].
    rewrite Hd. simpl. eexists. reflexivity.
  - destruct (buildExpression_has_dump _ _ Ha) as [d Hd].
    rewrite Hd. simpl. eexists. reflexivity.
  - destruct (Hash_fromSpec_dump _ _ Ha) as [d Hd].
    rewrite Hd. simpl. eexists. reflexivity.
Qed.

Lemma pretty_node (s s0 : Statement) :
  Statement_node s = Statement_node s0 -> pretty s = pretty s0.
Proof. unfold pretty. intro H. rewrite H. reflexivity. Qed.

Lemma set_at_spec (f : Statement -> Statement) :
  forall (built : list Statement) (i : nat) (built' : list Statement),
    set_at built i f = Ok built' ->
    List.length built' = List.length built
    /\ forall j, nth_error built' j
                 = if Nat.eqb j i then option_map f (nth_error built j)
                   else nth_error built j.
Proof.
  induction built as [| s rest IH]; intros i built' H.
  - destruct i; discriminate H.
  - destruct i as [| i]; simpl in H.
    + inversion H; subst built'. split; [reflexivity |].
      intros [| j]; reflexivity.
    + bind_inv H. inversion H; subst built'.
      destruct (IH i a Ha) as [Hlen Hnth].
      split; [simpl; rewrite Hlen; reflexivity |].
      intros [| j]; simpl; [reflexivity | apply Hnth].
Qed.

Lemma set_at_Ok (f : Statement -> Statement) :
  forall (built : list Statement) (i : nat),
    i < List.length built -> exists built', set_at built i f = Ok built'.
Proof.
  induction built as [| s rest IH]; intros i Hi; simpl in Hi.
  - lia.
  - destruct i as [| i]; simpl.
    + eexists. reflexivity.
    + destruct (IH i) as [rest' Hrest]; [lia |].
      rewrite Hrest. simpl. eexists. reflexivity.
Qed.

Lemma buildStatements_spec (statements : list StatementSexp) (siblings : list Template)
      (built : list Statement) :
  buildStatements statements siblings = Ok built ->
  List.length built = List.length statements
  /\ boundaries_marked built
  /\ forall i s, nth_error built i = Some s -> exists d, pretty s = Ok d.
Proof.
  unfold buildStatements. destruct statements as [| first rest] eqn:Hstatements.
  - intro H. inversion H; subst built. split; [reflexivity |]. split.
    + intros i s Hi. destruct i; discriminate Hi.
    + intros i s Hi. destruct i; discriminate Hi.
  - rewrite <- Hstatements. intro H.
    apply bind_Ok_inv in H. destruct H as [built0 [Hmap H]].
    apply bind_Ok_inv in H. destruct H as [built1 [Hfront H]].
    pose proof (mapM_length _ _ _ Hmap) as Hlen0.
    assert (Hfresh : forall i s, nth_error built0 i = Some s ->
              exists sx, nth_error statements i = Some sx
                         /\ frontBoundary s = false /\ backBoundary s = false
                         /\ BOUNDARY_CANDIDATES (Statement_type s)
                            = BOUNDARY_CANDIDATES (sexp_tag sx)
                         /\ exists d, pretty s = Ok d).
    { intros i s Hi. destruct (mapM_nth_error _ _ _ Hmap i s Hi) as [sx [Hsx Hdec]].
      exists sx. split; [exact Hsx |].
      destruct (Statement_fromSpec_fresh sx siblings s Hdec) as [Hf [Hb [Htag _]]].
      repeat (split; [assumption |]).
      exact (Statement_fromSpec_dump sx siblings s Hdec). }
    (* the front marker *)
    assert (H1 : List.length built1 = List.length built0
                 /\ forall j, nth_error built1 j
                      = if BOUNDARY_CANDIDATES (sexp_tag first) && Nat.eqb j 0
                        then option_map set_frontBoundary (nth_error built0 j)
                        else nth_error built0 j).
    { destruct (BOUNDARY_CANDIDATES (sexp_tag first)).
      - exact (set_at_spec set_frontBoundary built0 0 built1 Hfront).
      - inversion Hfront; subst built1. split; [reflexivity |]. intro j. reflexivity. }
    destruct H1 as [Hlen1 Hnth1].
    (* the back marker *)
    unfold js_index in H.
    destruct (nth_error statements (List.length statements - 1)) as [final |] eqn:Hfinal;
      [| discriminate H].
    assert (H2 : List.length built = List.length built1
                 /\ forall j, nth_error built j
                      = if BOUNDARY_CANDIDATES (sexp_tag final)
                           && Nat.eqb j (List.length built1 - 1)
                        then option_map set_backBoundary (nth_error built1 j)
                        else nth_error built1 j).
    { destruct (BOUNDARY_CANDIDATES (sexp_tag final)).
      - exact (set_at_spec set_backBoundary built1 _ built H).
      - inversion H; subst built. split; [reflexivity |]. intro j. reflexivity. }
    destruct H2 as [Hlen2 Hnth2].
    assert (Hfirst : nth_error statements 0 = Some first)
      by (rewrite Hstatements; reflexivity).
    split; [lia |].
    assert (Hall : forall i s, nth_error built i = Some s ->
              exists s0 sx, nth_error built0 i = Some s0
                /\ nth_error statements i = Some sx
                /\ Statement_node s = Statement_node s0
                /\ frontBoundary s
                   = BOUNDARY_CANDIDATES (sexp_tag first) && Nat.eqb i 0
                /\ backBoundary s
                   = BOUNDARY_CANDIDATES (sexp_tag final)
                     && Nat.eqb i (List.length built - 1)
                /\ BOUNDARY_CANDIDATES (Statement_type s0)
                   = BOUNDARY_CANDIDATES (sexp_tag sx)
                /\ exists d, pretty s0 = Ok d).
    { intros i s Hi. rewrite Hnth2, Hnth1 in Hi. rewrite Hlen2.
      destruct (nth_error built0 i) as [s0 |] eqn:Hs0.
      - destruct (Hfresh i s0 Hs0) as [sx [Hsx [Hf [Hb [Htag Hpp]]]]].
        exists s0, sx. split; [reflexivity |]. split; [exact Hsx |].
        destruct (BOUNDARY_CANDIDATES (sexp_tag first) && Nat.eqb i 0);
          destruct (BOUNDARY_CANDIDATES (sexp_tag final)
                    && Nat.eqb i (List.length built1 - 1));
          simpl in Hi; inversion Hi; subst s; simpl;
          rewrite ?Hf, ?Hb; repeat split; auto.
      - destruct (BOUNDARY_CANDIDATES (sexp_tag first) && Nat.eqb i 0);
          destruct (BOUNDARY_CANDIDATES (sexp_tag final)
                    && Nat.eqb i (List.length built1 - 1));
          simpl in Hi; discriminate Hi. }
    split.
    + intros i s Hi.
      destruct (Hall i s Hi) as [s0 [sx [Hs0 [Hsx [Hnode [Hf [Hb [Htag _]]]]]]]].
      unfold Statement_type. rewrite Hnode. fold (Statement_type s0).
      rewrite Hf, Hb, Htag. split.
      * destruct (Nat.eqb i 0) eqn:Hi0.
        -- apply Nat.eqb_eq in Hi0. subst i. rewrite Hfirst in Hsx.
           inversion Hsx; subst sx. rewrite andb_true_r. reflexivity.
        -- rewrite andb_false_r. reflexivity.
      * destruct (Nat.eqb i (List.length built - 1)) eqn:Hil.
        -- apply Nat.eqb_eq in Hil.
           replace (List.length built - 1) with (List.length statements - 1) in Hil by lia.
           subst i. rewrite Hfinal in Hsx.
           inversion Hsx; subst sx. rewrite andb_true_r. reflexivity.
        -- rewrite andb_false_r. reflexivity.
    + intros i s Hi.
      destruct (Hall i s Hi) as [s0 [sx [_ [_ [Hnode [_ [_ [_ Hpp]]]]]]]].
      rewrite (pretty_node s s0 Hnode). exact Hpp.
Qed.

(* ------------------------------------------------------------------ *)
(** ** [Template.fromSpec] *)

Lemma Template_fromSpec_loop_spec (root : RootId) :
  forall (specs : list TemplateSpec) (i : nat) (acc templates : list Template),
    i = List.length acc ->
    Template_fromSpec_loop root specs i acc = Ok templates ->
    exists new,
      templates = acc ++ new
      /\ List.length new = List.length specs
      /\ forall j spec,
           nth_error specs j = Some spec ->
           exists t, nth_error templates (i + j) = Some t
                     /\ decoded_at root templates (i + j) spec t.
Proof.
  induction specs as [| spec rest IH]; intros i acc templates Hi H; simpl in H.
  - inversion H; subst templates. exists []. rewrite app_nil_r.
    split; [reflexivity |]. split; [reflexivity |].
    intros j s Hj. destruct j; discriminate Hj.
  - apply bind_Ok_inv in H. destruct H as [statements [Hbuilt H]].
    apply IH in H; [| rewrite length_app; simpl; lia].
    destruct H as [new [Htemplates [Hlen Hnth]]].
    eexists (_ :: new). rewrite <- app_assoc in Htemplates. simpl in Htemplates.
    split; [exact Htemplates |]. split; [simpl; rewrite Hlen; reflexivity |].
    intros [| j] s Hj; simpl in Hj.
    + inversion Hj; subst s. rewrite Nat.add_0_r. subst i.
      eexists. split.
      * rewrite Htemplates, nth_error_app2 by lia.
        rewrite Nat.sub_diag. reflexivity.
      * exists statements. split; [| reflexivity].
        rewrite Htemplates, firstn_app, Nat.sub_diag, firstn_all.
        simpl. rewrite app_nil_r. exact Hbuilt.
    + replace (i + S j) with (S i + j) by lia. apply Hnth. exact Hj.
Qed.

Lemma Template_fromSpec_spec (store store' : Store) (specs : list TemplateSpec)
      (produced : option Template) :
  Template_fromSpec store specs = Ok (store', produced) ->
  exists root,
    store' = store ++ [root]
    /\ nth_error store' (List.length store) = Some root
    /\ List.length root = List.length specs
    /\ produced = nth_error root (List.length specs - 1)
    /\ forall j spec,
         nth_error specs j = Some spec ->
         exists t, nth_error root j = Some t
                   /\ decoded_at (List.length store) root j spec t.
Proof.
  unfold Template_fromSpec. intro H.
  apply bind_Ok_inv in H. destruct H as [templates [Hloop H]].
  inversion H; subst store' produced. clear H.
  destruct (Template_fromSpec_loop_spec (List.length store) specs 0 [] templates
              eq_refl Hloop) as [new [Htemplates [Hlen Hnth]]].
  simpl in Htemplates. subst new.
  exists templates. split; [reflexivity |]. split.
  - rewrite nth_error_app2 by lia. rewrite Nat.sub_diag. reflexivity.
  - split; [exact Hlen |]. split.
    + unfold js_index. rewrite Hlen. destruct templates as [| t ts].
      * simpl in Hlen. rewrite <- Hlen. reflexivity.
      * reflexivity.
    + intros j spec Hj. exact (Hnth j spec Hj).
Qed.

(** Every template of the array is the decoding of the spec at its index. *)
Lemma Template_fromSpec_In (store store' : Store) (specs : list TemplateSpec)
      (produced : option Template) (root : list Template) (t : Template) :
  Template_fromSpec store specs = Ok (store', produced) ->
  nth_error store' (List.length store) = Some root ->
  In t root ->
  exists j spec, nth_error specs j = Some spec
                 /\ nth_error root j = Some t
                 /\ decoded_at (List.length store) root j spec t.
Proof.
  intros H Hroot Hin.
  destruct (Template_fromSpec_spec store store' specs produced H)
    as [root' [_ [Hroot' [Hlen [_ Hnth]]]]].
  rewrite Hroot in Hroot'. inversion Hroot'; subst root'. clear Hroot'.
  apply In_nth_error in Hin. destruct Hin as [j Hj].
  assert (Hlt : j < List.length specs).
  { rewrite <- Hlen. apply nth_error_Some. rewrite Hj. discriminate. }
  destruct (nth_error specs j) as [spec |] eqn:Hspec.
  - exists j, spec. split; [exact Hspec |]. split; [exact Hj |].
    destruct (Hnth j spec Hspec) as [t' [Ht' Hdec]].
    rewrite Hj in Ht'. inversion Ht'; subst t'. exact Hdec.
  - apply nth_error_None in Hspec. lia.
Qed.

(* ------------------------------------------------------------------ *)
(** ** Boundary markers *)

(** C3, refuted as stated: the template that [fromStatements] makes of one
    [inline] statement has a first statement whose type is a boundary
    candidate and which carries no front marker. *)
Lemma fromStatements_leaves_inline_unmarked :
  ~ boundaries_marked
      (Template_statements
         (Template_fromStatements [Inline_build "name" ParamsAndHash_empty false])).
Proof.
  intro H.
  destruct (H 0 (Inline_build "name" ParamsAndHash_empty false) eq_refl) as [Hfront _].
  discriminate Hfront.
Qed.

(** C3, amended.  In every template that [Template.fromSpec] decodes, the
    first statement carries [frontBoundary] exactly when its type is one of
    block, inline, unknown, component, the last statement carries
    [backBoundary] under the same condition, and no other statement carries
    either marker.  [Template.fromStatements] stores the statements it is
    given as they are and marks none. *)
Theorem boundaries_marked_by_decoding :
  (forall (store store' : Store) (specs : list TemplateSpec)
          (produced : option Template),
      Template_fromSpec store specs = Ok (store', produced) ->
      (forall root template,
          nth_error store' (List.length store) = Some root ->
          In template root ->
          boundaries_marked (Template_statements template))
      /\ (forall template,
             produced = Some template ->
             boundaries_marked (Template_statements template)))
  /\ (forall statements : list Statement,
         Template_statements (Template_fromStatements statements) = statements).
Proof.
  split; [| reflexivity].
  intros store store' specs produced H.
  assert (Hall : forall root template,
             nth_error store' (List.length store) = Some root ->
             In template root ->
             boundaries_marked (Template_statements template)).
  { intros root template Hroot Hin.
    destruct (Template_fromSpec_In store store' specs produced root template
                H Hroot Hin) as [j [spec [_ [_ [statements [Hbuilt Ht]]]]]].
    subst template. simpl.
    exact (proj1 (proj2 (buildStatements_spec _ _ _ Hbuilt))). }
  split; [exact Hall |].
  intros template Hproduced.
  destruct (Template_fromSpec_spec store store' specs produced H)
    as [root [_ [Hroot [_ [Hlast _]]]]].
  apply (Hall root template Hroot).
  rewrite Hproduced in Hlast. symmetry in Hlast.
  eapply nth_error_In. exact Hlast.
Qed.

Lemma boundaries_marked_by_decoding_witness :
  exists store' template,
    Template_fromSpec [] example_specs = Ok (store', Some template)
    /\ boundaries_marked (Template_statements template)
    /\ map frontBoundary (Template_statements template) = [true; false; false]
    /\ map backBoundary (Template_statements template) = [false; false; true].
Proof.
  destruct (Template_fromSpec [] example_specs) as [[store' produced] | e] eqn:H;
    [| discriminate H].
  destruct produced as [template |]; [| discriminate H].
  exists store', template. split; [reflexivity |].
  split.
  - exact (proj2 (proj1 boundaries_marked_by_decoding [] store' example_specs
                    (Some template) H) template eq_refl).
  - vm_compute in H. inversion H. split; reflexivity.
Defined.

(* ------------------------------------------------------------------ *)
(** ** The empty template *)

Lemma buildStatements_empty (statements : list StatementSexp) (siblings : list Template) :
  List.length statements = 0 -> buildStatements statements siblings = Ok [].
Proof.
  destruct statements; simpl; intro H; [reflexivity | discriminate H].
Qed.

(** C9.  When [Template.fromSpec] returns, the template decoded from a
    descriptor whose [statements] array has length zero has [isEmpty] set,
    and evaluating it returns a result with no render node, having made no
    call on its stack.  This holds at every index of the decoded array, and
    the template returned is the one at the last index. *)
Theorem empty_spec_decodes_to_empty_template :
  forall (store store' : Store) (specs : list TemplateSpec)
         (produced : option Template),
    Template_fromSpec store specs = Ok (store', produced) ->
    exists root,
      nth_error store' (List.length store) = Some root
      /\ produced = nth_error root (List.length specs - 1)
      /\ forall j spec,
           nth_error specs j = Some spec ->
           List.length (spec_statements spec) = 0 ->
           exists template,
             nth_error root j = Some template
             /\ Template_isEmpty template = true
             /\ forall frame : Frame,
                 Template_evaluate template frame
                 = Ok (mkRenderResult [] template, mkStack [] []).
Proof.
  intros store store' specs produced H.
  destruct (Template_fromSpec_spec store store' specs produced H)
    as [root [_ [Hroot [_ [Hlast Hnth]]]]].
  exists root. split; [exact Hroot |]. split; [exact Hlast |].
  intros j spec Hj Hzero.
  destruct (Hnth j spec Hj) as [template [Ht [statements [Hbuilt Heq]]]].
  exists template. split; [exact Ht |].
  rewrite (buildStatements_empty _ _ Hzero) in Hbuilt.
  inversion Hbuilt; subst statements. subst template.
  rewrite Hzero. split; reflexivity.
Qed.

Lemma empty_spec_decodes_to_empty_template_witness :
  exists store' template,
    Template_fromSpec [] [mkSpec [] None None] = Ok (store', Some template)
    /\ Template_isEmpty template = true
    /\ Template_evaluate template example_frame
       = Ok (mkRenderResult [] template, mkStack [] []).
Proof.
  destruct (Template_fromSpec [] [mkSpec [] None None])
    as [[store' produced] | e] eqn:H; [| discriminate H].
  destruct (empty_spec_decodes_to_empty_template
              [] store' [mkSpec [] None None] produced H)
    as [root [_ [Hlast Hempty]]].
  destruct (Hempty 0 (mkSpec [] None None) eq_refl eq_refl)
    as [template [Ht [HisEmpty Heval]]].
  change (produced = nth_error root 0) in Hlast. rewrite Ht in Hlast. subst produced.
  exists store', template. split; [reflexivity |].
  split; [exact HisEmpty | exact (Heval example_frame)].
Defined.

(* ------------------------------------------------------------------ *)
(** ** [Template.prettyPrint] *)



(* ------------------------------------------------------------------ *)
(** ** [fromSpec] against [build] *)

Lemma split_no_sep (sep : ascii) (s : string) :
  has_char sep s = false -> split sep s = [s].
Proof.
  induction s as [| a rest IH]; simpl; intro H.
  - reflexivity.
  - apply orb_false_iff in H. destruct H as [Ha Hrest].
    rewrite Ha, (IH Hrest). reflexivity.
Qed.

Lemma split_append (sep : ascii) (s t : string) :
  has_char sep s = false ->
  split sep (s ++ String sep t)%string = s :: split sep t.
Proof.
  induction s as [| a rest IH]; simpl; intro H.
  - rewrite Ascii.eqb_refl. reflexivity.
  - apply orb_false_iff in H. destruct H as [Ha Hrest].
    rewrite Ha, (IH Hrest). reflexivity.
Qed.

Lemma internPath_join (segments : list InternedString) :
  segments <> [] ->
  Forall (fun p => has_char "."%char p = false) segments ->
  internPath (join "." segments) = segments.
Proof.
  unfold internPath, intern, join. rewrite map_id.
  induction segments as [| p rest IH]; intros Hne Hall.
  - contradiction.
  - destruct rest as [| q rest].
    + simpl. apply split_no_sep. exact (Forall_inv Hall).
    + change (String.concat "." (p :: q :: rest))
        with (p ++ String "."%char (String.concat "." (q :: rest)))%string.
      rewrite split_append by exact (Forall_inv Hall).
      rewrite IH; [reflexivity | discriminate | exact (Forall_inv_tail Hall)].
Qed.

Section Parity.
Variable children : list Template.

(** For each class, [fromSpec] on a tuple returns the statement that
    [build] returns on the decoded fields of the tuple: the same
    arguments, a path string that splits into the segments of the tuple,
    the sub-templates found in the sibling array.  Equal statements
    evaluate alike. *)
Lemma Block_parity path params hash templateId inverseId args :
  ParamsAndHash_fromSpec params hash = Ok args ->
  Block_fromSpec path params hash templateId inverseId children
  = Ok (Block_build path args (Templates_fromSpec templateId inverseId children)).
Proof. intro H. unfold Block_fromSpec. rewrite H. reflexivity. Qed.

Lemma Inline_parity path params hash trust args _path :
  ParamsAndHash_fromSpec params hash = Ok args ->
  internPath _path = path ->
  Inline_fromSpec path params hash trust = Ok (Inline_build _path args trust).
Proof.
  intros H Hpath. unfold Inline_fromSpec, Inline_build.
  rewrite H, Hpath. reflexivity.
Qed.

Lemma Unknown_parity path unsafe _path :
  internPath _path = path ->
  Unknown_fromSpec path unsafe = Unknown_build _path unsafe.
Proof.
  intro Hpath. unfold Unknown_fromSpec, Unknown_build, Ref_build.
  rewrite Hpath. reflexivity.
Qed.

Lemma DynamicProp_parity name value namespace v :
  buildExpression value = Ok v ->
  DynamicProp_fromSpec name value namespace = Ok (DynamicProp_build name v).
Proof. intro H. unfold DynamicProp_fromSpec. rewrite H. reflexivity. Qed.

(** [DynamicAttr.build] turns the empty namespace into [null];
    [DynamicAttr.fromSpec] keeps it. *)
Lemma DynamicAttr_parity name value namespace v :
  buildExpression value = Ok v ->
  namespace <> Some "" ->
  DynamicAttr_fromSpec name value namespace = Ok (DynamicAttr_build name v namespace).
Proof.
  intros H Hns. unfold DynamicAttr_fromSpec, DynamicAttr_build, intern, truthy.
  rewrite H. simpl. destruct namespace as [ns |]; [| reflexivity].
  destruct (String.eqb ns "") eqn:Hempty; [| reflexivity].
  apply String.eqb_eq in Hempty. subst ns. contradiction.
Qed.

Lemma Component_parity path attrs templateId inverseId hash _path :
  Hash_fromSpec attrs = Ok hash ->
  internPath _path = [path] ->
  Component_fromSpec path attrs templateId inverseId children
  = Ok (Component_build _path (Templates_default (Templates_fromSpec templateId inverseId children))
                        (Templates_inverse (Templates_fromSpec templateId inverseId children))
                        (Some hash)).
Proof.
  intros H Hpath. unfold Component_fromSpec, Component_build, Ref_build.
  rewrite H, Hpath. reflexivity.
Qed.

Lemma static_parity :
  (forall content, Text_fromSpec content = Text_build content)
  /\ (forall value, Comment_fromSpec value = Comment_build value)
  /\ (forall tag, OpenElement_fromSpec tag = OpenElement_build tag)
  /\ CloseElement_fromSpec = CloseElement_build
  /\ (forall name value namespace,
         StaticAttr_fromSpec name value namespace
         = StaticAttr_build name (JStr value) namespace).
Proof.
  repeat split. intros name value namespace.
  unfold StaticAttr_fromSpec, StaticAttr_build, intern, intern_val, truthy.
  destruct namespace as [ns |]; [| reflexivity].
  destruct (String.eqb ns ""); reflexivity.
Qed.

(** The method installed under [TemplateBuilder.prototype.dynamicAttr]
    pushes what [DynamicAttr.build] returns on all its arguments. *)
Lemma TemplateBuilder_prototype_dynamicAttr_parity b name value namespace v :
  buildExpression value = Ok v ->
  namespace <> Some "" ->
  exists statement,
    DynamicAttr_fromSpec name value namespace = Ok statement
    /\ builder_statements (TemplateBuilder_prototype_dynamicAttr b name v namespace)
       = builder_statements b ++ [statement].
Proof.
  intros H Hns. eexists. split.
  - apply DynamicAttr_parity; eassumption.
  - reflexivity.
Qed.
End Parity.

(** C1, refuted as stated.  [Component.fromSpec] keeps the path of the
    tuple as one segment and [Component.build] splits its path at dots: for
    the path [a.b], on a frame that knows neither a component nor a helper,
    the decoded statement asks for a fallback element on the path [a.b] and
    the built one for a fallback element on the path [a], [b].
    [DynamicAttr.fromSpec] keeps an empty namespace and [DynamicAttr.build]
    turns it into [null]. *)
Lemma fromSpec_build_differ_on_dotted_path :
  (decoded <- Component_fromSpec "a.b" None None None [] ;;
   Statement_evaluate decoded example_frame)
  = Ok (createContentMorph FallbackMorph
          (FallbackOptions ["a.b"] (Some (mkHash [] [])) None))
  /\ Statement_evaluate (Component_build "a.b" None None (Some (mkHash [] [])))
                        example_frame
     = Ok (createContentMorph FallbackMorph
             (FallbackOptions ["a"; "b"] (Some (mkHash [] [])) None))
  /\ (decoded <- Component_fromSpec "a.b" None None None [] ;;
      Statement_evaluate decoded example_frame)
     <> Statement_evaluate (Component_build "a.b" None None (Some (mkHash [] [])))
                           example_frame
  /\ (decoded <- DynamicAttr_fromSpec "href" (XLiteral (LStr "u")) (Some "") ;;
      Statement_evaluate decoded example_frame)
     = Ok (createMorph AttrMorph (AttrOptions "href" (ConstReference (JStr "u")) (Some "")))
  /\ Statement_evaluate (DynamicAttr_build "href" (Value (JStr "u")) (Some ""))
                        example_frame
     = Ok (createMorph AttrMorph (AttrOptions "href" (ConstReference (JStr "u")) None)).
Proof.
  split; [reflexivity |]. split; [reflexivity |].
  split; [intro H; discriminate H |]. split; reflexivity.
Qed.

(** C1, amended.  For every statement kind, [fromSpec] on a wire tuple
    returns the very statement that [build] returns on the decoded fields of
    the tuple (the decoded arguments, the sub-templates found in the sibling
    array, a path string that splits at dots into the path of the tuple),
    for a dynamic attribute when its namespace is not the empty string; the
    two then evaluate alike against every stack and frame.  In particular a
    dynamic attribute with a non-empty namespace added through
    [TemplateBuilder.dynamicAttr] is the statement [DynamicAttr.fromSpec]
    decodes, and it asks for an [AttrMorph] in that namespace. *)
Theorem fromSpec_build_parity :
  forall children : list Template,
    let child (id : option nat) : option Template :=
      match id with None => None | Some k => nth_error children k end in
    (forall path params hash templateId inverseId args,
        ParamsAndHash_fromSpec params hash = Ok args ->
        Block_fromSpec path params hash templateId inverseId children
        = Ok (Block_build path args
                (Templates_build (child templateId) (child inverseId))))
    /\ (forall path params hash trust args _path,
           ParamsAndHash_fromSpec params hash = Ok args ->
           internPath _path = path ->
           Inline_fromSpec path params hash trust = Ok (Inline_build _path args trust))
    /\ (forall path unsafe _path,
           internPath _path = path ->
           Unknown_fromSpec path unsafe = Unknown_build _path unsafe)
    /\ (forall name value namespace v,
           buildExpression value = Ok v ->
           DynamicProp_fromSpec name value namespace = Ok (DynamicProp_build name v))
    /\ (forall name value namespace v,
           buildExpression value = Ok v ->
           namespace <> Some "" ->
           DynamicAttr_fromSpec name value namespace
           = Ok (DynamicAttr_build name v namespace))
    /\ (forall path attrs templateId inverseId hash _path,
           Hash_fromSpec attrs = Ok hash ->
           internPath _path = [path] ->
           Component_fromSpec path attrs templateId inverseId children
           = Ok (Component_build _path (child templateId) (child inverseId) (Some hash)))
    /\ (forall content, Text_fromSpec content = Text_build content)
    /\ (forall value, Comment_fromSpec value = Comment_build value)
    /\ (forall tag, OpenElement_fromSpec tag = OpenElement_build tag)
    /\ CloseElement_fromSpec = CloseElement_build
    /\ (forall name value namespace,
           StaticAttr_fromSpec name value namespace
           = StaticAttr_build name (JStr value) namespace)
    /\ (forall (b : TemplateBuilder) key value ns v (frame : Frame),
           buildExpression value = Ok v ->
           ns <> "" ->
           DynamicAttr_fromSpec key value (Some ns)
           = Ok (mkStatement (DynamicAttr key v (Some ns)) false false)
           /\ builder_statements (TemplateBuilder_prototype_dynamicAttr b key v (Some ns))
              = builder_statements b ++ [mkStatement (DynamicAttr key v (Some ns)) false false]
           /\ Statement_evaluate (mkStatement (DynamicAttr key v (Some ns)) false false) frame
              = Ok (createMorph AttrMorph
                      (AttrOptions key (Expression_evaluate frame v) (Some ns)))).
Proof.
  intros children child.
  destruct static_parity as [Htext [Hcomment [Hopen [Hclose Hstatic]]]].
  split; [intros; apply Block_parity; assumption |].
  split; [intros; apply Inline_parity; assumption |].
  split; [intros; apply Unknown_parity; assumption |].
  split; [intros; apply DynamicProp_parity; assumption |].
  split; [intros; apply DynamicAttr_parity; assumption |].
  split; [intros; apply (Component_parity children); assumption |].
  split; [exact Htext |]. split; [exact Hcomment |]. split; [exact Hopen |].
  split; [exact Hclose |]. split; [exact Hstatic |].
  intros b key value ns v frame Hv Hns.
  assert (Hbuilt : DynamicAttr_build key v (Some ns)
                   = mkStatement (DynamicAttr key v (Some ns)) false false).
  { unfold DynamicAttr_build, truthy, intern, new_Statement.
    destruct (String.eqb ns "") eqn:Hempty; [| reflexivity].
    apply String.eqb_eq in Hempty. contradiction. }
  split; [| split].
  - rewrite <- Hbuilt. apply DynamicAttr_parity; [exact Hv |].
    intro H. inversion H. contradiction.
  - unfold TemplateBuilder_prototype_dynamicAttr, TemplateBuilder_push. simpl.
    rewrite Hbuilt. reflexivity.
  - reflexivity.
Qed.

Lemma fromSpec_build_parity_witness :
  buildExpression (XGet ["url"]) = Ok (Get (mkRef ["url"]))
  /\ "xlink" <> ""
  /\ DynamicAttr_fromSpec "href" (XGet ["url"]) (Some "xlink")
     = Ok (mkStatement (DynamicAttr "href" (Get (mkRef ["url"])) (Some "xlink")) false false)
  /\ builder_statements
       (TemplateBuilder_prototype_dynamicAttr new_TemplateBuilder "href"
          (Get (mkRef ["url"])) (Some "xlink"))
     = [mkStatement (DynamicAttr "href" (Get (mkRef ["url"])) (Some "xlink")) false false]
  /\ Statement_evaluate
       (mkStatement (DynamicAttr "href" (Get (mkRef ["url"])) (Some "xlink")) false false)
       example_frame
     = Ok (createMorph AttrMorph
             (AttrOptions "href" (RootReference (Some "url")) (Some "xlink"))).
Proof.
  split; [reflexivity |]. split; [discriminate |].
  destruct (fromSpec_build_parity []) as [_ [_ [_ [_ [_ [_ [_ [_ [_ [_ [_ H]]]]]]]]]]].
  destruct (H new_TemplateBuilder "href" (XGet ["url"]) "xlink" (Get (mkRef ["url"]))
              example_frame eq_refl) as [Hdecoded [Hbuilder Hcall]]; [discriminate |].
  split; [exact Hdecoded |]. split; [exact Hbuilder | exact Hcall].
Defined.

(* ================================================================== *)
(** * Further properties *)

(* ------------------------------------------------------------------ *)
(** ** Paths *)

Lemma split_nonempty (sep : ascii) (s : string) : split sep s <> [].
Proof.
  destruct s as [| c rest]; simpl.
  - discriminate.
  - destruct (Ascii.eqb c sep); [discriminate |].
    destruct (split sep rest); discriminate.
Qed.

Lemma concat_cons_nonempty (sep x : string) (xs : list string) :
  xs <> [] ->
  String.concat sep (x :: xs) = (x ++ sep ++ String.concat sep xs)%string.
Proof.
  destruct xs as [| y ys]; intro H; [contradiction | reflexivity].
Qed.

Lemma join_split (sep : ascii) (s : string) :
  join (String sep EmptyString) (split sep s) = s.
Proof.
  unfold join. induction s as [| c rest IH]; simpl.
  - reflexivity.
  - destruct (Ascii.eqb c sep) eqn:Hc.
    + apply Ascii.eqb_eq in Hc. subst c.
      rewrite concat_cons_nonempty by apply split_nonempty.
      simpl. rewrite IH. reflexivity.
    + pose proof (split_nonempty sep rest) as Hne.
      destruct (split sep rest) as [| seg segs]; [contradiction |].
      destruct segs as [| seg' segs].
      * simpl in *. rewrite IH. reflexivity.
      * change (String.concat (String sep "") (String c seg :: seg' :: segs))
          with (String c (seg ++ String sep "" ++ String.concat (String sep "") (seg' :: segs)))%string.
        change (String.concat (String sep "") (seg :: seg' :: segs))
          with (seg ++ String sep "" ++ String.concat (String sep "") (seg' :: segs))%string in IH.
        rewrite IH. reflexivity.
Qed.

(** X1.  A [Ref] built from a path string prints as that string, for every
    string; and a [Ref] built from the dot-joined form of a non-empty list
    of segments, none of which holds a dot, has exactly those segments. *)
Theorem Ref_build_prettyPrint_round_trip :
  (forall path : string, Ref_prettyPrint (Ref_build path) = path)
  /\ (forall segments : list InternedString,
         segments <> [] ->
         Forall (fun p => has_char "."%char p = false) segments ->
         Ref_path (Ref_build (Ref_prettyPrint (new_Ref segments))) = segments).
Proof.
  split.
  - intro path. unfold Ref_prettyPrint, Ref_build, new_Ref, internPath, intern. simpl.
    rewrite map_id. apply join_split.
  - intros segments Hne Hall. unfold Ref_path, Ref_build, Ref_prettyPrint, new_Ref.
    simpl. apply internPath_join; assumption.
Qed.

Lemma Ref_build_prettyPrint_round_trip_witness :
  ["user"; "name"] <> []
  /\ Ref_path (Ref_build (Ref_prettyPrint (new_Ref ["user"; "name"])))
     = ["user"; "name"].
Proof.
  split; [discriminate |].
  apply (proj2 Ref_build_prettyPrint_round_trip ["user"; "name"]).
  - discriminate.
  - repeat constructor.
Defined.

(** X2.  [Ref.evaluate] resolves a path link by link: a single segment is
    the base lookup of that segment, and a path longer by one segment is one
    [get] of that segment on the reference of the shorter path; pulling it
    reads that property of what the shorter path pulls. *)
Theorem Ref_evaluate_link_by_link :
  forall (frame : Frame) (w : World),
    (forall p, Ref_evaluate (new_Ref [p]) frame = getBase frame (Some p))
    /\ (forall (segments : list InternedString) (segment : InternedString),
           segments <> [] ->
           Ref_evaluate (new_Ref (segments ++ [segment])) frame
           = PropertyReference (Ref_evaluate (new_Ref segments) frame) segment
           /\ Reference_value w (Ref_evaluate (new_Ref (segments ++ [segment])) frame)
              = (v <- Reference_value w (Ref_evaluate (new_Ref segments) frame) ;;
                 Ok (get_prop w v segment))).
Proof.
  intros frame w. split; [reflexivity |].
  intros segments segment Hne.
  assert (H : Ref_evaluate (new_Ref (segments ++ [segment])) frame
              = PropertyReference (Ref_evaluate (new_Ref segments) frame) segment).
  { destruct segments as [| p rest]; [contradiction |].
    unfold Ref_evaluate, new_Ref. simpl. rewrite fold_left_app. reflexivity. }
  split; [exact H |]. rewrite H. reflexivity.
Qed.

Lemma Ref_evaluate_link_by_link_witness :
  ["user"] <> []
  /\ Ref_evaluate (new_Ref (["user"] ++ ["name"])) example_frame
     = PropertyReference (RootReference (Some "user")) "name".
Proof.
  split; [discriminate |].
  destruct (Ref_evaluate_link_by_link example_frame example_world) as [_ H].
  destruct (H ["user"] "name") as [Heq _]; [discriminate |].
  exact Heq.
Defined.

(* ------------------------------------------------------------------ *)
(** ** Hashes and parameter lists *)

(** X3.  [Hash.fromSpec] keeps the keys of the wire array in their order,
    duplicates included, and stores at each index the decoding of the
    expression paired with the key at that index, so keys and values have
    the same length; a missing array gives the empty hash. *)
Theorem Hash_fromSpec_keeps_pairs :
  forall (rawPairs : HashSexp) (h : Hash),
    Hash_fromSpec rawPairs = Ok h ->
    Hash_keys h = match rawPairs with Some pairs => map fst pairs | None => [] end
    /\ Forall2 (fun kv e => buildExpression (snd kv) = Ok e)
               (match rawPairs with Some pairs => pairs | None => [] end)
               (Hash_values h)
    /\ List.length (Hash_keys h) = List.length (Hash_values h).
Proof.
  intros rawPairs h H.
  pose proof (Hash_fromSpec_lengths rawPairs h H) as Hlen.
  unfold Hash_fromSpec, Hash_fromSpec_with in H. destruct rawPairs as [pairs |].
  - destruct (Hash_fromSpec_loop_spec buildExpression pairs [] [] h H)
      as [built [Hh Hall]].
    subst h. simpl in *. repeat split; assumption.
  - inversion H; subst h. simpl. repeat split; constructor.
Qed.

Lemma Hash_fromSpec_keeps_pairs_witness :
  exists h,
    Hash_fromSpec (Some [("k", XLiteral (LNum 1)); ("k", XGet ["x"])]) = Ok h
    /\ Hash_keys h = ["k"; "k"]
    /\ List.length (Hash_values h) = 2.
Proof.
  destruct (Hash_fromSpec (Some [("k", XLiteral (LNum 1)); ("k", XGet ["x"])]))
    as [h | e] eqn:H; [| discriminate H].
  destruct (Hash_fromSpec_keeps_pairs _ h H) as [Hkeys [_ Hlen]].
  exists h. split; [reflexivity |]. split; [exact Hkeys |].
  rewrite <- Hlen, Hkeys. reflexivity.
Defined.

Lemma EvaluatedHash_some_lookup (frame : Frame) (key : InternedString) :
  forall (d : Dict Expression) (earlier : list Reference),
    EvaluatedHash_some (map fst d)
                       (earlier ++ map (Expression_evaluate frame) (map snd d))
                       key (List.length earlier)
    = option_map (Expression_evaluate frame) (dict_get key d).
Proof.
  induction d as [| [k v] rest IH]; intro earlier; simpl.
  - reflexivity.
  - destruct (String.eqb k key).
    + unfold js_index. rewrite nth_error_app2 by lia.
      rewrite Nat.sub_diag. reflexivity.
    + specialize (IH (earlier ++ [Expression_evaluate frame v])).
      rewrite <- app_assoc, length_app in IH. simpl in IH.
      rewrite Nat.add_1_r in IH. exact IH.
Qed.

Lemma dict_get_filter {A : Type} (q : string -> bool) (key : string) :
  forall l : Dict A,
    dict_get key (filter (fun kv => q (fst kv)) l)
    = if q key then dict_get key l else None.
Proof.
  induction l as [| [k v] rest IH]; simpl.
  - destruct (q key); reflexivity.
  - destruct (String.eqb k key) eqn:Hk.
    + apply String.eqb_eq in Hk. subst k.
      destruct (q key) eqn:Hq; simpl.
      * rewrite String.eqb_refl. reflexivity.
      * rewrite IH. try rewrite Hq. reflexivity.
    + destruct (q k); simpl; [rewrite Hk |]; exact IH.
Qed.

Lemma dict_get_own {A : Type} (key : string) :
  forall d : Dict A, dict_get key (dict_own d) = dict_get key d.
Proof.
  induction d as [| [k v] rest IH]; simpl.
  - reflexivity.
  - destruct (String.eqb k key) eqn:Hk; [reflexivity |].
    rewrite (dict_get_filter (fun k' => negb (String.eqb k' k)) key (dict_own rest)).
    rewrite String.eqb_sym, Hk. simpl. exact IH.
Qed.

Lemma dict_get_insert {A : Type} (key k : string) (v : A) :
  forall l : Dict A,
    dict_get key (insert_by_index (k, v) l)
    = if String.eqb k key then Some v else dict_get key l.
Proof.
  induction l as [| [k' v'] rest IH]; simpl.
  - reflexivity.
  - destruct (N.leb (key_index k) (key_index k')) eqn:Hle; simpl.
    + reflexivity.
    + destruct (String.eqb k' key) eqn:Hk'.
      * apply String.eqb_eq in Hk'. subst k'.
        destruct (String.eqb k key) eqn:Hk; [| reflexivity].
        apply String.eqb_eq in Hk. subst k.
        rewrite N.leb_refl in Hle. discriminate Hle.
      * exact IH.
Qed.

Lemma dict_get_sort {A : Type} (key : string) :
  forall l : Dict A, dict_get key (sort_by_index l) = dict_get key l.
Proof.
  induction l as [| [k v] rest IH]; simpl.
  - reflexivity.
  - rewrite dict_get_insert, IH. reflexivity.
Qed.

Lemma dict_get_app {A : Type} (key : string) (l2 : Dict A) :
  forall l1 : Dict A,
    dict_get key (l1 ++ l2)
    = match dict_get key l1 with Some v => Some v | None => dict_get key l2 end.
Proof.
  induction l1 as [| [k v] rest IH]; simpl.
  - reflexivity.
  - destruct (String.eqb k key); [reflexivity | exact IH].
Qed.

(** A read finds in the entries of [Object.keys] what it finds in the
    object. *)
Lemma dict_get_Object_entries {A : Type} (key : string) (d : Dict A) :
  dict_get key (Object_entries d) = dict_get key d.
Proof.
  unfold Object_entries. rewrite dict_get_app, dict_get_sort.
  rewrite (dict_get_filter is_array_index key (dict_own d)).
  rewrite (dict_get_filter (fun k => negb (is_array_index k)) key (dict_own d)).
  rewrite dict_get_own.
  destruct (is_array_index key); simpl; destruct (dict_get key d); reflexivity.
Qed.

(** [Object.keys] lists array indices first, in numeric order, and a key
    once. *)
Lemma Object_entries_order :
  map fst (Object_entries [("b", 1); ("10", 2); ("a", 3); ("2", 4); ("b", 5); ("01", 6)])
  = ["2"; "10"; "b"; "a"; "01"].
Proof. reflexivity. Qed.

(** X4.  Building a hash from an object, evaluating it and asking for a key
    gives the reference that the expression stored under that key evaluates
    to, and no reference when the object has no such key. *)
Theorem Hash_build_evaluate_at :
  forall (frame : Frame) (d : Dict Expression) (key : InternedString),
    EvaluatedHash_at (Hash_evaluate frame (Hash_build (Some d))) key
    = option_map (Expression_evaluate frame) (dict_get key d).
Proof.
  intros frame d key. unfold Hash_build. rewrite EvaluatedHash_sources.
  cbv zeta. rewrite <- (dict_get_Object_entries key d).
  exact (EvaluatedHash_some_lookup frame key (Object_entries d) []).
Qed.

Lemma dict_get_set_same {A : Type} (k : string) (v : A) (d : Dict A) :
  dict_get k (dict_set k v d) = Some v.
Proof.
  induction d as [| [k' v'] rest IH]; simpl.
  - rewrite String.eqb_refl. reflexivity.
  - destruct (String.eqb k' k) eqn:Hk; simpl.
    + rewrite String.eqb_refl. reflexivity.
    + rewrite Hk. exact IH.
Qed.

Lemma dict_get_set_other {A : Type} (k k0 : string) (v : A) (d : Dict A) :
  k0 <> k -> dict_get k (dict_set k0 v d) = dict_get k d.
Proof.
  intro Hne. apply String.eqb_neq in Hne.
  induction d as [| [k' v'] rest IH]; simpl.
  - rewrite Hne. reflexivity.
  - destruct (String.eqb k' k0) eqn:Hk; simpl.
    + apply String.eqb_eq in Hk. subst k'. rewrite Hne. reflexivity.
    + destruct (String.eqb k' k); [reflexivity | exact IH].
Qed.

Lemma hash_value_spec (vals : list (result JsVal)) :
  forall (keys : list InternedString) (i : nat) (acc h : Dict JsVal),
    hash_value keys vals i acc = Ok h ->
    forall key,
      (~ In key keys -> dict_get key h = dict_get key acc)
      /\ (forall j,
             nth_error keys j = Some key ->
             (forall j', j < j' -> nth_error keys j' <> Some key) ->
             exists v, nth_error vals (i + j) = Some (Ok v)
                       /\ dict_get key h = Some v).
Proof.
  induction keys as [| k rest IH]; intros i acc h H key.
  - simpl in H. inversion H; subst h. split; [reflexivity |].
    intros j Hj. destruct j; discriminate Hj.
  - simpl in H. unfold js_index in H.
    destruct (nth_error vals i) as [pulled |] eqn:Hpulled; [| discriminate H].
    apply bind_Ok_inv in H. destruct H as [v [Hv H]]. subst pulled.
    destruct (IH (S i) (dict_set k v acc) h H key) as [Hout Hin].
    split.
    + intro Hnot. rewrite Hout by (intro Hrest; apply Hnot; right; exact Hrest).
      apply dict_get_set_other. intro Heq. apply Hnot. left. exact Heq.
    + intros [| j] Hj Hlast.
      * simpl in Hj. inversion Hj; subst k. exists v. rewrite Nat.add_0_r.
        split; [exact Hpulled |].
        rewrite Hout.
        -- apply dict_get_set_same.
        -- intro Hrest. apply In_nth_error in Hrest. destruct Hrest as [j' Hj'].
           apply (Hlast (S j')); [lia | exact Hj'].
      * simpl in Hj. destruct (Hin j Hj) as [v' [Hv' Hget]].
        -- intros j' Hlt. apply (Hlast (S j')). lia.
        -- exists v'. replace (i + S j) with (S i + j) by lia.
           split; assumption.
Qed.

(** X5.  Pulling an [EvaluatedHash] gives an object in which each key holds
    the value pulled from the reference at the last index where the key
    occurs, and which has no other key: with a key given twice the pulled
    object shows the later value, where [at] answers with the earlier
    reference. *)
Theorem EvaluatedHash_value_last_key_wins :
  forall (w : World) (values : list Reference) (keys : list InternedString)
         (sources : list Reference) (pulled : JsVal),
    Reference_value w (EvaluatedHash values keys sources) = Ok pulled ->
    exists h,
      pulled = JObj h
      /\ (forall key, ~ In key keys -> dict_get key h = None)
      /\ (forall key j,
             nth_error keys j = Some key ->
             (forall j', j < j' -> nth_error keys j' <> Some key) ->
             exists r v,
               nth_error values j = Some r
               /\ Reference_value w r = Ok v
               /\ dict_get key h = Some v).
Proof.
  intros w values keys sources pulled H. simpl in H.
  apply bind_Ok_inv in H. destruct H as [h [Hh H]].
  inversion H; subst pulled. exists h. split; [reflexivity |].
  split.
  - intros key Hnot.
    rewrite (proj1 (hash_value_spec _ keys 0 [] h Hh key) Hnot). reflexivity.
  - intros key j Hj Hlast.
    destruct (proj2 (hash_value_spec _ keys 0 [] h Hh key) j Hj Hlast)
      as [v [Hv Hget]].
    simpl in Hv. rewrite nth_error_map in Hv.
    destruct (nth_error values j) as [r |] eqn:Hr; [| discriminate Hv].
    simpl in Hv. inversion Hv as [Hpull].
    exists r, v. split; [reflexivity |]. split; [exact Hpull | exact Hget].
Qed.

Lemma EvaluatedHash_value_last_key_wins_witness :
  exists h,
    Reference_value example_world
      (Hash_evaluate example_frame
         (mkHash ["k"; "other"; "k"]
                 [Value (JNum 1); Value (JNum 2); Value (JNum 3)]))
    = Ok (JObj h)
    /\ dict_get "k" h = Some (JNum 3).
Proof.
  destruct (EvaluatedHash_value_last_key_wins example_world
              [ConstReference (JNum 1); ConstReference (JNum 2); ConstReference (JNum 3)]
              ["k"; "other"; "k"]
              [ConstReference (JNum 1); ConstReference (JNum 2); ConstReference (JNum 3)]
              (JObj [("k", JNum 3); ("other", JNum 2)]) eq_refl)
    as [h [Hh [_ Hlast]]].
  exists h. split; [rewrite <- Hh; reflexivity |].
  destruct (Hlast "k" 2 eq_refl) as [r [v [Hr [Hv Hget]]]].
  - intros j' Hj'. destruct j' as [| [| [| j']]]; try lia; simpl; destruct j'; discriminate.
  - simpl in Hr. inversion Hr; subst r. simpl in Hv. inversion Hv; subst v.
    exact Hget.
Defined.

(** X6.  [Params.evaluate] evaluates the parameters in order, one reference
    each, every one registered as a source: [nth(n)] is the evaluation of
    parameter [n], [first()] and [last()] those of the first and the last
    parameter, and all three give [undefined] on the empty list.  Pulling
    returns an array exactly when every parameter pulls, with the pulled
    values in order. *)
Theorem Params_evaluate_in_order :
  forall (frame : Frame) (w : World) (params : list Expression),
    let references := map (Expression_evaluate frame) params in
    Params_evaluate frame (mkParams params) = EvaluatedParams references references
    /\ (forall n, EvaluatedParams_nth references n
                  = option_map (Expression_evaluate frame) (nth_error params n))
    /\ EvaluatedParams_first references
       = option_map (Expression_evaluate frame) (hd_error params)
    /\ EvaluatedParams_last references
       = option_map (Expression_evaluate frame) (hd_error (rev params))
    /\ (forall vs,
           Reference_value w (Params_evaluate frame (mkParams params)) = Ok (JArr vs)
           <-> Forall2 (fun e v => Reference_value w (Expression_evaluate frame e) = Ok v)
                       params vs).
Proof.
  intros frame w params references.
  split; [apply EvaluatedParams_sources |].
  split; [intro n; apply nth_error_map |].
  split; [destruct params; reflexivity |].
  split.
  - unfold EvaluatedParams_last, EvaluatedParams_nth, js_index, references.
    destruct params as [| p rest] eqn:Hp; [reflexivity |].
    rewrite <- Hp. assert (Hne : params <> []) by (rewrite Hp; discriminate).
    clear Hp. destruct (exists_last Hne) as [front [final Hfinal]]. subst params.
    rewrite map_app, rev_app_distr. simpl.
    destruct (map (Expression_evaluate frame) front ++ [Expression_evaluate frame final])
      eqn:Hmap.
    + destruct (map (Expression_evaluate frame) front); discriminate Hmap.
    + rewrite <- Hmap. rewrite length_app, length_map. simpl.
      rewrite nth_error_app2 by (rewrite length_map; lia).
      rewrite length_map. replace (List.length front + 1 - 1 - List.length front) with 0 by lia.
      reflexivity.
  - intro vs. rewrite EvaluatedParams_sources.
    change (Reference_value w
              (EvaluatedParams (map (Expression_evaluate frame) params)
                               (map (Expression_evaluate frame) params)))
      with (vs' <- mapM (Reference_value w) (map (Expression_evaluate frame) params) ;;
            Ok (JArr vs')).
    clear references. split.
    + intro H. apply bind_Ok_inv in H. destruct H as [vs' [Hvs H]].
      inversion H; subst vs'. apply mapM_Forall2 in Hvs.
      clear H. revert vs Hvs.
      induction params as [| p rest IH]; intros vs Hvs.
      * inversion Hvs. constructor.
      * inversion Hvs; subst. constructor; [assumption | apply IH; assumption].
    + intro H.
      assert (Hvs : mapM (Reference_value w) (map (Expression_evaluate frame) params)
                    = Ok vs).
      { apply mapM_Forall2. induction H; simpl; constructor; assumption. }
      rewrite Hvs. reflexivity.
Qed.

Lemma Params_evaluate_in_order_witness :
  EvaluatedParams_last (map (Expression_evaluate example_frame)
                            [Value (JNum 1); Get (new_Ref ["user"])])
  = Some (RootReference (Some "user"))
  /\ Reference_value example_world
       (Params_evaluate example_frame (mkParams [Value (JNum 1); Get (new_Ref ["user"])]))
     = Ok (JArr [JNum 1; JStr "value"]).
Proof.
  destruct (Params_evaluate_in_order example_frame example_world
              [Value (JNum 1); Get (new_Ref ["user"])])
    as [_ [_ [_ [Hlast Hpull]]]].
  split; [exact Hlast |].
  apply (proj2 (Hpull [JNum 1; JStr "value"])).
  repeat constructor.
Defined.

(* ------------------------------------------------------------------ *)
(** ** Templates: construction *)

(** X7.  [clone()] of a template made by the constructor is equal to it
    field for field: the statements are copied in order, the arity is
    computed again from the locals and comes out the same, and the root,
    position, meta, spec and [isEmpty] are carried over. *)
Theorem Template_clone_equal :
  forall o : TemplateOptions,
    Template_clone (new_Template o) = new_Template o
    /\ Template_arity (new_Template o) = List.length (Template_locals (new_Template o)).
Proof.
  intros [meta root position locals statements spec isEmpty].
  unfold Template_clone, new_Template. simpl.
  destruct locals; split; reflexivity.
Qed.

(** X8.  When [Template.fromSpec] returns, the array it stores has one
    template per descriptor and leaves the arrays stored before untouched;
    the template at index [j] has position [j], the new array as its root,
    the descriptor as its [spec], the locals of the descriptor (none when it
    has none) with their number as arity, and one statement per tuple of the
    descriptor.  The template returned is [undefined] exactly when there is
    no descriptor.  For [fromSpec] and for [fromStatements] alike,
    [isEmpty] is set exactly when the template has no statement. *)
Theorem Template_fromSpec_layout :
  (forall (store store' : Store) (specs : list TemplateSpec)
          (produced : option Template),
      Template_fromSpec store specs = Ok (store', produced) ->
      exists root,
        store' = store ++ [root]
        /\ List.length root = List.length specs
        /\ (produced = None <-> specs = [])
        /\ forall j t,
             nth_error root j = Some t ->
             exists spec,
               nth_error specs j = Some spec
               /\ Template_position t = Some j
               /\ Template_root t = Some (List.length store)
               /\ Template_spec t = Some spec
               /\ Template_locals t = or_default (spec_locals spec) []
               /\ Template_arity t = List.length (Template_locals t)
               /\ List.length (Template_statements t)
                  = List.length (spec_statements spec)
               /\ Template_isEmpty t
                  = Nat.eqb (List.length (Template_statements t)) 0)
  /\ (forall statements : list Statement,
         Template_isEmpty (Template_fromStatements statements)
         = Nat.eqb (List.length (Template_statements (Template_fromStatements statements))) 0
         /\ Template_root (Template_fromStatements statements) = None
         /\ Template_position (Template_fromStatements statements) = None
         /\ Template_arity (Template_fromStatements statements) = 0).
Proof.
  split.
  - intros store store' specs produced H.
    destruct (Template_fromSpec_spec store store' specs produced H)
      as [root [Hstore [Hroot [Hlen [Hlast Hnth]]]]].
    exists root. split; [exact Hstore |]. split; [exact Hlen |]. split.
    + rewrite Hlast. split.
      * intro Hnone. apply nth_error_None in Hnone.
        destruct specs; [reflexivity | simpl in *; lia].
      * intro Hspecs. subst specs. destruct root; [reflexivity | discriminate Hlen].
    + intros j t Hj.
      assert (Hlt : j < List.length specs).
      { rewrite <- Hlen. apply nth_error_Some. rewrite Hj. discriminate. }
      destruct (nth_error specs j) as [spec |] eqn:Hspec;
        [| apply nth_error_None in Hspec; lia].
      destruct (Hnth j spec Hspec) as [t' [Ht' [statements [Hbuilt Ht]]]].
      rewrite Hj in Ht'. inversion Ht'; subst t'. clear Ht'.
      exists spec. split; [reflexivity |].
      destruct (buildStatements_spec _ _ _ Hbuilt) as [Hblen _].
      subst t. simpl. rewrite Hblen.
      repeat split; try reflexivity. destruct (spec_locals spec); reflexivity.
  - intro statements. repeat split.
Qed.

Lemma Template_fromSpec_layout_witness :
  exists store' template,
    Template_fromSpec [] example_specs = Ok (store', Some template)
    /\ Template_position template = Some 1
    /\ Template_arity template = 1
    /\ Template_isEmpty template = false.
Proof.
  destruct (Template_fromSpec [] example_specs) as [[store' produced] | e] eqn:H;
    [| discriminate H].
  destruct (proj1 Template_fromSpec_layout [] store' example_specs produced H)
    as [root [_ [_ [_ Hat]]]].
  vm_compute in H. inversion H; subst store' produced.
  eexists. eexists. split; [reflexivity |]. repeat split.
Defined.

Lemma marking_keeps_nodes (b : bool) (f : Statement -> Statement)
      (built built' : list Statement) (i : nat) :
  (forall s, Statement_node (f s) = Statement_node s) ->
  (if b then set_at built i f else Ok built) = Ok built' ->
  forall j s, nth_error built' j = Some s ->
              exists s0, nth_error built j = Some s0
                         /\ Statement_node s = Statement_node s0.
Proof.
  intros Hf H j s Hj. destruct b.
  - destruct (set_at_spec f built i built' H) as [_ Hnth].
    rewrite Hnth in Hj. destruct (Nat.eqb j i).
    + destruct (nth_error built j) as [s0 |]; [| discriminate Hj].
      simpl in Hj. inversion Hj; subst s. exists s0. split; [reflexivity | apply Hf].
    + exists s. split; [exact Hj | reflexivity].
  - inversion H; subst built'. exists s. split; [exact Hj | reflexivity].
Qed.

(** Each statement of the list [buildStatements] returns is the decoding of
    the tuple at its index, up to the markers. *)
Lemma buildStatements_nodes (statements : list StatementSexp) (siblings : list Template)
      (built : list Statement) :
  buildStatements statements siblings = Ok built ->
  forall i s,
    nth_error built i = Some s ->
    exists sx s0,
      nth_error statements i = Some sx
      /\ Statement_fromSpec sx siblings = Ok s0
      /\ Statement_node s = Statement_node s0.
Proof.
  unfold buildStatements. destruct statements as [| first rest] eqn:Hstatements.
  - intro H. inversion H; subst built. intros i s Hi. destruct i; discriminate Hi.
  - rewrite <- Hstatements. intro H.
    apply bind_Ok_inv in H. destruct H as [built0 [Hmap H]].
    apply bind_Ok_inv in H. destruct H as [built1 [Hfront H]].
    destruct (js_index statements (List.length statements - 1)) as [final |];
      [| discriminate H].
    intros i s Hi.
    destruct (marking_keeps_nodes _ set_backBoundary built1 built _
                (fun s => eq_refl) H i s Hi) as [s1 [Hs1 Hnode1]].
    destruct (marking_keeps_nodes _ set_frontBoundary built0 built1 _
                (fun s => eq_refl) Hfront i s1 Hs1) as [s0 [Hs0 Hnode0]].
    destruct (mapM_nth_error _ _ _ Hmap i s0 Hs0) as [sx [Hsx Hdec]].
    exists sx, s0. split; [exact Hsx |]. split; [exact Hdec |].
    rewrite Hnode1. exact Hnode0.
Qed.

(** The sub-templates of a decoded block-shaped statement. *)
Lemma decoded_statement_templates :
  forall (store store' : Store) (specs : list TemplateSpec)
         (produced : option Template),
    Template_fromSpec store specs = Ok (store', produced) ->
    forall root j t i s,
      nth_error store' (List.length store) = Some root ->
      nth_error root j = Some t ->
      nth_error (Template_statements t) i = Some s ->
      exists spec sx,
        nth_error specs j = Some spec
        /\ nth_error (spec_statements spec) i = Some sx
        /\ forall templateId inverseId,
             sexp_templateIds sx = Some (templateId, inverseId) ->
             Statement_templates s
             = Some (mkTemplates (resolve_at j root templateId)
                                 (resolve_at j root inverseId))
             /\ (forall k child,
                    resolve_at j root (Some k) = Some child ->
                    k < j /\ Template_position child = Some k).
Proof.
  intros store store' specs produced H root j t i s Hroot Hj Hi.
  destruct (Template_fromSpec_spec store store' specs produced H)
    as [root' [_ [Hroot' [Hlen [_ Hnth]]]]].
  rewrite Hroot in Hroot'. inversion Hroot'; subst root'. clear Hroot'.
  assert (Hlt : j < List.length specs).
  { rewrite <- Hlen. apply nth_error_Some. rewrite Hj. discriminate. }
  destruct (nth_error specs j) as [spec |] eqn:Hspec;
    [| apply nth_error_None in Hspec; lia].
  destruct (Hnth j spec Hspec) as [t' [Ht' [statements [Hbuilt Ht]]]].
  rewrite Hj in Ht'. inversion Ht'; subst t'. clear Ht'.
  subst t. simpl in Hi.
  destruct (buildStatements_nodes _ _ _ Hbuilt i s Hi) as [sx [s0 [Hsx [Hdec Hnode]]]].
  exists spec, sx. split; [reflexivity |]. split; [exact Hsx |].
  intros templateId inverseId Hids.
  assert (Hresolve : forall id,
             match id with
             | None => None
             | Some k => js_index (firstn j root) k
             end = resolve_at j root id).
  { intros [k |]; [| reflexivity]. unfold js_index. simpl.
    apply nth_error_firstn. }
  split.
  - unfold Statement_templates. rewrite Hnode.
    destruct sx; simpl in Hids; inversion Hids; subst; simpl in Hdec;
      unfold Block_fromSpec, Component_fromSpec in Hdec;
      decode_inv Hdec; simpl; unfold Templates_fromSpec;
      rewrite !Hresolve; reflexivity.
  - intros k child Hchild. simpl in Hchild.
    destruct (Nat.ltb k j) eqn:Hk; [| discriminate Hchild].
    apply Nat.ltb_lt in Hk. split; [exact Hk |].
    assert (Hklt : k < List.length specs) by lia.
    destruct (nth_error specs k) as [spec_k |] eqn:Hspec_k;
      [| apply nth_error_None in Hspec_k; lia].
    destruct (Hnth k spec_k Hspec_k) as [c [Hc [statements_k [_ Heq]]]].
    rewrite Hchild in Hc. inversion Hc; subst c. subst child. reflexivity.
Qed.

(** X9.  In a decoded array, a block or component statement of the template
    at index [j] holds as default and as inverse template the templates
    found at the indices of its tuple when these are smaller than [j]; an
    index that is [null], that points at the template itself or at a later
    one, or that is past the end of the array, gives no template.  A
    template found that way has the index as its position. *)
Theorem sub_templates_resolve_to_earlier_siblings :
  forall (store store' : Store) (specs : list TemplateSpec)
         (produced : option Template),
    Template_fromSpec store specs = Ok (store', produced) ->
    forall root j t i s,
      nth_error store' (List.length store) = Some root ->
      nth_error root j = Some t ->
      nth_error (Template_statements t) i = Some s ->
      exists spec sx,
        nth_error specs j = Some spec
        /\ nth_error (spec_statements spec) i = Some sx
        /\ forall templateId inverseId,
             sexp_templateIds sx = Some (templateId, inverseId) ->
             Statement_templates s
             = Some (mkTemplates (resolve_at j root templateId)
                                 (resolve_at j root inverseId))
             /\ (forall k child,
                    resolve_at j root (Some k) = Some child ->
                    k < j /\ Template_position child = Some k).
Proof. exact decoded_statement_templates. Qed.

Lemma sub_templates_resolve_to_earlier_siblings_witness :
  exists store' root t s child,
    Template_fromSpec [] example_specs = Ok (store', Some t)
    /\ nth_error store' 0 = Some root
    /\ nth_error (Template_statements t) 2 = Some s
    /\ nth_error root 0 = Some child
    /\ Statement_templates s = Some (mkTemplates (Some child) None).
Proof.
  destruct (Template_fromSpec [] example_specs) as [[store' produced] | e] eqn:H;
    [| discriminate H].
  pose proof (sub_templates_resolve_to_earlier_siblings
                [] store' example_specs produced H) as Hsub.
  vm_compute in H. inversion H; subst store' produced. clear H.
  eexists. eexists. eexists. eexists. eexists.
  split; [reflexivity |]. split; [reflexivity |]. split; [reflexivity |].
  split; [reflexivity |].
  edestruct (Hsub _ 1 _ 2 _ eq_refl eq_refl eq_refl)
    as [spec [sx [Hspec [Hsx Hids]]]].
  vm_compute in Hspec. inversion Hspec; subst spec.
  vm_compute in Hsx. inversion Hsx; subst sx.
  exact (proj1 (Hids (Some 0) None eq_refl)).
Defined.

(* ------------------------------------------------------------------ *)
(** ** Decoding: when it throws *)

Lemma is_ok_bind {A B : Type} (c : result A) (k : A -> result B) :
  is_ok (bind c k) = match c with Ok a => is_ok (k a) | Throw _ => false end.
Proof. destruct c; reflexivity. Qed.

Lemma is_ok_mapM {A B : Type} (f : A -> result B) (l : list A) :
  is_ok (mapM f l) = forallb (fun x => is_ok (f x)) l.
Proof.
  induction l as [| x rest IH]; [reflexivity |].
  rewrite mapM_cons. simpl. destruct (f x) as [y | e]; simpl; [| reflexivity].
  rewrite is_ok_bind. destruct (mapM f rest); simpl in *; rewrite <- IH; reflexivity.
Qed.

Lemma forallb_ext_Forall {A : Type} (f g : A -> bool) (l : list A) :
  Forall (fun x => f x = g x) l -> forallb f l = forallb g l.
Proof.
  induction 1 as [| x rest Hx _ IH]; simpl; [reflexivity |].
  rewrite Hx, IH. reflexivity.
Qed.

Lemma is_ok_Hash_fromSpec_loop (build : ExpressionSexp -> result Expression) :
  forall (pairs : list (InternedString * ExpressionSexp))
         (keys : list InternedString) (values : list Expression),
    is_ok (Hash_fromSpec_loop build pairs keys values)
    = forallb (fun kv => is_ok (build (snd kv))) pairs.
Proof.
  induction pairs as [| [key expr] rest IH]; intros keys values; simpl.
  - reflexivity.
  - destruct (build expr) as [e | err]; simpl; [apply IH | reflexivity].
Qed.

Section KnownTags.
Let decodes_iff_known (s : ExpressionSexp) : Prop :=
  is_ok (buildExpression s) = ExpressionSexp_known s.

Lemma is_ok_Params_fromSpec (params : ParamsSexp) :
  all_params decodes_iff_known params ->
  is_ok (Params_fromSpec_with buildExpression params) = ParamsSexp_known params.
Proof.
  intro Hall. destruct params as [[| x l] |]; try reflexivity.
  unfold Params_fromSpec_with. rewrite is_ok_bind.
  transitivity (is_ok (mapM buildExpression (x :: l))).
  { destruct (mapM buildExpression (x :: l)); reflexivity. }
  rewrite is_ok_mapM. exact (forallb_ext_Forall _ _ _ Hall).
Qed.

Lemma is_ok_Hash_fromSpec (hash : HashSexp) :
  all_pairs decodes_iff_known hash ->
  is_ok (Hash_fromSpec_with buildExpression hash) = HashSexp_known hash.
Proof.
  intro Hall. destruct hash as [pairs |]; [| reflexivity].
  simpl. rewrite is_ok_Hash_fromSpec_loop.
  apply forallb_ext_Forall. simpl in Hall.
  eapply Forall_impl; [| exact Hall]. intros [k v] H. exact H.
Qed.

Lemma is_ok_ParamsAndHash_fromSpec (params : ParamsSexp) (hash : HashSexp) :
  all_params decodes_iff_known params ->
  all_pairs decodes_iff_known hash ->
  is_ok (ParamsAndHash_fromSpec_with buildExpression params hash)
  = ParamsSexp_known params && HashSexp_known hash.
Proof.
  intros Hp Hh. unfold ParamsAndHash_fromSpec_with.
  rewrite is_ok_bind, <- (is_ok_Params_fromSpec params Hp).
  destruct (Params_fromSpec_with buildExpression params); [| reflexivity].
  rewrite is_ok_bind, <- (is_ok_Hash_fromSpec hash Hh).
  destruct (Hash_fromSpec_with buildExpression hash); reflexivity.
Qed.

Lemma is_ok_buildExpression (s : ExpressionSexp) : decodes_iff_known s.
Proof.
  induction s using ExpressionSexp_nested_ind; unfold decodes_iff_known.
  - reflexivity.
  - reflexivity.
  - change (ExpressionSexp_known (XHelper path params hash))
      with (ParamsSexp_known params && HashSexp_known hash).
    change (buildExpression (XHelper path params hash))
      with (args <- ParamsAndHash_fromSpec_with buildExpression params hash ;;
            Ok (Helper (new_Ref path) args)).
    rewrite is_ok_bind.
    rewrite <- (is_ok_ParamsAndHash_fromSpec params hash H H0).
    destruct (ParamsAndHash_fromSpec_with buildExpression params hash); reflexivity.
  - change (ExpressionSexp_known (XConcat params)) with (ParamsSexp_known params).
    change (buildExpression (XConcat params))
      with (parts <- Params_fromSpec_with buildExpression params ;; Ok (Concat parts)).
    rewrite is_ok_bind.
    rewrite <- (is_ok_Params_fromSpec params H).
    destruct (Params_fromSpec_with buildExpression params); reflexivity.
  - reflexivity.
Qed.
End KnownTags.

Lemma all_params_known (params : ParamsSexp) :
  all_params (fun s => is_ok (buildExpression s) = ExpressionSexp_known s) params.
Proof.
  destruct params as [l |]; simpl; [| exact I].
  apply Forall_forall. intros s _. apply is_ok_buildExpression.
Qed.

Lemma all_pairs_known (hash : HashSexp) :
  all_pairs (fun s => is_ok (buildExpression s) = ExpressionSexp_known s) hash.
Proof.
  destruct hash as [l |]; simpl; [| exact I].
  apply Forall_forall. intros kv _. apply is_ok_buildExpression.
Qed.

Lemma is_ok_Statement_fromSpec (statement : StatementSexp) (siblings : list Template) :
  is_ok (Statement_fromSpec statement siblings) = StatementSexp_known statement.
Proof.
  destruct statement; simpl; try reflexivity;
    unfold Block_fromSpec, Inline_fromSpec, DynamicAttr_fromSpec,
           DynamicProp_fromSpec, Component_fromSpec;
    rewrite is_ok_bind.
  - rewrite <- (is_ok_ParamsAndHash_fromSpec params hash
                  (all_params_known params) (all_pairs_known hash)).
    unfold ParamsAndHash_fromSpec.
    destruct (ParamsAndHash_fromSpec_with buildExpression params hash); reflexivity.
  - rewrite <- (is_ok_ParamsAndHash_fromSpec params hash
                  (all_params_known params) (all_pairs_known hash)).
    unfold ParamsAndHash_fromSpec.
    destruct (ParamsAndHash_fromSpec_with buildExpression params hash); reflexivity.
  - rewrite <- (is_ok_buildExpression value).
    destruct (buildExpression value); reflexivity.
  - rewrite <- (is_ok_buildExpression value).
    destruct (buildExpression value); reflexivity.
  - rewrite <- (is_ok_Hash_fromSpec attrs (all_pairs_known attrs)).
    unfold Hash_fromSpec.
    destruct (Hash_fromSpec_with buildExpression attrs); reflexivity.
Qed.

Lemma is_ok_buildStatements (statements : list StatementSexp) (siblings : list Template) :
  is_ok (buildStatements statements siblings) = forallb StatementSexp_known statements.
Proof.
  unfold buildStatements. destruct statements as [| first rest] eqn:Hstatements;
    [reflexivity |].
  rewrite <- Hstatements.
  rewrite <- (forallb_ext_Forall
                (fun sx => is_ok (Statement_fromSpec sx siblings)) StatementSexp_known)
    by (apply Forall_forall; intros sx _; apply is_ok_Statement_fromSpec).
  rewrite <- is_ok_mapM, is_ok_bind.
  destruct (mapM (fun statement => Statement_fromSpec statement siblings) statements)
    as [built0 | e] eqn:Hmap; [| reflexivity].
  pose proof (mapM_length _ _ _ Hmap) as Hlen0.
  assert (Hpos : 0 < List.length statements) by (rewrite Hstatements; simpl; lia).
  assert (Hfront : exists built1,
             (if BOUNDARY_CANDIDATES (sexp_tag first)
              then set_at built0 0 set_frontBoundary else Ok built0) = Ok built1
             /\ List.length built1 = List.length built0).
  { destruct (BOUNDARY_CANDIDATES (sexp_tag first)).
    - destruct (set_at_Ok set_frontBoundary built0 0) as [built1 H1]; [lia |].
      exists built1. split; [exact H1 |].
      exact (proj1 (set_at_spec _ _ _ _ H1)).
    - exists built0. split; reflexivity. }
  destruct Hfront as [built1 [Hfront Hlen1]]. rewrite Hfront. simpl.
  unfold js_index.
  destruct (nth_error statements (List.length statements - 1)) as [final |] eqn:Hfinal;
    [| apply nth_error_None in Hfinal; lia].
  destruct (BOUNDARY_CANDIDATES (sexp_tag final)); [| reflexivity].
  destruct (set_at_Ok set_backBoundary built1 (List.length built1 - 1)) as [built H2];
    [lia |].
  rewrite H2. reflexivity.
Qed.

Lemma is_ok_Template_fromSpec_loop (root : RootId) :
  forall (specs : list TemplateSpec) (i : nat) (templates : list Template),
    is_ok (Template_fromSpec_loop root specs i templates)
    = forallb (fun spec => forallb StatementSexp_known (spec_statements spec)) specs.
Proof.
  induction specs as [| spec rest IH]; intros i templates; simpl.
  - reflexivity.
  - rewrite is_ok_bind, <- (is_ok_buildStatements (spec_statements spec) templates).
    destruct (buildStatements (spec_statements spec) templates); simpl;
      [apply IH | reflexivity].
Qed.

(** X10.  Decoding throws on unknown tags and on nothing else:
    [buildExpression], the [fromSpec] of a statement, [buildStatements] and
    [Template.fromSpec] return exactly when every statement tuple has a tag
    of [StatementNodes] and every expression tuple inside, at any depth, a
    tag of [ExpressionNodes]; whatever the sibling array and the store. *)
Theorem decoding_throws_exactly_on_unknown_tags :
  (forall s : ExpressionSexp,
      is_ok (buildExpression s) = ExpressionSexp_known s)
  /\ (forall (statement : StatementSexp) (siblings : list Template),
         is_ok (Statement_fromSpec statement siblings) = StatementSexp_known statement)
  /\ (forall (statements : list StatementSexp) (siblings : list Template),
         is_ok (buildStatements statements siblings)
         = forallb StatementSexp_known statements)
  /\ (forall (store : Store) (specs : list TemplateSpec),
         is_ok (Template_fromSpec store specs)
         = forallb (fun spec => forallb StatementSexp_known (spec_statements spec)) specs).
Proof.
  split; [exact is_ok_buildExpression |].
  split; [exact is_ok_Statement_fromSpec |].
  split; [exact is_ok_buildStatements |].
  intros store specs. unfold Template_fromSpec. rewrite is_ok_bind.
  rewrite <- (is_ok_Template_fromSpec_loop (List.length store) specs 0 []).
  destruct (Template_fromSpec_loop (List.length store) specs 0 []); reflexivity.
Qed.

(* ------------------------------------------------------------------ *)
(** ** Evaluating statements and templates *)

(** The calls of static and of dynamic statements. *)
Lemma statement_call_kinds :
  forall s : Statement,
    is_Foreign s = false ->
    (Statement_isStatic s = true ->
     exists c,
       (forall frame, Statement_evaluate s frame = Ok c)
       /\ forall stack, morphs (ElementStack_call stack c) = morphs stack)
    /\ (Statement_isStatic s = false ->
        forall frame c,
          Statement_evaluate s frame = Ok c ->
          exists Kind options,
            (c = createMorph Kind options \/ c = createContentMorph Kind options)
            /\ forall stack,
                morphs (ElementStack_call stack c) = morphs stack ++ [(Kind, options)]).
Proof.
  intros [node front back] Hforeign.
  unfold is_Foreign, Statement_isStatic, Statement_evaluate in *. simpl in *.
  split.
  - intro Hstatic. destruct node; try discriminate Hstatic; try discriminate Hforeign;
      try (eexists; split; [intro frame; reflexivity | intro stack; reflexivity]).
    unfold StaticAttr_evaluate. destruct (truthy namespace); [destruct namespace |];
      (eexists; split; [intro frame; reflexivity | intro stack; reflexivity]).
  - intros Hdynamic frame c Hc.
    destruct node; try discriminate Hdynamic; try discriminate Hforeign;
      try (inversion Hc; subst c; eexists; eexists;
           split; [(left; reflexivity) || (right; reflexivity) | intro stack; reflexivity]).
    unfold Component_evaluate in Hc.
    destruct (getComponentDefinition frame (Ref_path path) (Component path hash templates)).
    + inversion Hc; subst c. eexists; eexists.
      split; [right; reflexivity | intro stack; reflexivity].
    + destruct (hasHelper frame (Ref_path path)).
      * destruct hash; [| discriminate Hc]. inversion Hc; subst c. eexists; eexists.
        split; [right; reflexivity | intro stack; reflexivity].
      * inversion Hc; subst c. eexists; eexists.
        split; [right; reflexivity | intro stack; reflexivity].
Qed.

(** X11.  A statement of a class of the file that is flagged static
    evaluates to the same single call whatever the frame, and that call adds
    no render node to the stack; one that is flagged dynamic, whenever its
    [evaluate] returns, has issued a [createMorph] or [createContentMorph]
    call, which adds exactly one render node. *)
Theorem static_statements_never_read_the_frame :
  forall s : Statement,
    is_Foreign s = false ->
    (Statement_isStatic s = true ->
     exists c,
       (forall frame, Statement_evaluate s frame = Ok c)
       /\ forall stack, morphs (ElementStack_call stack c) = morphs stack)
    /\ (Statement_isStatic s = false ->
        forall frame c,
          Statement_evaluate s frame = Ok c ->
          exists Kind options,
            (c = createMorph Kind options \/ c = createContentMorph Kind options)
            /\ forall stack,
                morphs (ElementStack_call stack c) = morphs stack ++ [(Kind, options)]).
Proof. exact statement_call_kinds. Qed.

Lemma static_statements_never_read_the_frame_witness :
  is_Foreign (StaticAttr_build "class" (JStr "card") None) = false
  /\ Statement_isStatic (StaticAttr_build "class" (JStr "card") None) = true
  /\ exists c,
      (forall frame, Statement_evaluate (StaticAttr_build "class" (JStr "card") None) frame
                     = Ok c)
      /\ forall stack, morphs (ElementStack_call stack c) = morphs stack.
Proof.
  split; [reflexivity |]. split; [reflexivity |].
  exact (proj1 (static_statements_never_read_the_frame
                  (StaticAttr_build "class" (JStr "card") None) eq_refl) eq_refl).
Defined.

(** The stack after a list of calls. *)
Lemma ElementStack_calls_fold (cs : list BuilderCall) :
  forall stack,
    calls (fold_left ElementStack_call cs stack) = calls stack ++ cs.
Proof.
  induction cs as [| c rest IH]; intro stack; simpl.
  - rewrite app_nil_r. reflexivity.
  - rewrite IH. destruct c; simpl; rewrite <- app_assoc; reflexivity.
Qed.

Lemma appendStatements_calls (frame : Frame) :
  forall (statements : list Statement) (cs : list BuilderCall) (stack : ElementStack),
    Forall2 (fun s c => Statement_evaluate s frame = Ok c) statements cs ->
    appendStatements stack statements frame = Ok (fold_left ElementStack_call cs stack).
Proof.
  induction statements as [| s rest IH]; intros cs stack H.
  - inversion H. reflexivity.
  - inversion H as [| ? c ? cs' Hs Hrest]; subst. simpl.
    unfold appendStatement. rewrite Hs. simpl. apply IH. exact Hrest.
Qed.




(* ------------------------------------------------------------------ *)
(** ** Components without a hash, fallback elements *)

(** [forEach] stops at the first statement whose [evaluate] throws. *)
Lemma appendStatements_Throw (frame : Frame) (s : Statement) (e : JsError)
      (after : list Statement) :
  Statement_evaluate s frame = Throw e ->
  forall (before : list Statement) (stack : ElementStack),
    exists e', appendStatements stack (before ++ s :: after) frame = Throw e'.
Proof.
  intro Hs. induction before as [| b rest IH]; intro stack; simpl.
  - unfold appendStatement. rewrite Hs. simpl. eexists. reflexivity.
  - destruct (appendStatement stack b frame) as [stack1 | e1]; simpl.
    + apply IH.
    + eexists. reflexivity.
Qed.

(** X13.  A component built by [Component.build] without a hash holds
    [null] for it.  Evaluated on a frame that has a definition for its path
    it asks for a [ComponentMorph] whose attributes are [null]; on a frame
    that has no definition but a helper of that name its [evaluate] throws;
    on a frame that has neither it asks for a [FallbackMorph], whose [init]
    throws on the [null] hash.  Its [prettyPrint] throws as well, and so
    does evaluating a template that holds it when the helper branch is
    taken. *)
Theorem Component_without_hash :
  forall (path : string) (default inverse : option Template) (frame : Frame) (w : World),
    let s := Component_build path default inverse None in
    let p := internPath path in
    let definition :=
      getComponentDefinition frame p
        (Component (Ref_build path) None (Templates_build default inverse)) in
    (forall d, definition = Some d ->
       Statement_evaluate s frame
       = Ok (createContentMorph ComponentMorph (ComponentOptions d None default)))
    /\ (definition = None -> hasHelper frame p = true ->
        (exists e, Statement_evaluate s frame = Throw e)
        /\ forall before after,
            exists e,
              Template_evaluate (Template_fromStatements (before ++ s :: after)) frame
              = Throw e)
    /\ (definition = None -> hasHelper frame p = false ->
        Statement_evaluate s frame
        = Ok (createContentMorph FallbackMorph (FallbackOptions p None default))
        /\ exists e, FallbackMorph_init w frame p None default = Throw e)
    /\ (exists e, pretty s = Throw e).
Proof.
  intros path default inverse frame w s p definition.
  unfold Statement_evaluate, Component_evaluate. simpl. fold p. fold definition.
  split; [| split; [| split]].
  - intros d Hd. rewrite Hd. reflexivity.
  - intros Hnone Hhelper. rewrite Hnone, Hhelper.
    split; [eexists; reflexivity |].
    intros before after. unfold Template_evaluate, Template_evaluateWithStack.
    assert (Hs : Statement_evaluate s frame
                 = Throw (TypeError "null has no evaluate()")).
    { unfold Statement_evaluate, Component_evaluate. simpl.
      fold p. fold definition. rewrite Hnone, Hhelper. reflexivity. }
    destruct (appendStatements_Throw frame s _ after Hs before new_ElementStack)
      as [e' He'].
    change (Template_statements (Template_fromStatements (before ++ s :: after)))
      with (before ++ s :: after).
    rewrite He'. eexists. reflexivity.
  - intros Hnone Hhelper. rewrite Hnone, Hhelper.
    split; [reflexivity | eexists; reflexivity].
  - eexists. reflexivity.
Qed.

Lemma Component_without_hash_witness :
  getComponentDefinition example_frame (internPath "name")
    (Component (Ref_build "name") None (Templates_build None None)) = None
  /\ hasHelper example_frame (internPath "name") = true
  /\ exists e, Statement_evaluate (Component_build "name" None None None) example_frame
               = Throw e.
Proof.
  split; [reflexivity |]. split; [reflexivity |].
  destruct (Component_without_hash "name" None None example_frame example_world)
    as [_ [Hhelper _]].
  exact (proj1 (Hhelper eq_refl eq_refl)).
Defined.

(** The attributes [init] builds are attribute statements: their [evaluate]
    returns. *)
Lemma fallback_attrs_evaluate (w : World) (frame : Frame) (path : list InternedString)
      (hash : Hash) (template : option Template) (m : FallbackMorphState) :
  FallbackMorph_init w frame path (Some hash) template = Ok m ->
  fallback_tag m = hd_error path
  /\ fallback_template m = template
  /\ fallback_frame m = frame
  /\ exists cs,
      Forall2 (fun a c => Statement_evaluate a frame = Ok c) (fallback_attrs m) cs.
Proof.
  intro H.
  destruct (FallbackMorph_init_Ok w frame path hash template) as [attrs [Hinit [_ Hnth]]].
  rewrite Hinit in H. inversion H; subst m. clear H. simpl.
  split; [destruct path; reflexivity |]. split; [reflexivity |]. split; [reflexivity |].
  destruct (FallbackMorph_init_Ok w frame path hash template) as [attrs' [Hinit' [Hlen Hat]]].
  rewrite Hinit in Hinit'. inversion Hinit'; subst attrs'. clear Hinit'.
  assert (Hall : forall a, In a attrs -> exists c, Statement_evaluate a frame = Ok c).
  { intros a Ha. apply In_nth_error in Ha. destruct Ha as [i Hi].
    assert (Hlt : i < List.length (Hash_values hash)).
    { rewrite <- Hlen. apply nth_error_Some. rewrite Hi. discriminate. }
    destruct (nth_error (Hash_values hash) i) as [val |] eqn:Hval;
      [| apply nth_error_None in Hval; lia].
    destruct (Hat i val Hval) as [a' [Ha' [Hstatic Hdynamic]]].
    rewrite Hi in Ha'. inversion Ha'; subst a'.
    destruct (Expression_isStatic val).
    - destruct (Hstatic eq_refl) as [v [_ Heq]]. subst a. eexists. reflexivity.
    - rewrite (Hdynamic eq_refl). eexists. reflexivity. }
  clear Hinit Hnth Hlen Hat. induction attrs as [| a rest IH].
  - exists []. constructor.
  - destruct (Hall a (or_introl eq_refl)) as [c Hc].
    destruct IH as [cs Hcs]; [intros x Hx; apply Hall; right; exact Hx |].
    exists (c :: cs). constructor; assumption.
Qed.

(** X14.  [FallbackMorph.append], after [init] on a hash.  With no template
    ([null], as for a component whose tuple names none) it throws.  With an
    empty template it sends the stack, in this order, [openElement] with the
    first segment of the path, the call of each attribute and
    [closeElement].  With any other template it sends [openElement], the
    call of each attribute and one [createContentMorph] for a
    [SimpleTemplateMorph] on the template, calls [append] of the node
    created on that stack with the frame of the fallback node, and sends
    [closeElement] on what [append] leaves; when [append] throws, so does
    it. *)
Theorem FallbackMorph_append_brackets_the_element :
  forall (SimpleTemplateMorph_append :
            option Template -> Frame -> ElementStack -> result ElementStack)
         (w : World) (frame : Frame) (path : list InternedString) (hash : Hash)
         (template : option Template) (m : FallbackMorphState) (stack : ElementStack),
    FallbackMorph_init w frame path (Some hash) template = Ok m ->
    exists cs,
      Forall2 (fun a c => Statement_evaluate a frame = Ok c) (fallback_attrs m) cs
      /\ (template = None ->
          exists e, FallbackMorph_append SimpleTemplateMorph_append m stack = Throw e)
      /\ (forall t, template = Some t -> Template_isEmpty t = true ->
            exists stack',
              FallbackMorph_append SimpleTemplateMorph_append m stack = Ok stack'
              /\ calls stack'
                 = calls stack ++ [openElement (hd_error path)] ++ cs ++ [closeElement])
      /\ (forall t, template = Some t -> Template_isEmpty t = false ->
            exists created,
              calls created
              = calls stack
                ++ [openElement (hd_error path)]
                ++ cs
                ++ [createContentMorph SimpleTemplateMorph
                      (SimpleTemplateOptions (Some t))]
              /\ FallbackMorph_append SimpleTemplateMorph_append m stack
                 = match SimpleTemplateMorph_append (Some t) frame created with
                   | Ok rendered => Ok (ElementStack_call rendered closeElement)
                   | Throw e => Throw e
                   end).
Proof.
  intros render w frame path hash template m stack Hinit.
  destruct (fallback_attrs_evaluate w frame path hash template m Hinit)
    as [Htag [Htemplate [Hframe [cs Hcs]]]].
  exists cs. split; [exact Hcs |].
  unfold FallbackMorph_append. rewrite Htag, Htemplate, Hframe.
  rewrite (appendStatements_calls frame (fallback_attrs m) cs _ Hcs).
  unfold bind at 1.
  split; [| split].
  - intro Hnone. rewrite Hnone. eexists. reflexivity.
  - intros t Ht Hempty. rewrite Ht, Hempty. eexists. split; [reflexivity |].
    simpl. rewrite ElementStack_calls_fold. simpl.
    rewrite <- !app_assoc. reflexivity.
  - intros t Ht Hempty. rewrite Ht, Hempty.
    eexists. split; [| reflexivity].
    simpl. rewrite ElementStack_calls_fold. simpl.
    rewrite <- !app_assoc. reflexivity.
Qed.

Lemma FallbackMorph_append_brackets_the_element_witness :
  FallbackMorph_init example_world example_frame ["x-missing"]
    (Some (mkHash ["class"] [Value (JStr "card")])) (Some example_body)
  = Ok (mkFallback (Some "x-missing") (Some example_body)
          [mkStatement (StaticAttr "class" (JStr "card") None) false false]
          example_frame)
  /\ Template_isEmpty example_body = false
  /\ exists created,
      calls created
      = [openElement (Some "x-missing");
         setAttribute "class" (JStr "card");
         createContentMorph SimpleTemplateMorph
           (SimpleTemplateOptions (Some example_body))]
      /\ FallbackMorph_append
           (fun _ _ _ => Throw (Error "append"))
           (mkFallback (Some "x-missing") (Some example_body)
              [mkStatement (StaticAttr "class" (JStr "card") None) false false]
              example_frame)
           new_ElementStack
         = Throw (Error "append").
Proof.
  split; [reflexivity |]. split; [reflexivity |].
  destruct (FallbackMorph_append_brackets_the_element
              (fun _ _ _ => Throw (Error "append"))
              example_world example_frame ["x-missing"]
              (mkHash ["class"] [Value (JStr "card")]) (Some example_body)
              (mkFallback (Some "x-missing") (Some example_body)
                 [mkStatement (StaticAttr "class" (JStr "card") None) false false]
                 example_frame)
              new_ElementStack eq_refl)
    as [cs [Hcs [_ [_ Hrender]]]].
  destruct (Hrender example_body eq_refl eq_refl) as [created [Hcalls Happend]].
  exists created. split; [| exact Happend].
  inversion Hcs as [| a c l cs' Hc Hrest]; subst.
  inversion Hrest; subst. inversion Hc; subst c.
  exact Hcalls.
Defined.

(* ------------------------------------------------------------------ *)
(** ** Dumps, concatenation, literals *)

(** X15.  The dump keeps the trust flag apart and drops the difference
    between a static attribute and a dynamic attribute on a literal: the
    tuples [staticAttr] and [dynamicAttr] with the same name, string value
    and namespace decode to statements with the same dump, and an empty
    namespace prints like none; an [unknown] statement, and an [inline]
    statement whose arguments have a dump, print differently when trusting
    and when not. *)
Theorem prettyPrint_merges_attrs_and_keeps_trust :
  (forall (name value : InternedString) (namespace : option InternedString),
      (s <- DynamicAttr_fromSpec name (XLiteral (LStr value)) namespace ;; pretty s)
      = pretty (StaticAttr_fromSpec name value namespace))
  /\ (forall (name : InternedString) (value : Expression),
         pretty (new_Statement (DynamicAttr name value (Some "")))
         = pretty (new_Statement (DynamicAttr name value None)))
  /\ (forall path : list InternedString,
         pretty (Unknown_fromSpec path true) <> pretty (Unknown_fromSpec path false))
  /\ (forall (path : list InternedString) (args : ParamsAndHash) d,
         ParamsAndHash_prettyPrint args = Ok d ->
         pretty (new_Statement (Inline path true args))
         <> pretty (new_Statement (Inline path false args))).
Proof.
  split; [| split; [| split]].
  - intros name value namespace. reflexivity.
  - intros name value. reflexivity.
  - intros path H. discriminate H.
  - intros path args d Hd. unfold pretty. simpl. rewrite Hd. simpl.
    intro H. discriminate H.
Qed.

Lemma prettyPrint_merges_attrs_and_keeps_trust_witness :
  ParamsAndHash_prettyPrint ParamsAndHash_empty = Ok ([], [])
  /\ pretty (new_Statement (Inline ["name"] true ParamsAndHash_empty))
     <> pretty (new_Statement (Inline ["name"] false ParamsAndHash_empty)).
Proof.
  split; [reflexivity |].
  exact (proj2 (proj2 (proj2 prettyPrint_merges_attrs_and_keeps_trust))
           ["name"] ParamsAndHash_empty ([], []) eq_refl).
Defined.

Lemma mapM_app {A B : Type} (f : A -> result B) (l1 l2 : list A) :
  mapM f (l1 ++ l2) = (a <- mapM f l1 ;; b <- mapM f l2 ;; Ok (a ++ b)).
Proof.
  induction l1 as [| x rest IH].
  - simpl. destruct (mapM f l2); reflexivity.
  - rewrite <- app_comm_cons, !mapM_cons. destruct (f x) as [y | e]; simpl; [| reflexivity].
    rewrite IH. destruct (mapM f rest); simpl; [| reflexivity].
    destruct (mapM f l2); reflexivity.
Qed.

Lemma append_empty_r (s : string) : (s ++ "")%string = s.
Proof. induction s as [| c rest IH]; simpl; [| rewrite IH]; reflexivity. Qed.

Lemma append_assoc (a b c : string) : ((a ++ b) ++ c)%string = (a ++ (b ++ c))%string.
Proof. induction a as [| x rest IH]; simpl; [| rewrite IH]; reflexivity. Qed.

Lemma concat_empty_cons (x : string) (l : list string) :
  String.concat "" (x :: l) = (x ++ String.concat "" l)%string.
Proof.
  destruct l; simpl; [rewrite append_empty_r |]; reflexivity.
Qed.

Lemma concat_empty_app (l1 l2 : list string) :
  String.concat "" (l1 ++ l2)
  = (String.concat "" l1 ++ String.concat "" l2)%string.
Proof.
  induction l1 as [| x rest IH].
  - reflexivity.
  - rewrite <- app_comm_cons, !concat_empty_cons, IH, append_assoc. reflexivity.
Qed.

Lemma Concat_value (frame : Frame) (w : World) (ps : list Expression) :
  Reference_value w (Expression_evaluate frame (Concat (mkParams ps)))
  = (vs <- mapM (Reference_value w) (map (Expression_evaluate frame) ps) ;;
     Ok (JStr (js_join w "" vs))).
Proof. reflexivity. Qed.

(** X16.  Pulling an evaluated [Concat] joins the strings of its parts with
    no separator, so the concatenation of two part lists pulls the string of
    the first followed by the string of the second; it throws when a part
    does.  A [Concat] of string literals pulls their concatenation, on any
    frame and in any state of the world. *)
Theorem Concat_pulls_the_joined_parts :
  forall (frame : Frame) (w : World),
    (forall (ps qs : list Expression) (a b : JsVal),
        Reference_value w (Expression_evaluate frame (Concat (mkParams ps))) = Ok a ->
        Reference_value w (Expression_evaluate frame (Concat (mkParams qs))) = Ok b ->
        exists sa sb,
          a = JStr sa /\ b = JStr sb
          /\ Reference_value w (Expression_evaluate frame (Concat (mkParams (ps ++ qs))))
             = Ok (JStr (sa ++ sb)))
    /\ (forall (ps qs : list Expression) (p : Expression) (e : JsError),
           Reference_value w (Expression_evaluate frame p) = Throw e ->
           exists e',
             Reference_value w
               (Expression_evaluate frame (Concat (mkParams (ps ++ p :: qs))))
             = Throw e')
    /\ (forall strings : list string,
           Reference_value w
             (Expression_evaluate frame
                (Concat (mkParams (map (fun s => Value (JStr s)) strings))))
           = Ok (JStr (String.concat "" strings))).
Proof.
  intros frame w. split; [| split].
  - intros ps qs a b Ha Hb. rewrite Concat_value in Ha, Hb.
    apply bind_Ok_inv in Ha. destruct Ha as [va [Hva Ha]].
    apply bind_Ok_inv in Hb. destruct Hb as [vb [Hvb Hb]].
    inversion Ha; subst a. inversion Hb; subst b.
    eexists. eexists. split; [reflexivity |]. split; [reflexivity |].
    rewrite Concat_value, map_app, mapM_app, Hva, Hvb. simpl.
    unfold js_join, join. rewrite map_app, concat_empty_app. reflexivity.
  - intros ps qs p e Hp. rewrite Concat_value.
    destruct (mapM_Throw_In (Reference_value w)
                (map (Expression_evaluate frame) (ps ++ p :: qs))
                (Expression_evaluate frame p) e) as [e' He'].
    + apply in_map. apply in_or_app. right. left. reflexivity.
    + exact Hp.
    + rewrite He'. eexists. reflexivity.
  - intro strings. rewrite Concat_value.
    assert (H : mapM (Reference_value w)
                     (map (Expression_evaluate frame)
                          (map (fun s => Value (JStr s)) strings))
                = Ok (map JStr strings)).
    { induction strings as [| s rest IH]; [reflexivity |].
      simpl map. rewrite mapM_cons. simpl. rewrite IH. reflexivity. }
    rewrite H. simpl. unfold js_join, join. rewrite map_map. simpl.
    rewrite map_id. reflexivity.
Qed.

Lemma Concat_pulls_the_joined_parts_witness :
  Reference_value example_world
    (Expression_evaluate example_frame
       (Concat (mkParams ([Value (JStr "a"); Value (JNum 1)] ++ [Value (JStr "b")]))))
  = Ok (JStr "a1b").
Proof.
  destruct (proj1 (Concat_pulls_the_joined_parts example_frame example_world)
              [Value (JStr "a"); Value (JNum 1)] [Value (JStr "b")]
              (JStr "a1") (JStr "b") eq_refl eq_refl)
    as [sa [sb [Ha [Hb H]]]].
  inversion Ha; subst sa. inversion Hb; subst sb. exact H.
Defined.

Lemma Forall2_nth_error {A B : Type} (R : A -> B -> Prop) (l : list A) (l' : list B) :
  Forall2 R l l' ->
  forall i x, nth_error l i = Some x -> exists y, nth_error l' i = Some y /\ R x y.
Proof.
  induction 1 as [| a b l l' Hab Hrest IH]; intros i x Hi.
  - destruct i; discriminate Hi.
  - destruct i as [| i]; simpl in *.
    + inversion Hi; subst x. exists b. split; [reflexivity | exact Hab].
    + apply IH. exact Hi.
Qed.

Lemma buildExpression_static (sx : ExpressionSexp) (e : Expression) :
  buildExpression sx = Ok e ->
  Expression_isStatic e = true ->
  exists v, sx = XLiteral v.
Proof.
  intros H Hstatic. destruct sx; simpl in H; decode_inv H;
    try discriminate Hstatic; try discriminate.
  eexists. reflexivity.
Qed.

(** X17.  From the wire to the fallback element: for a hash decoded from an
    array of pairs, [FallbackMorph.init] returns with one attribute per
    pair, in order and under the key of the pair; the attribute of a pair
    whose value is a literal is the static attribute holding that literal,
    and the attribute of any other pair is the dynamic attribute on the
    decoded expression, both without a namespace. *)
Theorem fallback_attrs_follow_the_wire :
  forall (pairs : list (InternedString * ExpressionSexp)) (hash : Hash)
         (w : World) (frame : Frame) (path : list InternedString)
         (template : option Template),
    Hash_fromSpec (Some pairs) = Ok hash ->
    exists attrs,
      FallbackMorph_init w frame path (Some hash) template
      = Ok (mkFallback (nth_error path 0) template attrs frame)
      /\ List.length attrs = List.length pairs
      /\ forall i key sx,
           nth_error pairs i = Some (key, sx) ->
           exists attr,
             nth_error attrs i = Some attr
             /\ (forall v, sx = XLiteral v ->
                   attr = mkStatement (StaticAttr key (Literal_value v) None) false false)
             /\ ((forall v, sx <> XLiteral v) ->
                 exists e, buildExpression sx = Ok e
                           /\ attr = mkStatement (DynamicAttr key e None) false false).
Proof.
  intros pairs hash w frame path template H.
  unfold Hash_fromSpec, Hash_fromSpec_with in H.
  destruct (Hash_fromSpec_loop_spec buildExpression pairs [] [] hash H)
    as [built [Hhash Hall]].
  simpl in Hhash. subst hash.
  destruct (FallbackMorph_init_Ok w frame path (mkHash (map fst pairs) built) template)
    as [attrs [Hinit [Hlen Hat]]].
  exists attrs. split; [exact Hinit |]. simpl in *.
  split; [rewrite Hlen; symmetry; exact (Forall2_length Hall) |].
  intros i key sx Hi.
  destruct (Forall2_nth_error _ _ _ Hall i (key, sx) Hi) as [e [He Hdec]].
  simpl in Hdec.
  destruct (Hat i e He) as [attr [Hattr [Hstatic Hdynamic]]].
  unfold js_index in Hstatic, Hdynamic.
  rewrite nth_error_map, Hi in Hstatic, Hdynamic. simpl in Hstatic, Hdynamic.
  exists attr. split; [exact Hattr |]. split.
  - intros v Hv. subst sx. simpl in Hdec. inversion Hdec; subst e.
    destruct (Hstatic eq_refl) as [v' [Hpull Heq]].
    simpl in Hpull. inversion Hpull; subst v'. exact Heq.
  - intro Hnot. exists e. split; [exact Hdec |].
    apply Hdynamic. destruct (Expression_isStatic e) eqn:Hflag; [| reflexivity].
    destruct (buildExpression_static sx e Hdec Hflag) as [v Hv].
    exfalso. exact (Hnot v Hv).
Qed.

Lemma fallback_attrs_follow_the_wire_witness :
  Hash_fromSpec (Some [("class", XLiteral (LStr "card")); ("title", XGet ["heading"])])
  = Ok (mkHash ["class"; "title"] [Value (JStr "card"); Get (mkRef ["heading"])])
  /\ FallbackMorph_init example_world example_frame ["x-missing"]
       (Some (mkHash ["class"; "title"] [Value (JStr "card"); Get (mkRef ["heading"])]))
       None
     = Ok (mkFallback (Some "x-missing") None
             [mkStatement (StaticAttr "class" (JStr "card") None) false false;
              mkStatement (DynamicAttr "title" (Get (mkRef ["heading"])) None)
                          false false]
             example_frame).
Proof.
  split; [reflexivity |].
  destruct (fallback_attrs_follow_the_wire
              [("class", XLiteral (LStr "card")); ("title", XGet ["heading"])]
              (mkHash ["class"; "title"] [Value (JStr "card"); Get (mkRef ["heading"])])
              example_world example_frame ["x-missing"] None eq_refl)
    as [attrs [Hinit [Hlen Hattrs]]].
  destruct (Hattrs 0 "class" (XLiteral (LStr "card")) eq_refl)
    as [attr0 [Hattr0 [Hstatic _]]].
  pose proof (Hstatic (LStr "card") eq_refl) as Hbuilt0.
  destruct (Hattrs 1 "title" (XGet ["heading"]) eq_refl)
    as [attr1 [Hattr1 [_ Hdynamic]]].
  destruct Hdynamic as [e [He Hbuilt1]]; [intros v Hv; discriminate Hv |].
  simpl in He. inversion He; subst e.
  destruct attrs as [| a0 [| a1 [| a2 rest]]]; try discriminate Hlen.
  simpl in Hattr0, Hattr1. inversion Hattr0; inversion Hattr1; subst.
  exact Hinit.
Defined.

(** X18.  [buildStatements] returns one statement per tuple, in order, and
    the statement at an index is an object of the class that
    [StatementNodes] holds under the tag of the tuple at that index: its
    [type] is the type of that class and it is static exactly for the tags
    text, comment, openElement, closeElement and staticAttr. *)
Theorem decoded_statements_follow_the_tags :
  forall (statements : list StatementSexp) (siblings : list Template)
         (built : list Statement),
    buildStatements statements siblings = Ok built ->
    List.length built = List.length statements
    /\ forall i sx s,
         nth_error statements i = Some sx ->
         nth_error built i = Some s ->
         Statement_type s = tag_type (sexp_tag sx)
         /\ Statement_isStatic s = tag_static (sexp_tag sx)
         /\ is_Foreign s = false.
Proof.
  intros statements siblings built H.
  split; [exact (proj1 (buildStatements_spec _ _ _ H)) |].
  intros i sx s Hsx Hs.
  destruct (buildStatements_nodes _ _ _ H i s Hs) as [sx' [s0 [Hsx' [Hdec Hnode]]]].
  rewrite Hsx in Hsx'. inversion Hsx'; subst sx'. clear Hsx'.
  unfold Statement_type, Statement_isStatic, is_Foreign. rewrite Hnode.
  destruct sx; simpl in Hdec;
    unfold Block_fromSpec, Inline_fromSpec, DynamicAttr_fromSpec,
           DynamicProp_fromSpec, Component_fromSpec in Hdec;
    decode_inv Hdec; try discriminate; repeat split.
Qed.

Lemma decoded_statements_follow_the_tags_witness :
  exists built s,
    buildStatements [SDynamicAttr "href" (XGet ["url"]) None; SCloseElement] [] = Ok built
    /\ nth_error built 0 = Some s
    /\ Statement_type s = "dynamic-attr"
    /\ Statement_isStatic s = false.
Proof.
  destruct (buildStatements [SDynamicAttr "href" (XGet ["url"]) None; SCloseElement] [])
    as [built | e] eqn:H; [| discriminate H].
  pose proof (proj2 (decoded_statements_follow_the_tags _ _ built H)) as Htags.
  vm_compute in H. inversion H; subst built. clear H.
  eexists. eexists. split; [reflexivity |]. split; [reflexivity |].
  destruct (Htags 0 _ _ eq_refl eq_refl) as [Htype [Hstatic _]].
  split; [exact Htype | exact Hstatic].
Defined.

(** X19.  Decoding and then dumping gives the sub-template indices of the
    wire back: for a block or component statement of the decoded template at
    index [j], [Templates.prettyPrint] shows under [default] and [inverse]
    the indices of its tuple when they are smaller than [j], and [null] for
    an index that is [null] or not smaller than [j]. *)
Theorem Templates_prettyPrint_shows_the_wire_indices :
  forall (store store' : Store) (specs : list TemplateSpec)
         (produced : option Template),
    Template_fromSpec store specs = Ok (store', produced) ->
    forall root j t i s spec sx templateId inverseId,
      nth_error store' (List.length store) = Some root ->
      nth_error root j = Some t ->
      nth_error (Template_statements t) i = Some s ->
      nth_error specs j = Some spec ->
      nth_error (spec_statements spec) i = Some sx ->
      sexp_templateIds sx = Some (templateId, inverseId) ->
      exists templates,
        Statement_templates s = Some templates
        /\ Templates_prettyPrint templates
           = mkTemplatesDump (printed_index j templateId) (printed_index j inverseId).
Proof.
  intros store store' specs produced H root j t i s spec sx templateId inverseId
         Hroot Hj Hi Hspec Hsx Hids.
  destruct (decoded_statement_templates store store' specs produced H root j t i s
              Hroot Hj Hi) as [spec' [sx' [Hspec' [Hsx' Hresolve]]]].
  rewrite Hspec in Hspec'. inversion Hspec'; subst spec'. clear Hspec'.
  rewrite Hsx in Hsx'. inversion Hsx'; subst sx'. clear Hsx'.
  destruct (Hresolve templateId inverseId Hids) as [Htemplates _].
  eexists. split; [exact Htemplates |].
  assert (Hprint : forall id,
             match resolve_at j root id with
             | None => None
             | Some child => Template_position child
             end = printed_index j id).
  { intros [k |]; [| reflexivity]. simpl.
    destruct (Nat.ltb k j) eqn:Hk; [| reflexivity].
    destruct (nth_error root k) as [child |] eqn:Hchild.
    - destruct (Hresolve templateId inverseId Hids) as [_ Hpos].
      refine (proj2 (Hpos k child _)). simpl. rewrite Hk. exact Hchild.
    - exfalso. apply nth_error_None in Hchild. apply Nat.ltb_lt in Hk.
      assert (Hjlt : j < List.length root)
        by (apply nth_error_Some; rewrite Hj; discriminate).
      lia. }
  unfold Templates_prettyPrint. simpl. rewrite !Hprint. reflexivity.
Qed.

Lemma Templates_prettyPrint_shows_the_wire_indices_witness :
  exists store' t s templates,
    Template_fromSpec [] example_specs = Ok (store', Some t)
    /\ nth_error (Template_statements t) 2 = Some s
    /\ Statement_templates s = Some templates
    /\ Templates_prettyPrint templates = mkTemplatesDump (Some 0) None.
Proof.
  destruct (Template_fromSpec [] example_specs) as [[store' produced] | e] eqn:H;
    [| discriminate H].
  pose proof (Templates_prettyPrint_shows_the_wire_indices
                [] store' example_specs produced H) as Hprint.
  vm_compute in H. inversion H; subst store' produced. clear H.
  edestruct (Hprint _ 1 _ 2 _ _ _ (Some 0) None eq_refl eq_refl eq_refl eq_refl
                    eq_refl eq_refl) as [templates [Htemplates Hdump]].
  eexists. eexists. eexists. exists templates.
  split; [reflexivity |]. split; [reflexivity |].
  split; [exact Htemplates | exact Hdump].
Defined.

(* ------------------------------------------------------------------ *)
(** ** Helper invocations *)

(** X20.  Pulling a helper invocation pulls its arguments, then its helper,
    and calls the helper on the pulled parameter array and the pulled hash
    object; it throws when the helper reference does not hold a function,
    and when pulling the arguments throws. *)
Theorem HelperInvocationReference_calls_the_helper :
  forall (w : World) (helper paramsRef hashRef : Reference) (sources : list Reference),
    let args := EvaluatedParamsAndHash paramsRef hashRef sources in
    (forall p h id,
        Reference_value w paramsRef = Ok p ->
        Reference_value w hashRef = Ok h ->
        Reference_value w helper = Ok (JFun id) ->
        Reference_value w (new_HelperInvocationReference helper args)
        = Ok (call_helper w id p h))
    /\ (forall p h v,
           Reference_value w paramsRef = Ok p ->
           Reference_value w hashRef = Ok h ->
           Reference_value w helper = Ok v ->
           (forall id, v <> JFun id) ->
           exists e, Reference_value w (new_HelperInvocationReference helper args)
                     = Throw e)
    /\ (forall e,
           Reference_value w args = Throw e ->
           Reference_value w (new_HelperInvocationReference helper args) = Throw e).
Proof.
  intros w helper paramsRef hashRef sources args.
  assert (Hvalue : Reference_value w (new_HelperInvocationReference helper args)
                   = (a <- Reference_value w args ;;
                      h <- Reference_value w helper ;;
                      match h with
                      | JFun id =>
                          Ok (call_helper w id (js_field a "params") (js_field a "hash"))
                      | _ => Throw (TypeError "helper is not a function")
                      end)) by reflexivity.
  rewrite Hvalue. unfold args. rewrite EvaluatedParamsAndHash_value.
  split; [| split].
  - intros p h id Hp Hh Hhelper. rewrite Hp, Hh. simpl. rewrite Hhelper. reflexivity.
  - intros p h v Hp Hh Hhelper Hnot. rewrite Hp, Hh. simpl. rewrite Hhelper. simpl.
    destruct v; try (eexists; reflexivity). exfalso. exact (Hnot id eq_refl).
  - intros e He. rewrite He. reflexivity.
Qed.

Lemma HelperInvocationReference_calls_the_helper_witness :
  Reference_value example_world
    (Expression_evaluate example_frame
       (Helper_build "name" (Params_build [Value (JNum 1)]) Hash_empty))
  = Ok (JStr "helped").
Proof.
  exact (proj1 (HelperInvocationReference_calls_the_helper example_world
                  (ConstReference (JFun 0))
                  (EvaluatedParams [ConstReference (JNum 1)] [ConstReference (JNum 1)])
                  (EvaluatedHash [] [] []) _)
           (JArr [JNum 1]) (JObj []) 0 eq_refl eq_refl eq_refl).
Defined.
